(** * The paramiko connection plugin of Ansible, embedded in Rocq

    Source: lib/ansible/runner/connection_plugins/paramiko_ssh.py.

    Python values are modelled as follows.  A [str] is a [string]; a dict
    used as a process-wide cache is a [gmap string _]; an object that is
    shared by reference (an SSHClient, an SFTPClient) lives in a store and is
    named by its address; a method is a function in a state-and-exception
    monad over the pair of [self] and the process state.  What the plugin
    asks of paramiko, of the operating system and of the remote side is
    answered by an [Env] record, one per call.  The verbose logging calls
    [vvv(...)] only print and are left out. *)

From Stdlib Require Import ZArith Ascii String List Lia.
From stdpp Require Import base option list gmap strings pretty.

Local Open Scope Z_scope.
Local Open Scope stdpp_scope.

(** ** Python built-ins on [str] *)

Module Py.

(** [s.startswith(p)] *)
Fixpoint startswith (s p : string) {struct p} : bool :=
  match p with
  | EmptyString => true
  | String a p' =>
      match s with
      | EmptyString => false
      | String b s' => if Ascii.eqb a b then startswith s' p' else false
      end
  end.

(** [s.endswith(p)]: one of the tails of [s], the empty one included, is [p]. *)
Fixpoint endswith (s p : string) : bool :=
  if String.eqb s p then true
  else match s with
       | EmptyString => false
       | String _ s' => endswith s' p
       end.

(** [p in s]: [p] starts at some position of [s]. *)
Fixpoint contains (p s : string) : bool :=
  if startswith s p then true
  else match s with
       | EmptyString => false
       | String _ s' => contains p s'
       end.

(** [s.replace(old, new)] for a non-empty [old]: every occurrence, left to
    right and without overlap.  [skip] counts the characters of a match that
    are still to be passed over. *)
Fixpoint replace_from (old new : string) (skip : nat) (s : string) : string :=
  match s with
  | EmptyString => EmptyString
  | String c s' =>
      match skip with
      | S k => replace_from old new k s'
      | O =>
          if startswith s old
          then new +:+ replace_from old new (Nat.pred (String.length old)) s'
          else String c (replace_from old new O s')
      end
  end.

Definition replace (s old new : string) : string := replace_from old new O s.

(** [s.lstrip()] on the white space of C's [isspace]. *)
Fixpoint lstrip (s : string) : string :=
  match s with
  | String c s' => if Ascii.is_space c then lstrip s' else s
  | EmptyString => EmptyString
  end.

Fixpoint all_space (s : string) : bool :=
  match s with
  | String c s' => if Ascii.is_space c then all_space s' else false
  | EmptyString => true
  end.

(** Reads the leading decimal digits of [s]; returns their value on top of
    [acc], how many there were, and what follows them. *)
Fixpoint scan_digits (acc : Z) (n : nat) (s : string) : Z * nat * string :=
  match s with
  | String c s' =>
      match Ascii.is_nat c with
      | Some d => scan_digits (10 * acc + Z.of_nat d) (S n) s'
      | None => (acc, n, s)
      end
  | EmptyString => (acc, n, EmptyString)
  end.

(** [int(s)] of Python 2 on a [str], base 10: white space, an optional
    sign, white space, at least one digit, white space.  [None] stands for
    the [ValueError] that [int] raises on anything else. *)
Definition int (s : string) : option Z :=
  let s1 := lstrip s in
  let '(neg, s2) :=
    match s1 with
    | String "-"%char r => (true, r)
    | String "+"%char r => (false, r)
    | _ => (false, s1)
    end in
  let '(v, n, rest) := scan_digits 0 O (lstrip s2) in
  match n with
  | O => None
  | S _ => if all_space rest then Some (if neg then - v else v) else None
  end.

(** Truth value of an optional [str]: [None] and [''] are false. *)
Definition truthy (o : option string) : bool :=
  match o with
  | Some (String _ _) => true
  | _ => false
  end.

End Py.

(** ** Exceptions and the monad of methods *)

Inductive exn : Type :=
| AnsibleError (msg : string)
| AnsibleConnectionFailed (msg : string)
| AnsibleFileNotFound (msg : string)
| ValueError (literal : string)   (* int() applied to a str that is no number *)
| AttributeError (msg : string)   (* attribute of None, or attribute never set *)
| TypeError (msg : string)
| IOError (path : string)
| OSError (path : string)
| socket_timeout
| LibraryError (msg : string).    (* any other exception coming out of paramiko *)

Inductive result (A : Type) : Type :=
| Ok (a : A)
| Raise (e : exn).
Arguments Ok {A} a.
Arguments Raise {A} e.

(** A computation reads and writes a state and either returns or raises; the
    state reached when it raises is kept, as Python keeps the mutations made
    before an exception. *)
Definition M (St A : Type) : Type := St -> result A * St.

Definition ret {St A} (a : A) : M St A := fun st => (Ok a, st).
Definition raise {St A} (e : exn) : M St A := fun st => (Raise e, st).
Definition bind {St A B} (m : M St A) (k : A -> M St B) : M St B :=
  fun st =>
    match m st with
    | (Ok a, st') => k a st'
    | (Raise e, st') => (Raise e, st')
    end.
Definition get {St} : M St St := fun st => (Ok st, st).
Definition modify {St} (f : St -> St) : M St unit := fun st => (Ok tt, f st).

(** [try: m except: h] with a bare [except], which catches everything. *)
Definition try_except {St A} (m : M St A) (h : exn -> M St A) : M St A :=
  fun st =>
    match m st with
    | (Ok a, st') => (Ok a, st')
    | (Raise e, st') => h e st'
    end.

Declare Scope py_scope.
Delimit Scope py_scope with py.
Notation "'let!' x ':=' m 'in' k" := (bind m (fun x => k))
  (at level 10, x pattern, m at level 100, k at level 200) : py_scope.
Notation "m '>>' k" := (bind m (fun _ => k))
  (at level 100, k at level 200, right associativity) : py_scope.
Local Open Scope py_scope.

(** [for x in l: body(x)] *)
Fixpoint for_ {St A} (l : list A) (body : A -> M St unit) : M St unit :=
  match l with
  | [] => ret tt
  | x :: l' => body x >> for_ l' body
  end.

(** ** Host keys *)

(** A key object of paramiko, with the attribute that [MyAutoAddPolicy] sets
    on it; [getattr(key, '_added_by_ansible_this_time', False)] reads the
    field, [false] standing for an attribute that was never set. *)
Record PKey : Type := {
  get_name : string;
  get_base64 : string;
  _added_by_ansible_this_time : bool
}.

(** paramiko's [HostKeys]: the list [_entries], one entry for each line read
    from a known-hosts file and for each key added, in that order. An entry
    is a host name and a key; its key type is [key.get_name()]. (A line that
    names several hosts at once is not modelled.) *)
Definition HostKeys : Type := list (string * PKey).

Module HostKeys.

(** [hostname in e.hostnames and e.key.get_name() == keytype] *)
Definition matches (hostname keytype : string) (e : string * PKey) : bool :=
  bool_decide (fst e = hostname) && bool_decide (get_name (snd e) = keytype).

(** [keys()]: the host names, each once, in the order of first appearance. *)
Definition keys (hk : HostKeys) : list string :=
  fold_left (fun ret e => if decide (fst e ∈ ret) then ret else ret ++ [fst e]) hk [].

(** [lookup(hostname)]: the keys of the entries of that host, in order; they
    are what the [SubDict] that paramiko returns holds. *)
Definition lookup (hostname : string) (hk : HostKeys) : list PKey :=
  snd <$> filter (fun e => fst e = hostname) hk.

(** [SubDict.__getitem__(keytype)]: the key of the first entry of that type. *)
Definition getitem (keytype : string) (entries : list PKey) : option PKey :=
  head (filter (fun k => get_name k = keytype) entries).

(** [SubDict.iteritems()]: [keys()] is the key type of every entry, one after
    the other, and each is looked up with [__getitem__]; where two entries
    have the same type, that type comes twice, with the first key both times. *)
Definition sub_items (entries : list PKey) : list (string * PKey) :=
  omap (fun keytype => pair keytype <$> getitem keytype entries) (get_name <$> entries).

(** [iteritems()]: every host name of [keys()] with its [SubDict]. *)
Definition iteritems (hk : HostKeys) : list (string * list (string * PKey)) :=
  (fun hostname => (hostname, sub_items (lookup hostname hk))) <$> keys hk.

(** [add(hostname, keytype, key)]: replaces the key of the first entry of that
    host and type when there is one, adds an entry at the end otherwise. *)
Fixpoint add (hostname keytype : string) (key : PKey) (hk : HostKeys) : HostKeys :=
  match hk with
  | [] => [(hostname, key)]
  | e :: rest =>
      if matches hostname keytype e then (fst e, key) :: rest
      else e :: add hostname keytype key rest
  end.

(** One round of the loop of [__setitem__(hostname, entry)], for one key type
    of [entry]: the key of every entry of that host and type is replaced; an
    entry is added at the end when there was none. *)
Definition set_key (hostname keytype : string) (key : PKey) (hk : HostKeys) : HostKeys :=
  if existsb (matches hostname keytype) hk
  then (fun e => if matches hostname keytype e then (fst e, key) else e) <$> hk
  else hk ++ [(hostname, key)].

(** [self[hostname] = entry], where [entry] is a [SubDict] of another
    collection, given by its items. *)
Definition setitem (hostname : string) (entry : list (string * PKey)) (hk : HostKeys)
  : HostKeys :=
  fold_left (fun acc '(keytype, key) => set_key hostname keytype key acc) entry hk.

(** [self.update(other)]: [self[hostname] = keys] for each item of [other]. *)
Definition update (self other : HostKeys) : HostKeys :=
  fold_left (fun acc '(hostname, entry) => setitem hostname entry acc)
    (iteritems other) self.

(** The items of the nested iteration
    [for hostname, keys in hk.iteritems(): for keytype, key in keys.iteritems()]. *)
Definition entries (hk : HostKeys) : list (string * string * PKey) :=
  concat (map (fun '(hostname, keys) =>
                 map (fun '(keytype, key) => (hostname, keytype, key)) keys)
            (iteritems hk)).

(** A key read from a known-hosts file is a new object: the attribute is not set. *)
Definition parsed (e : string * string * string) : string * PKey :=
  let '(hostname, keytype, b64) := e in
  (hostname,
   {| get_name := keytype; get_base64 := b64; _added_by_ansible_this_time := false |}).

(** [check(hostname, key)]: the collection has a key of that type for the host
    and it is this key. *)
Definition check (hostname : string) (key : PKey) (hk : HostKeys) : bool :=
  match getitem (get_name key) (lookup hostname hk) with
  | Some k => bool_decide (get_base64 k = get_base64 key)
  | None => false
  end.

(** [load(filename)], on the entries that the file gives: each is added at the
    end, unless [check] finds its key in the collection already. Nothing is
    replaced: of two lines for one host and key type the first is the one
    that [iteritems] shows. *)
Definition load (file_entries : list (string * string * string)) (hk : HostKeys) : HostKeys :=
  fold_left (fun acc e => let '(h, k) := parsed e in
                          if check h k acc then acc else acc ++ [(h, k)])
    file_entries hk.

End HostKeys.

(** ["%s %s %s\n" % (hostname, keytype, key.get_base64())] *)
Definition host_key_line (hostname keytype : string) (key : PKey) : string :=
  hostname +:+ " " +:+ keytype +:+ " " +:+ get_base64 key +:+ "
".

(** ** Objects and process state *)

(** A [paramiko.SSHClient]. *)
Record SSHClient : Type := {
  _system_host_keys : HostKeys;
  _host_keys : HostKeys;
  _host_keys_filename : option string;
  ssh_closed : bool
}.

(** A [paramiko.SFTPClient]: a file-transfer sub-channel of the SSHClient at
    address [sftp_session]. *)
Record SFTPClient : Type := {
  sftp_session : nat;
  sftp_closed : bool
}.

Inductive transfer : Type :=
| Put (channel : nat) (in_path out_path : string)
| Get (channel : nat) (in_path out_path : string).

(** What the plugin reads of the runner. *)
Record Runner : Type := {
  sudo : bool;
  sudo_pass : option string;
  runner_private_key_file : option string;
  timeout : Z
}.

(** The fields of a [Connection]; [keyfile] is [None] as long as the attribute
    was never assigned. *)
Record Connection : Type := {
  ssh : option nat;
  sftp : option nat;
  runner : Runner;
  host : string;
  port : Z;
  user : string;
  password : option string;
  private_key_file : option string;
  keyfile : option string
}.

(** [Connection(runner, host, port, user, password, private_key_file)] *)
Definition __init__ (r : Runner) (h : string) (p : Z) (u : string)
    (pw pk : option string) : Connection :=
  {| ssh := None; sftp := None; runner := r; host := h; port := p; user := u;
     password := pw; private_key_file := pk; keyfile := None |}.

(** The state of the process: the two module-level caches, every SSHClient and
    SFTPClient built so far (an object is named by its index), the local file
    system, the advisory locks held, the transfers done and what was printed
    on the standard error. *)
Record Process : Type := {
  SSH_CONNECTION_CACHE : gmap string nat;
  SFTP_CONNECTION_CACHE : gmap string nat;
  ssh_objects : list SSHClient;
  sftp_objects : list SFTPClient;
  files : gmap string string;
  dirs : gset string;
  flocks : gset string;
  transfers : list transfer;
  stderr : list exn
}.

Definition set_ssh_cache (f : gmap string nat -> gmap string nat) (w : Process) : Process :=
  {| SSH_CONNECTION_CACHE := f (SSH_CONNECTION_CACHE w);
     SFTP_CONNECTION_CACHE := SFTP_CONNECTION_CACHE w;
     ssh_objects := ssh_objects w; sftp_objects := sftp_objects w;
     files := files w; dirs := dirs w; flocks := flocks w;
     transfers := transfers w; stderr := stderr w |}.

Definition set_sftp_cache (f : gmap string nat -> gmap string nat) (w : Process) : Process :=
  {| SSH_CONNECTION_CACHE := SSH_CONNECTION_CACHE w;
     SFTP_CONNECTION_CACHE := f (SFTP_CONNECTION_CACHE w);
     ssh_objects := ssh_objects w; sftp_objects := sftp_objects w;
     files := files w; dirs := dirs w; flocks := flocks w;
     transfers := transfers w; stderr := stderr w |}.

Definition set_ssh_objects (f : list SSHClient -> list SSHClient) (w : Process) : Process :=
  {| SSH_CONNECTION_CACHE := SSH_CONNECTION_CACHE w;
     SFTP_CONNECTION_CACHE := SFTP_CONNECTION_CACHE w;
     ssh_objects := f (ssh_objects w); sftp_objects := sftp_objects w;
     files := files w; dirs := dirs w; flocks := flocks w;
     transfers := transfers w; stderr := stderr w |}.

Definition set_sftp_objects (f : list SFTPClient -> list SFTPClient) (w : Process) : Process :=
  {| SSH_CONNECTION_CACHE := SSH_CONNECTION_CACHE w;
     SFTP_CONNECTION_CACHE := SFTP_CONNECTION_CACHE w;
     ssh_objects := ssh_objects w; sftp_objects := f (sftp_objects w);
     files := files w; dirs := dirs w; flocks := flocks w;
     transfers := transfers w; stderr := stderr w |}.

Definition set_files (f : gmap string string -> gmap string string) (w : Process) : Process :=
  {| SSH_CONNECTION_CACHE := SSH_CONNECTION_CACHE w;
     SFTP_CONNECTION_CACHE := SFTP_CONNECTION_CACHE w;
     ssh_objects := ssh_objects w; sftp_objects := sftp_objects w;
     files := f (files w); dirs := dirs w; flocks := flocks w;
     transfers := transfers w; stderr := stderr w |}.

Definition set_dirs (f : gset string -> gset string) (w : Process) : Process :=
  {| SSH_CONNECTION_CACHE := SSH_CONNECTION_CACHE w;
     SFTP_CONNECTION_CACHE := SFTP_CONNECTION_CACHE w;
     ssh_objects := ssh_objects w; sftp_objects := sftp_objects w;
     files := files w; dirs := f (dirs w); flocks := flocks w;
     transfers := transfers w; stderr := stderr w |}.

Definition set_flocks (f : gset string -> gset string) (w : Process) : Process :=
  {| SSH_CONNECTION_CACHE := SSH_CONNECTION_CACHE w;
     SFTP_CONNECTION_CACHE := SFTP_CONNECTION_CACHE w;
     ssh_objects := ssh_objects w; sftp_objects := sftp_objects w;
     files := files w; dirs := dirs w; flocks := f (flocks w);
     transfers := transfers w; stderr := stderr w |}.

Definition set_transfers (f : list transfer -> list transfer) (w : Process) : Process :=
  {| SSH_CONNECTION_CACHE := SSH_CONNECTION_CACHE w;
     SFTP_CONNECTION_CACHE := SFTP_CONNECTION_CACHE w;
     ssh_objects := ssh_objects w; sftp_objects := sftp_objects w;
     files := files w; dirs := dirs w; flocks := flocks w;
     transfers := f (transfers w); stderr := stderr w |}.

Definition set_stderr (f : list exn -> list exn) (w : Process) : Process :=
  {| SSH_CONNECTION_CACHE := SSH_CONNECTION_CACHE w;
     SFTP_CONNECTION_CACHE := SFTP_CONNECTION_CACHE w;
     ssh_objects := ssh_objects w; sftp_objects := sftp_objects w;
     files := files w; dirs := dirs w; flocks := flocks w;
     transfers := transfers w; stderr := f (stderr w) |}.

(** The process at start-up, on a given file system. *)
Definition fresh_process (fs : gmap string string) (ds : gset string) : Process :=
  {| SSH_CONNECTION_CACHE := ∅; SFTP_CONNECTION_CACHE := ∅;
     ssh_objects := []; sftp_objects := [];
     files := fs; dirs := ds; flocks := ∅; transfers := []; stderr := [] |}.

(** ** What the surroundings answer *)

(** How [SSHClient.connect] ends: the handshake and the authentication
    succeed, [unknown_key] being the server key that paramiko found in none of
    its host-key collections and hands to the missing-host-key policy; or it
    raises an exception whose [str()] is [msg]. *)
Inductive handshake : Type :=
| Connected (unknown_key : option PKey)
| ConnectRaises (msg : string).

Record Env : Type := {
  HAVE_PARAMIKO : bool;
  HOST_KEY_CHECKING : bool;            (* C.HOST_KEY_CHECKING *)
  home : string;                       (* what expanduser puts for a leading ~ *)
  getenv : string -> option string;    (* os.environ *)
  (* ssh.load_system_host_keys(): the entries read, or the exception raised *)
  system_host_keys_read : result (list (string * string * string));
  (* ssh.connect(host, username, allow_agent, key_filename, password, timeout, port) *)
  ssh_connect : string -> string -> bool -> option string -> option string -> Z -> Z -> handshake;
  open_sftp_raises : option string;    (* str() of what ssh.open_sftp() raises *)
  sftp_put_ioerror : bool;
  sftp_get_ioerror : bool;
  open_denied : string -> bool;        (* open(path, 'w') raises IOError *)
  (* f.write(data) raises IOError, for a file open for writing to which
     [written] was written since it was opened: [write_denied written data] *)
  write_denied : string -> string -> bool;
  close_denied : bool;                 (* f.close() raises IOError *)
  makedirs_denied : bool;              (* os.makedirs raises OSError *)
  flock_denied : bool                  (* fcntl.flock(_, LOCK_EX) raises IOError *)
}.

(** ** Primitive operations *)

Definition St : Type := Connection * Process.

Definition self : M St Connection := fun st => (Ok (fst st), st).
Definition process : M St Process := fun st => (Ok (snd st), st).
Definition set_self (f : Connection -> Connection) : M St unit :=
  modify (fun st => (f (fst st), snd st)).
Definition update_process (f : Process -> Process) : M St unit :=
  modify (fun st => (fst st, f (snd st))).

Definition set_ssh (v : option nat) (c : Connection) : Connection :=
  {| ssh := v; sftp := sftp c; runner := runner c; host := host c; port := port c;
     user := user c; password := password c; private_key_file := private_key_file c;
     keyfile := keyfile c |}.
Definition set_sftp (v : option nat) (c : Connection) : Connection :=
  {| ssh := ssh c; sftp := v; runner := runner c; host := host c; port := port c;
     user := user c; password := password c; private_key_file := private_key_file c;
     keyfile := keyfile c |}.
Definition set_keyfile (v : option string) (c : Connection) : Connection :=
  {| ssh := ssh c; sftp := sftp c; runner := runner c; host := host c; port := port c;
     user := user c; password := password c; private_key_file := private_key_file c;
     keyfile := v |}.

(** The [AttributeError] of Python for an attribute that an object of class
    [owner] does not have. *)
Definition no_attribute (owner name : string) : exn :=
  AttributeError ("'" +:+ owner +:+ "' object has no attribute '" +:+ name +:+ "'").

(** [self.<field>.<name>], where [self.<field>] may be [None]. *)
Definition attr {A} (field : Connection -> option A) (name : string) : M St A :=
  let! c := self in
  match field c with
  | Some a => ret a
  | None => raise (no_attribute "NoneType" name)
  end.

(** [self.<name>], for an attribute that [__init__] does not assign. *)
Definition own_attr {A} (field : Connection -> option A) (name : string) : M St A :=
  let! c := self in
  match field c with
  | Some a => ret a
  | None => raise (no_attribute "Connection" name)
  end.

Definition ssh_object (a : nat) : M St SSHClient :=
  let! w := process in
  match ssh_objects w !! a with
  | Some o => ret o
  | None => raise (LibraryError "no such object")
  end.

Definition with_system_host_keys (f : HostKeys -> HostKeys) (o : SSHClient) : SSHClient :=
  {| _system_host_keys := f (_system_host_keys o); _host_keys := _host_keys o;
     _host_keys_filename := _host_keys_filename o; ssh_closed := ssh_closed o |}.
Definition with_host_keys (f : HostKeys -> HostKeys) (o : SSHClient) : SSHClient :=
  {| _system_host_keys := _system_host_keys o; _host_keys := f (_host_keys o);
     _host_keys_filename := _host_keys_filename o; ssh_closed := ssh_closed o |}.
Definition with_ssh_closed (o : SSHClient) : SSHClient :=
  {| _system_host_keys := _system_host_keys o; _host_keys := _host_keys o;
     _host_keys_filename := _host_keys_filename o; ssh_closed := true |}.
Definition with_sftp_closed (o : SFTPClient) : SFTPClient :=
  {| sftp_session := sftp_session o; sftp_closed := true |}.

(** [paramiko.SSHClient()] *)
Definition new_SSHClient : M St nat :=
  let! w := process in
  update_process (set_ssh_objects (fun l => l ++
    [{| _system_host_keys := []; _host_keys := []; _host_keys_filename := None;
        ssh_closed := false |}])) >>
  ret (length (ssh_objects w)).

(** [ssh.load_system_host_keys()] *)
Definition load_system_host_keys (env : Env) (a : nat) : M St unit :=
  match system_host_keys_read env with
  | Raise e => raise e
  | Ok es =>
      update_process (set_ssh_objects (alter (with_system_host_keys (HostKeys.load es)) a))
  end.

(** [ssh.open_sftp()] *)
Definition open_sftp (env : Env) (a : nat) : M St nat :=
  match open_sftp_raises env with
  | Some msg => raise (LibraryError msg)
  | None =>
      let! w := process in
      update_process (set_sftp_objects (fun l => l ++
        [{| sftp_session := a; sftp_closed := false |}])) >>
      ret (length (sftp_objects w))
  end.

Definition sftp_close (ch : nat) : M St unit :=
  update_process (set_sftp_objects (alter with_sftp_closed ch)).
Definition ssh_close (a : nat) : M St unit :=
  update_process (set_ssh_objects (alter with_ssh_closed a)).

(** [sftp.put] and [sftp.get]; the bytes moved are not modelled. *)
Definition sftp_put (env : Env) (ch : nat) (in_path out_path : string) : M St unit :=
  if sftp_put_ioerror env then raise (IOError in_path)
  else update_process (set_transfers (fun t => t ++ [Put ch in_path out_path])).
Definition sftp_get (env : Env) (ch : nat) (in_path out_path : string) : M St unit :=
  if sftp_get_ioerror env then raise (IOError in_path)
  else update_process (set_transfers (fun t => t ++ [Get ch in_path out_path])).

(** [open(path, 'w')]: the file is created or truncated; the handle is
    modelled by the path. *)
Definition open_w (env : Env) (path : string) : M St string :=
  if open_denied env path then raise (IOError path)
  else update_process (set_files (insert path EmptyString)) >> ret path.

(** [f.write(s)] on a file opened with [open_w]: what the file holds is what
    was written to it so far, and a write may fail at any point of the
    sequence of writes. *)
Definition f_write (env : Env) (f : string) (s : string) : M St unit :=
  let! w := process in
  if write_denied env (default EmptyString (files w !! f)) s then raise (IOError f)
  else update_process (set_files (alter (fun c => c +:+ s) f)).

(** [f.close()], which may fail when it flushes. *)
Definition f_close (env : Env) (f : string) : M St unit :=
  if close_denied env then raise (IOError f) else ret tt.

(** [os.path.exists(path)] *)
Definition os_path_exists (path : string) : M St bool :=
  let! w := process in
  ret (bool_decide (path ∈ dirs w) || bool_decide (is_Some (files w !! path))).

(** [os.makedirs(path)]; of the directories that it creates, [dirs] records
    [path] itself, not the missing parents made on the way. *)
Definition os_makedirs (env : Env) (path : string) : M St unit :=
  if makedirs_denied env then raise (OSError path)
  else update_process (set_dirs (fun d => {[ path ]} ∪ d)).

Definition flock_EX (env : Env) (f : string) : M St unit :=
  if flock_denied env then raise (IOError f)
  else update_process (set_flocks (fun l => {[ f ]} ∪ l)).
Definition flock_UN (f : string) : M St unit :=
  update_process (set_flocks (fun l => l ∖ {[ f ]})).

(** [traceback.print_exc()] *)
Definition print_exc (e : exn) : M St unit :=
  update_process (set_stderr (fun l => l ++ [e])).

(** [os.path.expanduser] for [~] and [~/...], the forms that the plugin
    writes itself; any other path is returned as it is, which for a path of
    the form [~user/...] is what Python does when it does not know the user. *)
Definition expanduser (env : Env) (path : string) : string :=
  match path with
  | String "~"%char EmptyString => home env
  | String "~"%char (String "/"%char _ as rest) => home env +:+ rest
  | _ => path
  end.

(** [str(e)] *)
Definition exn_str (e : exn) : string :=
  match e with
  | AnsibleError m | AnsibleConnectionFailed m | AnsibleFileNotFound m
  | ValueError m | AttributeError m | TypeError m | IOError m | OSError m
  | LibraryError m => m
  | socket_timeout => "timed out"
  end.

(** ** The plugin *)

(** Writes the lines of the entries of [hk] whose tag is [tagged], in the
    order of the nested iteration: the body shared by the two writing loops of
    [_save_ssh_host_keys]. *)
Definition write_entries (env : Env) (f : string) (tagged : bool) (hk : HostKeys) : M St unit :=
  for_ (HostKeys.iteritems hk) (fun '(hostname, keys) =>
    for_ keys (fun '(keytype, key) =>
      if Bool.eqb (_added_by_ansible_this_time key) tagged
      then f_write env f (host_key_line hostname keytype key)
      else ret tt)).

(** paramiko's [SSHClient.save_host_keys(filename)] *)
Definition save_host_keys (env : Env) (client : nat) (filename : string) : M St unit :=
  let! o := ssh_object client in
  let! f := open_w env filename in
  f_write env f "# SSH host keys collected by paramiko
" >>
  for_ (HostKeys.iteritems (_host_keys o)) (fun '(hostname, keys) =>
    for_ keys (fun '(keytype, key) =>
      f_write env f (host_key_line hostname keytype key))) >>
  f_close env f.

Module MyAutoAddPolicy.

Definition tag (key : PKey) : PKey :=
  {| get_name := get_name key; get_base64 := get_base64 key;
     _added_by_ansible_this_time := true |}.

Definition missing_host_key (env : Env) (client : nat) (hostname : string) (key : PKey)
  : M St unit :=
  let key := tag key in
  update_process (set_ssh_objects
    (alter (with_host_keys (HostKeys.add hostname (get_name key) key)) client)) >>
  let! o := ssh_object client in
  match _host_keys_filename o with
  | Some filename => save_host_keys env client filename
  | None => ret tt
  end.

End MyAutoAddPolicy.

Definition cache_key_of (h u : string) : string := h +:+ "__" +:+ u +:+ "__".

Definition _cache_key : M St string :=
  let! c := self in ret (cache_key_of (host c) (user c)).

(** The exception that [_connect_uncached] raises for an exception of
    [ssh.connect] whose text is [msg]. *)
Definition connect_failure (c : Connection) (msg : string) : exn :=
  if Py.contains "PID check failed" msg then
    AnsibleError "paramiko version issue, please upgrade paramiko on the machine running ansible"
  else if Py.contains "Private key file is encrypted" msg then
    AnsibleConnectionFailed
      ("ssh " +:+ user c +:+ "@" +:+ host c +:+ ":" +:+ pretty (port c) +:+ " : " +:+ msg +:+ "
To connect as a different user, use -u <username>.")
  else AnsibleConnectionFailed msg.

(** The name under which [SSHClient.connect] looks the key of the server up
    and hands it to the policy: the host name for port 22, and
    ["[%s]:%d" % (hostname, port)] for any other port. *)
Definition server_hostkey_name (c : Connection) : string :=
  if decide (port c = 22) then host c
  else "[" +:+ host c +:+ "]:" +:+ pretty (port c).

Definition _connect_uncached (env : Env) : M St nat :=
  if negb (HAVE_PARAMIKO env) then raise (AnsibleError "paramiko is not installed") else
  let! ssh := new_SSHClient in
  set_self (set_keyfile (Some (expanduser env "~/.ssh/known_hosts"))) >>
  (if HOST_KEY_CHECKING env then load_system_host_keys env ssh else ret tt) >>
  let! c := self in
  let allow_agent := match password c with Some _ => false | None => true end in
  try_except
    (let key_filename :=
       if Py.truthy (private_key_file c) then expanduser env <$> private_key_file c
       else if Py.truthy (runner_private_key_file (runner c))
            then expanduser env <$> runner_private_key_file (runner c)
            else None in
     match ssh_connect env (host c) (user c) allow_agent key_filename (password c)
             (timeout (runner c)) (port c) with
     | Connected (Some key) =>
         MyAutoAddPolicy.missing_host_key env ssh (server_hostkey_name c) key
     | Connected None => ret tt
     | ConnectRaises msg => raise (LibraryError msg)
     end)
    (fun e => raise (connect_failure c (exn_str e))) >>
  ret ssh.

Definition connect (env : Env) : M St unit :=
  let! cache_key := _cache_key in
  let! w := process in
  match SSH_CONNECTION_CACHE w !! cache_key with
  | Some s => set_self (set_ssh (Some s))
  | None =>
      let! s := _connect_uncached env in
      set_self (set_ssh (Some s)) >>
      update_process (set_ssh_cache (insert cache_key s))
  end.

Definition put_file (env : Env) (in_path out_path : string) : M St unit :=
  let! found := os_path_exists in_path in
  if negb found then
    raise (AnsibleFileNotFound ("file or module does not exist: " +:+ in_path))
  else
  try_except
    (let! s := attr ssh "open_sftp" in
     let! ch := open_sftp env s in
     set_self (set_sftp (Some ch)))
    (fun e => raise (AnsibleError
       ("failed to open a SFTP connection (" +:+ exn_str e +:+ ")"))) >>
  try_except
    (let! ch := attr sftp "put" in sftp_put env ch in_path out_path)
    (fun e => match e with
              | IOError _ => raise (AnsibleError ("failed to transfer file to " +:+ out_path))
              | _ => raise e
              end).

Definition _connect_sftp (env : Env) : M St nat :=
  let! c := self in
  let cache_key := host c +:+ "__" +:+ user c +:+ "__" in
  let! w := process in
  match SFTP_CONNECTION_CACHE w !! cache_key with
  | Some r => ret r
  | None =>
      connect env >>
      let! s := attr ssh "open_sftp" in
      let! r := open_sftp env s in
      update_process (set_sftp_cache (insert cache_key r)) >>
      ret r
  end.

(** [errors.AnsibleError] is built from one message, and the handler of the
    first [try] calls it with the format and the exception as two arguments:
    what comes out of the handler is the [TypeError] of that call. *)
Definition fetch_file (env : Env) (in_path out_path : string) : M St unit :=
  try_except
    (let! ch := _connect_sftp env in set_self (set_sftp (Some ch)))
    (fun e => raise (TypeError "__init__() takes exactly 2 arguments (3 given)")) >>
  try_except
    (let! ch := attr sftp "get" in sftp_get env ch in_path out_path)
    (fun e => match e with
              | IOError _ => raise (AnsibleError ("failed to transfer file from " +:+ in_path))
              | _ => raise e
              end).

(** The first loop of [_save_ssh_host_keys]: [break] leaves the inner loop
    only, so every host is still visited. *)
Fixpoint any_added_keys (keys : list (string * PKey)) (added_any : bool) : bool :=
  match keys with
  | [] => added_any
  | (_, key) :: rest =>
      if _added_by_ansible_this_time key then true else any_added_keys rest added_any
  end.

Definition any_added (hk : HostKeys) : bool :=
  fold_left (fun added_any '(_, keys) => any_added_keys keys added_any)
    (HostKeys.iteritems hk) false.

(** [self.ssh._host_keys] is the same collection at each of the three
    iterations, nothing in between touching it; it is read once. *)
Definition _save_ssh_host_keys (env : Env) (filename : string) : M St unit :=
  let! a := attr ssh "_host_keys" in
  let! o := ssh_object a in
  let hk := _host_keys o in
  if negb (any_added hk) then ret tt else
  let path := expanduser env "~/.ssh" in
  let! found := os_path_exists path in
  (if negb found then os_makedirs env path else ret tt) >>
  let! f := open_w env filename in
  write_entries env f false hk >>
  write_entries env f true hk >>
  f_close env f.

Definition close (env : Env) : M St unit :=
  let! cache_key := _cache_key in
  update_process (set_ssh_cache (delete cache_key)) >>
  update_process (set_sftp_cache (delete cache_key)) >>
  let! c := self in
  match sftp c with
  | Some ch => sftp_close ch
  | None => ret tt
  end >>
  let! kf := own_attr keyfile "keyfile" in
  let lockfile := Py.replace kf "known_hosts" ".known_hosts.lock" in
  let! KEY_LOCK := open_w env lockfile in
  flock_EX env KEY_LOCK >>
  try_except
    (let! a := attr ssh "load_system_host_keys" in
     load_system_host_keys env a >>
     let! o := ssh_object a in
     update_process (set_ssh_objects
       (alter (with_host_keys (fun hk => HostKeys.update hk (_system_host_keys o))) a)) >>
     _save_ssh_host_keys env kf)
    (fun e => print_exc e) >>
  flock_UN KEY_LOCK >>
  let! a := attr ssh "close" in
  ssh_close a.

(** ** Running a command *)

(** What one call of [chan.recv(bufsize)] gives: some bytes, none when the
    remote side has closed the stream, or a [socket.timeout]. *)
Inductive recv_result : Type :=
| Chunk (data : string)
| TimesOut.

(** A channel of the transport: the pseudo-terminal requested, the command
    started, what the successive reads will give (a script that is used up
    means that the stream is closed), what was written to the input, the
    error stream and the exit status. *)
Record Channel : Type := {
  pty : option (string * Z * Z);
  command : option string;
  incoming : list recv_result;
  sent : list string;
  stderr_bytes : string;
  exit_status : Z
}.

Definition set_pty (v : option (string * Z * Z)) (ch : Channel) : Channel :=
  {| pty := v; command := command ch; incoming := incoming ch; sent := sent ch;
     stderr_bytes := stderr_bytes ch; exit_status := exit_status ch |}.
Definition set_command (v : option string) (ch : Channel) : Channel :=
  {| pty := pty ch; command := v; incoming := incoming ch; sent := sent ch;
     stderr_bytes := stderr_bytes ch; exit_status := exit_status ch |}.
Definition set_incoming (v : list recv_result) (ch : Channel) : Channel :=
  {| pty := pty ch; command := command ch; incoming := v; sent := sent ch;
     stderr_bytes := stderr_bytes ch; exit_status := exit_status ch |}.
Definition set_sent (v : list string) (ch : Channel) : Channel :=
  {| pty := pty ch; command := command ch; incoming := incoming ch; sent := v;
     stderr_bytes := stderr_bytes ch; exit_status := exit_status ch |}.

(** The states in which the prompt loop of [exec_command] ends. While it runs,
    the scanner is AWAITING_PROMPT with the output accumulated so far. *)
Inductive scan : Type :=
| PROMPT_SATISFIED (sudo_output : string)
| CLOSED_EARLY (sudo_output : string)
| TIMED_OUT (sudo_output : string).

(** [while not sudo_output.endswith(prompt): chunk = chan.recv(bufsize); ...;
    sudo_output += chunk], by recursion on what the reads will give. Returns
    the state reached and the reads that are left. *)
Fixpoint await_prompt (prompt sudo_output : string) (reads : list recv_result)
  : scan * list recv_result :=
  if Py.endswith sudo_output prompt then (PROMPT_SATISFIED sudo_output, reads)
  else match reads with
       | [] => (CLOSED_EARLY sudo_output, [])
       | TimesOut :: rest => (TIMED_OUT sudo_output, rest)
       | Chunk EmptyString :: rest => (CLOSED_EARLY sudo_output, rest)
       | Chunk chunk :: rest => await_prompt prompt (sudo_output +:+ chunk) rest
       end.

(** [''.join(chan.makefile('rb', bufsize))]: everything up to the end of the stream. *)
Fixpoint read_to_end (reads : list recv_result) : result string * list recv_result :=
  match reads with
  | [] => (Ok EmptyString, [])
  | TimesOut :: rest => (Raise socket_timeout, rest)
  | Chunk EmptyString :: rest => (Ok EmptyString, rest)
  | Chunk data :: rest =>
      match read_to_end rest with
      | (Ok s, rest') => (Ok (data +:+ s), rest')
      | (Raise e, rest') => (Raise e, rest')
      end
  end.

(** [int(os.getenv(name, 0))] *)
Definition int_getenv (env : Env) (name : string) : M Channel Z :=
  match getenv env name with
  | None => ret 0
  | Some s =>
      match Py.int s with
      | Some z => ret z
      | None => raise (ValueError s)
      end
  end.

Section Exec.

(** [pipes.quote] and [utils.make_sudo_cmd] are defined elsewhere; the
    latter returns the command line and the prompt to wait for. *)
Variable quote : string -> string.
Variable make_sudo_cmd : string -> option string -> string -> string * string.

(** The body of [exec_command] once the channel is open. *)
Definition exec_on_channel (c : Connection) (env : Env)
    (cmd sudo_user : string) (sudoable : bool) (executable : option string)
  : M Channel (Z * string * string * string) :=
  (if negb (sudo (runner c)) || negb sudoable then
     let quoted_command :=
       match executable with
       | Some (String _ _ as exe) => exe +:+ " -c " +:+ quote cmd
       | _ => cmd
       end in
     modify (set_command (Some quoted_command))
   else
     let term := default "vt100" (getenv env "TERM") in
     let! width := int_getenv env "COLUMNS" in
     let! height := int_getenv env "LINES" in
     modify (set_pty (Some (term, width, height))) >>
     let '(shcmd, prompt) := make_sudo_cmd sudo_user executable cmd in
     modify (set_command (Some shcmd)) >>
     match sudo_pass (runner c) with
     | Some (String _ _ as pass) =>
         let! ch := get in
         let '(reached, rest) := await_prompt prompt EmptyString (incoming ch) in
         modify (set_incoming rest) >>
         match reached with
         | PROMPT_SATISFIED _ =>
             modify (fun ch => set_sent (sent ch ++ [pass +:+ "
"]) ch)
         | CLOSED_EARLY sudo_output =>
             if Py.contains "unknown user" sudo_output
             then raise (AnsibleError ("user " +:+ sudo_user +:+ " does not exist"))
             else raise (AnsibleError
                    ("ssh connection " +:+ "closed waiting for password prompt"))
         | TIMED_OUT sudo_output =>
             raise (AnsibleError ("ssh timed out waiting for sudo.
" +:+ sudo_output))
         end
     | _ => ret tt
     end) >>
  let! ch := get in
  let '(stdout, rest) := read_to_end (incoming ch) in
  modify (set_incoming rest) >>
  match stdout with
  | Raise e => raise e
  | Ok stdout => ret (exit_status ch, EmptyString, stdout, stderr_bytes ch)
  end.

(** [exec_command]; [session] is what
    [self.ssh.get_transport().open_session()] returns or raises. Returns the
    result and the channel as the call leaves it. *)
Definition exec_command (c : Connection) (env : Env) (session : result Channel)
    (cmd tmp_path sudo_user : string) (sudoable : bool) (executable : option string)
  : result (Z * string * string * string) * option Channel :=
  match session with
  | Raise e =>
      let msg := "Failed to open session" in
      let msg := if decide (0 < String.length (exn_str e))%nat
                 then msg +:+ ": " +:+ exn_str e else msg in
      (Raise (AnsibleConnectionFailed msg), None)
  | Ok chan =>
      let '(r, chan') := exec_on_channel c env cmd sudo_user sudoable executable chan in
      (r, Some chan')
  end.

End Exec.

(** ** Vocabulary of the properties *)

(** [''.join(l)] *)
Definition join (l : list string) : string := foldr String.append EmptyString l.

(** Whether the key of an entry carries the tag of [MyAutoAddPolicy]. *)
Definition added (e : string * string * PKey) : bool :=
  _added_by_ansible_this_time (snd e).

Definition entry_line (e : string * string * PKey) : string :=
  host_key_line (fst (fst e)) (snd (fst e)) (snd e).

(** The entries that were there before the session, and those accepted during
    it, both in the order of iteration. *)
Definition pre_existing (hk : HostKeys) : list (string * string * PKey) :=
  filter (fun e => added e = false) (HostKeys.entries hk).
Definition newly_accepted (hk : HostKeys) : list (string * string * PKey) :=
  filter (fun e => added e = true) (HostKeys.entries hk).

(** The lines of the entries whose tag is [tagged]. *)
Definition lines_of (tagged : bool) (es : list (string * string * PKey)) : list string :=
  entry_line <$> filter (fun e => added e = tagged) es.

(** The key that the collection shows for a host and a key type: [hk[hostname][keytype]]. *)
Definition shown (hk : HostKeys) (hostname keytype : string) : option PKey :=
  HostKeys.getitem keytype (HostKeys.lookup hostname hk).

(** No key of the collection is tagged. *)
Definition untagged (hk : HostKeys) : Prop :=
  Forall (fun e => added e = false) (HostKeys.entries hk).

(** The file system after [s] was written at the end of the open file [f]. *)
Definition append_file (f s : string) (w : Process) : Process :=
  set_files (alter (fun c => c +:+ s) f) w.

(** The lock file that [close] derives from the known-hosts path. *)
Definition lockfile_of (kf : string) : string :=
  Py.replace kf "known_hosts" ".known_hosts.lock".

(** [wp m Q E st]: run from [st], [m] returns a value and a state that satisfy
    [Q], or raises an exception in a state that satisfy [E]. *)
Definition wp {St A} (m : M St A) (Q : A -> St -> Prop) (E : exn -> St -> Prop)
    (st : St) : Prop :=
  match m st with
  | (Ok a, st') => Q a st'
  | (Raise e, st') => E e st'
  end.

(** What [close] keeps when no key is tagged: [self] is [c], the known-hosts
    file holds [v], and the collections of the session of [c] are untagged. *)
Definition trust_inv (env : Env) (c : Connection) (v : option string) (st : St) : Prop :=
  fst st = c
  /\ files (snd st) !! expanduser env "~/.ssh/known_hosts" = v
  /\ forall a o, ssh c = Some a -> ssh_objects (snd st) !! a = Some o ->
       untagged (_host_keys o) /\ untagged (_system_host_keys o).

(** From [st0] to [st] nothing changed but, at most, the files and the
    directories. *)
Definition fs_frame (st0 st : St) : Prop :=
  fst st = fst st0
  /\ SSH_CONNECTION_CACHE (snd st) = SSH_CONNECTION_CACHE (snd st0)
  /\ SFTP_CONNECTION_CACHE (snd st) = SFTP_CONNECTION_CACHE (snd st0)
  /\ ssh_objects (snd st) = ssh_objects (snd st0)
  /\ sftp_objects (snd st) = sftp_objects (snd st0)
  /\ flocks (snd st) = flocks (snd st0)
  /\ transfers (snd st) = transfers (snd st0)
  /\ stderr (snd st) = stderr (snd st0).

(** The same, except that the SSHClient objects may have been updated in
    place: there are as many as before. *)
Definition obj_frame (st0 st : St) : Prop :=
  fst st = fst st0
  /\ SSH_CONNECTION_CACHE (snd st) = SSH_CONNECTION_CACHE (snd st0)
  /\ SFTP_CONNECTION_CACHE (snd st) = SFTP_CONNECTION_CACHE (snd st0)
  /\ length (ssh_objects (snd st)) = length (ssh_objects (snd st0))
  /\ sftp_objects (snd st) = sftp_objects (snd st0)
  /\ flocks (snd st) = flocks (snd st0)
  /\ transfers (snd st) = transfers (snd st0)
  /\ stderr (snd st) = stderr (snd st0).

(** The body of the [try] block of [close]. *)
Definition close_try_body (env : Env) (kf : string) : M St unit :=
  let! a := attr ssh "load_system_host_keys" in
  load_system_host_keys env a >>
  let! o := ssh_object a in
  update_process (set_ssh_objects
    (alter (with_host_keys (fun hk => HostKeys.update hk (_system_host_keys o))) a)) >>
  _save_ssh_host_keys env kf.

(** What [except: traceback.print_exc()] prints for a block that ended with [r]. *)
Definition printed {A} (r : result A) : list exn :=
  match r with
  | Ok _ => []
  | Raise e => [e]
  end.

(** ** A sample run *)

Module Sample.

Definition the_runner : Runner :=
  {| sudo := true; sudo_pass := Some "s3cret"; runner_private_key_file := None;
     timeout := 10 |}.

Definition server_key : PKey :=
  {| get_name := "ssh-rsa"; get_base64 := "CCCC"; _added_by_ansible_this_time := false |}.

(** Everything works: the server key is new, the known hosts hold two entries
    and the terminal has no size in the environment. *)
Definition env : Env :=
  {| HAVE_PARAMIKO := true; HOST_KEY_CHECKING := true; home := "/home/op";
     getenv := fun _ => None;
     system_host_keys_read := Ok [("alpha", "ssh-rsa", "AAAA"); ("beta", "ssh-dss", "BBBB")];
     ssh_connect := fun _ _ _ _ _ _ _ => Connected (Some server_key);
     open_sftp_raises := None; sftp_put_ioerror := false; sftp_get_ioerror := false;
     open_denied := fun _ => false; write_denied := fun _ _ => false;
     close_denied := false; makedirs_denied := false;
     flock_denied := false |}.

(** The same, except that [deny] decides which files cannot be opened for
    writing, and [read] is what reading the known hosts gives. *)
Definition env_with (deny : string -> bool)
    (read : result (list (string * string * string))) : Env :=
  {| HAVE_PARAMIKO := true; HOST_KEY_CHECKING := true; home := "/home/op";
     getenv := fun _ => None;
     system_host_keys_read := read;
     ssh_connect := fun _ _ _ _ _ _ _ => Connected (Some server_key);
     open_sftp_raises := None; sftp_put_ioerror := false; sftp_get_ioerror := false;
     open_denied := deny; write_denied := fun _ _ => false;
     close_denied := false; makedirs_denied := false;
     flock_denied := false |}.

(** The same as [env], with the given environment variables. *)
Definition env_vars (vars : string -> option string) : Env :=
  {| HAVE_PARAMIKO := true; HOST_KEY_CHECKING := true; home := "/home/op";
     getenv := vars;
     system_host_keys_read := Ok [];
     ssh_connect := fun _ _ _ _ _ _ _ => Connected None;
     open_sftp_raises := None; sftp_put_ioerror := false; sftp_get_ioerror := false;
     open_denied := fun _ => false; write_denied := fun _ _ => false;
     close_denied := false; makedirs_denied := false;
     flock_denied := false |}.

Definition known_hosts : string := "/home/op/.ssh/known_hosts".
Definition lockfile : string := "/home/op/.ssh/.known_hosts.lock".

Definition conn : Connection := __init__ the_runner "gamma" 22 "op" None None.

(** A process that has done nothing yet, with the known-hosts file of two
    lines and a local file to send. *)
Definition start : Process :=
  fresh_process
    {[ known_hosts := "alpha ssh-rsa AAAA
beta ssh-dss BBBB
";
       "/tmp/module" := "#!/bin/sh" ]}
    {[ "/home/op/.ssh" ]}.

(** After [conn.connect()]. *)
Definition connected : St := snd (connect env (conn, start)).

(** A known-hosts file in which the two lines of one host are apart, and the
    process that starts on it. *)
Definition interleaved : list (string * string * string) :=
  [("alpha", "ssh-rsa", "AAAA"); ("beta", "ssh-dss", "BBBB"); ("alpha", "ssh-dss", "DDDD")].

Definition interleaved_start : Process :=
  fresh_process
    {[ known_hosts := "alpha ssh-rsa AAAA
beta ssh-dss BBBB
alpha ssh-dss DDDD
" ]}
    {[ "/home/op/.ssh" ]}.

(** A session whose collection of host keys was merged already: two entries
    from the file and, between them, one accepted during the session. *)
Definition merged_client : SSHClient :=
  {| _system_host_keys := [];
     _host_keys :=
       [("alpha", {| get_name := "ssh-rsa"; get_base64 := "AAAA";
                     _added_by_ansible_this_time := false |});
        ("gamma", MyAutoAddPolicy.tag server_key);
        ("beta", {| get_name := "ssh-dss"; get_base64 := "BBBB";
                    _added_by_ansible_this_time := false |})];
     _host_keys_filename := None; ssh_closed := false |}.

Definition merged : St :=
  (set_keyfile (Some known_hosts) (set_ssh (Some O) conn),
   set_ssh_objects (fun _ => [merged_client]) start).

(** A session that accepted no key. *)
Definition quiet_client : SSHClient :=
  {| _system_host_keys := []; _host_keys := []; _host_keys_filename := None;
     ssh_closed := false |}.

Definition quiet : St :=
  (set_keyfile (Some known_hosts) (set_ssh (Some O) conn),
   set_ssh_objects (fun _ => [quiet_client]) start).

(** A channel on which sudo prints its prompt in two pieces, then the output
    of the command. *)
Definition make_sudo_cmd (sudo_user : string) (executable : option string) (cmd : string)
  : string * string :=
  ("sudo -k && sudo -p '[sudo] password: ' -u " +:+ sudo_user +:+ " " +:+ cmd,
   "[sudo] password: ").

Definition quote (s : string) : string := "'" +:+ s +:+ "'".

Definition channel (reads : list recv_result) : Channel :=
  {| pty := None; command := None; incoming := reads; sent := [];
     stderr_bytes := EmptyString; exit_status := 0 |}.

(** COLUMNS is set to a word; the other variables are unset. *)
Definition wide_columns (name : string) : option string :=
  if String.eqb name "COLUMNS" then Some "wide" else None.

(** The known-hosts file cannot be opened for writing; the lock file cannot. *)
Definition deny_known_hosts (path : string) : bool := String.eqb path known_hosts.
Definition deny_lockfile (path : string) : bool := String.eqb path lockfile.

(** sudo prints its prompt in two pieces, then the command prints its output. *)
Definition prompted : Channel :=
  channel [Chunk "[sudo] pass"; Chunk "word: "; Chunk "uid=0(root)"].

(** sudo does not know the user and the stream closes. *)
Definition unknown_user : Channel := channel [Chunk "sudo: unknown user: bob"].

End Sample.

(** ** Vocabulary of the properties of [exec_command] *)

(** The size that [int(os.getenv(name, 0))] gives when it gives one. *)
Definition env_size (env : Env) (name : string) (z : Z) : Prop :=
  (getenv env name = None /\ z = 0)
  \/ exists s, getenv env name = Some s /\ Py.int s = Some z.

(** [s] ends with [p]; [p] occurs in [s]. *)
Definition ends_with (s p : string) : Prop := exists pre, s = pre +:+ p.
Definition occurs_in (p s : string) : Prop := exists a b, s = a +:+ p +:+ b.

(** The reads [chunks] all bring bytes, and after none of the first
    [0 .. n] of them does the output accumulated from [out] end with [prompt]. *)
Definition never_prompted_upto (n : nat) (prompt out : string) (chunks : list string) : Prop :=
  Forall (fun ch => ch <> EmptyString) chunks
  /\ forall k, (k <= n)%nat -> ~ ends_with (out +:+ join (take k chunks)) prompt.

(** ** Further vocabulary *)

(** The call [ssh.connect(self.host, username=self.user, allow_agent=...,
    look_for_keys=True, key_filename=..., password=self.password,
    timeout=self.runner.timeout, port=self.port)] of [_connect_uncached], with
    the arguments as the method computes them. *)
Definition handshake_of (env : Env) (c : Connection) : handshake :=
  ssh_connect env (host c) (user c)
    (match password c with Some _ => false | None => true end)
    (if Py.truthy (private_key_file c) then expanduser env <$> private_key_file c
     else if Py.truthy (runner_private_key_file (runner c))
          then expanduser env <$> runner_private_key_file (runner c)
          else None)
    (password c) (timeout (runner c)) (port c).

(** The SSHClient that [_connect_uncached] returns: the system host keys as
    read when host-key checking is on, and the key that the policy accepted. *)
Definition new_session (env : Env) (c : Connection)
    (es : list (string * string * string)) (unknown_key : option PKey) : SSHClient :=
  {| _system_host_keys := if HOST_KEY_CHECKING env then HostKeys.load es [] else [];
     _host_keys :=
       match unknown_key with
       | Some key => [(server_hostkey_name c, MyAutoAddPolicy.tag key)]
       | None => []
       end;
     _host_keys_filename := None;
     ssh_closed := false |}.

(** An underscore occurs in [s]. *)
Fixpoint has_underscore (s : string) : bool :=
  match s with
  | EmptyString => false
  | String c s' => if Ascii.eqb c "_" then true else has_underscore s'
  end.

(** The command line that [exec_command] starts without sudo. *)
Definition direct_command (quote : string -> string) (executable : option string)
    (cmd : string) : string :=
  match executable with
  | Some (String _ _ as exe) => exe +:+ " -c " +:+ quote cmd
  | _ => cmd
  end.

(** What [exec_command] returns once the channel is drained, or raises. *)
Definition drained (chan : Channel) (stdout : result string)
  : result (Z * string * string * string) :=
  match stdout with
  | Ok s => Ok (exit_status chan, EmptyString, s, stderr_bytes chan)
  | Raise e => Raise e
  end.

(** The stream is closed at this point: nothing is left to read, or the next
    read brings no bytes. *)
Definition closes (closing : list recv_result) : Prop :=
  closing = [] \/ exists rest, closing = Chunk EmptyString :: rest.

(** Every one of the reads brings bytes. *)
Definition all_bytes (chunks : list string) : Prop :=
  Forall (fun ch => ch <> EmptyString) chunks.

(** The output of the reads [chunks] ends with [prompt], and the output of
    fewer of them does not. *)
Definition first_prompted (prompt : string) (chunks : list string) : Prop :=
  ends_with (join chunks) prompt
  /\ forall n, length chunks = S n -> never_prompted_upto n prompt EmptyString chunks.

(** The channel once [exec_command] has asked for the pseudo-terminal and
    started the sudo command. *)
Definition sudo_started (make_sudo_cmd : string -> option string -> string -> string * string)
    (env : Env) (sudo_user : string) (executable : option string) (cmd : string)
    (width height : Z) (chan : Channel) : Channel :=
  set_command (Some (fst (make_sudo_cmd sudo_user executable cmd)))
    (set_pty (Some (default "vt100" (getenv env "TERM"), width, height)) chan).

(** The system host keys of a client once [close] has read the entries [es]
    of the known hosts again, its own collection once these were merged into
    it, and the client as [close] leaves it. *)
Definition reread (es : list (string * string * string)) (o : SSHClient) : HostKeys :=
  HostKeys.load es (_system_host_keys o).
Definition merged (es : list (string * string * string)) (o : SSHClient) : HostKeys :=
  HostKeys.update (_host_keys o) (reread es o).
Definition merged_session (es : list (string * string * string)) (o : SSHClient)
    (closed : bool) : SSHClient :=
  {| _system_host_keys := reread es o; _host_keys := merged es o;
     _host_keys_filename := _host_keys_filename o; ssh_closed := closed |}.

(** ** Further sample runs *)

Module Scenario.

(** The two entries of the sample known-hosts file. *)
Definition entries : list (string * string * string) :=
  [("alpha", "ssh-rsa", "AAAA"); ("beta", "ssh-dss", "BBBB")].

(** The sample surroundings, except for what the handshake gives and for what
    fails: paramiko missing, [open_sftp] raising an exception of the given
    text, [put] raising an [IOError], and the writes to a local file that
    raise one. *)
Definition surroundings (paramiko : bool) (shake : handshake) (sftp_refused : option string)
    (put_fails : bool) (write_fails : string -> string -> bool) : Env :=
  {| HAVE_PARAMIKO := paramiko; HOST_KEY_CHECKING := true; home := "/home/op";
     getenv := fun _ => None;
     system_host_keys_read := Ok entries;
     ssh_connect := fun _ _ _ _ _ _ _ => shake;
     open_sftp_raises := sftp_refused; sftp_put_ioerror := put_fails;
     sftp_get_ioerror := false;
     open_denied := fun _ => false; write_denied := write_fails;
     close_denied := false; makedirs_denied := false;
     flock_denied := false |}.

Definition never (written data : string) : bool := false.

Definition encrypted_key : Env :=
  surroundings true (ConnectRaises "Private key file is encrypted") None false never.
Definition no_paramiko : Env :=
  surroundings false (Connected None) None false never.
Definition sftp_refused : Env :=
  surroundings true (Connected None) (Some "EOF during negotiation") false never.
Definition put_fails : Env :=
  surroundings true (Connected None) None true never.


(** A runner that does not use sudo, and one that uses it without a password. *)
Definition plain_runner : Runner :=
  {| sudo := false; sudo_pass := None; runner_private_key_file := None; timeout := 10 |}.
Definition passwordless_runner : Runner :=
  {| sudo := true; sudo_pass := None; runner_private_key_file := None; timeout := 10 |}.

(** A Connection to a server that listens on another port than 22. *)
Definition high_port : Connection :=
  __init__ Sample.the_runner "gamma" 2222 "op" None None.

Definition plain : Connection := __init__ plain_runner "gamma" 22 "op" None None.
Definition passwordless : Connection :=
  __init__ passwordless_runner "gamma" 22 "op" None None.

(** The command prints its output in two pieces and the stream closes. *)
Definition output_only : Channel := Sample.channel [Chunk "uid=0"; Chunk "(root)"].

(** Reading times out in the middle of the prompt; after the prompt. *)
Definition stalled : Channel := Sample.channel [Chunk "[sudo] pass"; TimesOut].
Definition stalled_after_prompt : Channel :=
  Sample.channel [Chunk "[sudo] password: "; Chunk "uid=0"; TimesOut].

(** The known hosts as another process left them in the meantime: the key
    of gamma is recorded. *)
Definition recorded_elsewhere : list (string * string * string) :=
  entries ++ [("gamma", "ssh-rsa", "CCCC")].

(** The merged session in a home directory that has no [.ssh] yet. *)
Definition bare : Process :=
  set_ssh_objects (fun _ => [Sample.merged_client]) (fresh_process ∅ ∅).

End Scenario.

(** * Properties *)

(** ** The definitions at work *)

Example endswith_prompt :
  Py.endswith "[sudo] password for bob: " "password for bob: " = true.
Proof. reflexivity. Qed.

Example endswith_not_trailing :
  Py.endswith "password for bob: x" "password for bob: " = false.
Proof. reflexivity. Qed.

Example int_examples :
  Py.int "80" = Some 80 /\ Py.int " -7 " = Some (-7) /\ Py.int "" = None
  /\ Py.int "wide" = None /\ Py.int "8 0" = None /\ Py.int "24x" = None.
Proof. repeat split; reflexivity. Qed.

Example replace_example :
  Py.replace "/home/u/.ssh/known_hosts" "known_hosts" ".known_hosts.lock"
  = "/home/u/.ssh/.known_hosts.lock".
Proof. reflexivity. Qed.

Example host_key_line_example :
  host_key_line "example.org" "ssh-rsa"
    {| get_name := "ssh-rsa"; get_base64 := "AAAA"; _added_by_ansible_this_time := true |}
  = String.append "example.org ssh-rsa AAAA" (String "010"%char EmptyString).
Proof. reflexivity. Qed.

(** ** The built-ins meet their specifications *)

Section StringFacts.

Lemma app_cons a s t : String a s +:+ t = String a (s +:+ t).
Proof. reflexivity. Qed.

Lemma app_empty_r s : s +:+ EmptyString = s.
Proof. induction s as [|a s IH]; [done|]. by rewrite app_cons, IH. Qed.

Lemma app_assoc s t u : (s +:+ t) +:+ u = s +:+ (t +:+ u).
Proof. induction s as [|a s IH]; [done|]. by rewrite !app_cons, IH. Qed.

Lemma app_length s t :
  String.length (s +:+ t) = (String.length s + String.length t)%nat.
Proof. induction s as [|a s IH]; [done|]. rewrite app_cons. simpl. by rewrite IH. Qed.

Lemma startswith_spec s p : Py.startswith s p = true <-> exists t, s = p +:+ t.
Proof.
  revert s. induction p as [|a p IH]; intros s; simpl.
  - split; [intros _; by exists s | done].
  - destruct s as [|b s].
    + split; [done | intros [t Ht]; rewrite app_cons in Ht; discriminate].
    + destruct (Ascii.eqb a b) eqn:E.
      * apply Ascii.eqb_eq in E as ->. rewrite IH. split.
        -- intros [t ->]. by exists t.
        -- intros [t Ht]. rewrite app_cons in Ht. injection Ht as ->. by exists t.
      * apply Ascii.eqb_neq in E. split; [done|].
        intros [t Ht]. rewrite app_cons in Ht. by injection Ht as ->.
Qed.

Lemma endswith_spec s p : Py.endswith s p = true <-> exists pre, s = pre +:+ p.
Proof.
  induction s as [|a s IH]; cbn [Py.endswith].
  - destruct (String.eqb_spec EmptyString p) as [<-|Hne].
    + split; [intros _; by exists EmptyString | done].
    + split; [done|]. intros [pre Hp]. destruct pre; [done|].
      rewrite app_cons in Hp. discriminate.
  - destruct (String.eqb_spec (String a s) p) as [<-|Hne].
    + split; [intros _; by exists EmptyString | done].
    + rewrite IH. split.
      * intros [pre ->]. by exists (String a pre).
      * intros [pre Hp]. destruct pre as [|b pre]; [done|].
        rewrite app_cons in Hp. injection Hp as -> ->. by exists pre.
Qed.

Lemma endswith_false s p : Py.endswith s p = false <-> ~ exists pre, s = pre +:+ p.
Proof. rewrite <- endswith_spec. destruct (Py.endswith s p); split; congruence. Qed.

Lemma contains_spec p s : Py.contains p s = true <-> exists a b, s = a +:+ p +:+ b.
Proof.
  induction s as [|c s IH]; cbn [Py.contains].
  - destruct (Py.startswith EmptyString p) eqn:E.
    + apply startswith_spec in E as [t Ht]. split; [|done].
      intros _. by exists EmptyString, t.
    + split; [done|]. intros [a [b H]].
      destruct a; [|rewrite app_cons in H; discriminate].
      assert (Py.startswith EmptyString p = true) by (apply startswith_spec; by exists b).
      congruence.
  - destruct (Py.startswith (String c s) p) eqn:E.
    + apply startswith_spec in E as [t Ht]. split; [|done].
      intros _. by exists EmptyString, t.
    + rewrite IH. split.
      * intros [a [b ->]]. by exists (String c a), b.
      * intros [a [b H]]. destruct a as [|d a].
        -- assert (Py.startswith (String c s) p = true)
             by (apply startswith_spec; by exists b).
           congruence.
        -- rewrite app_cons in H. injection H as -> ->. by exists a, b.
Qed.

(** Replacing by something longer never shortens, whatever is skipped... *)
Lemma replace_from_length old new skip s :
  (1 <= String.length old <= String.length new)%nat ->
  (String.length s <= String.length (Py.replace_from old new skip s) + skip)%nat.
Proof.
  intros Hlen. revert skip. induction s as [|c s IH]; intros skip; [simpl; lia|].
  cbn [Py.replace_from]. destruct skip as [|k].
  - destruct (Py.startswith (String c s) old).
    + rewrite app_length. specialize (IH (Nat.pred (String.length old))). simpl. lia.
    + specialize (IH O). simpl. lia.
  - specialize (IH k). simpl. lia.
Qed.

(** ... and lengthens a string in which [old] occurs. *)
Lemma replace_grows old new s :
  (1 <= String.length old <= String.length new)%nat ->
  Py.contains old s = true ->
  (String.length s + (String.length new - String.length old)
   <= String.length (Py.replace s old new))%nat.
Proof.
  intros Hlen. unfold Py.replace. induction s as [|c s IH]; cbn [Py.contains Py.replace_from].
  - destruct old; [simpl in Hlen; lia | done].
  - destruct (Py.startswith (String c s) old).
    + intros _. rewrite app_length.
      pose proof (replace_from_length old new (Nat.pred (String.length old)) s Hlen).
      simpl. lia.
    + intros H. specialize (IH H). simpl. lia.
Qed.

(** The lock file of [close] is never the known-hosts file itself. *)
Lemma lockfile_differs kf :
  Py.contains "known_hosts" kf = true ->
  Py.replace kf "known_hosts" ".known_hosts.lock" <> kf.
Proof.
  intros H Heq.
  pose proof (replace_grows "known_hosts" ".known_hosts.lock" kf) as Hg.
  rewrite Heq in Hg. simpl in Hg. specialize (Hg ltac:(lia) H). lia.
Qed.

Lemma known_hosts_path env :
  expanduser env "~/.ssh/known_hosts" = home env +:+ "/.ssh/known_hosts".
Proof. reflexivity. Qed.

Lemma known_hosts_contains env :
  Py.contains "known_hosts" (expanduser env "~/.ssh/known_hosts") = true.
Proof.
  apply contains_spec. exists (home env +:+ "/.ssh/"), EmptyString.
  rewrite known_hosts_path, app_assoc. reflexivity.
Qed.

End StringFacts.

(** ** Rules for reasoning about methods *)

Section Wp.

Context {S : Type}.
Implicit Types (st : S) (e : exn).

Lemma wp_run {A} (m : M S A) Q E st :
  wp m Q E st -> forall r st', m st = (r, st') ->
  match r with Ok a => Q a st' | Raise e => E e st' end.
Proof. unfold wp. intros H r st' Hm. by rewrite Hm in H. Qed.

Lemma wp_mono {A} (m : M S A) (Q Q' : A -> S -> Prop) (E E' : exn -> S -> Prop) st :
  wp m Q E st ->
  (forall a st', Q a st' -> Q' a st') ->
  (forall e st', E e st' -> E' e st') ->
  wp m Q' E' st.
Proof. unfold wp. destruct (m st) as [[a|e] st']; auto. Qed.

Lemma wp_ret {A} (a : A) Q E st : Q a st -> wp (ret a) Q E st.
Proof. done. Qed.

Lemma wp_raise {A} e (Q : A -> S -> Prop) E st : E e st -> wp (raise e) Q E st.
Proof. done. Qed.

Lemma wp_bind {A B} (m : M S A) (k : A -> M S B) Q E st :
  wp m (fun a st' => wp (k a) Q E st') E st -> wp (bind m k) Q E st.
Proof. unfold wp, bind. by destruct (m st) as [[a|e] st']. Qed.

Lemma wp_try_except {A} (m : M S A) (h : exn -> M S A) Q E st :
  wp m Q (fun e st' => wp (h e) Q E st') st -> wp (try_except m h) Q E st.
Proof. unfold wp, try_except. by destruct (m st) as [[a|e] st']. Qed.

Lemma wp_get Q E st : Q st st -> wp get Q E st.
Proof. done. Qed.

Lemma wp_modify (f : S -> S) Q E st : Q tt (f st) -> wp (modify f) Q E st.
Proof. done. Qed.

(** A loop keeps what each of its rounds keeps, whether it ends or raises. *)
Lemma wp_for {A} (l : list A) (body : A -> M S unit) (I : S -> Prop) st :
  (forall x st', I st' -> wp (body x) (fun _ => I) (fun _ => I) st') ->
  I st -> wp (for_ l body) (fun _ => I) (fun _ => I) st.
Proof.
  intros Hbody. revert st. induction l as [|x l IH]; intros st HI; [done|].
  cbn [for_]. apply wp_bind. eapply wp_mono; [by apply Hbody | | done].
  intros ? st' HI'. by apply IH.
Qed.

Lemma wp_result {A} (m : M S A) st :
  wp m (fun a st' => m st = (Ok a, st')) (fun e st' => m st = (Raise e, st')) st.
Proof. unfold wp. by destruct (m st) as [[a|e] st']. Qed.

Lemma wp_conj {A} (m : M S A) (Q1 Q2 : A -> S -> Prop) (E1 E2 : exn -> S -> Prop) st :
  wp m Q1 E1 st -> wp m Q2 E2 st ->
  wp m (fun a st' => Q1 a st' /\ Q2 a st') (fun e st' => E1 e st' /\ E2 e st') st.
Proof. unfold wp. by destruct (m st) as [[a|e] st']. Qed.

End Wp.

Lemma wp_self Q E (st : St) : Q (fst st) st -> wp self Q E st.
Proof. done. Qed.

Lemma wp_process Q E (st : St) : Q (snd st) st -> wp process Q E st.
Proof. done. Qed.

Lemma wp_set_self f Q E (st : St) : Q tt (f (fst st), snd st) -> wp (set_self f) Q E st.
Proof. done. Qed.

Lemma wp_update_process f Q E (st : St) :
  Q tt (fst st, f (snd st)) -> wp (update_process f) Q E st.
Proof. done. Qed.

(** One step of symbolic execution: a rule for the construct at the head, or
    the definition of the primitive operation found there. *)
Ltac wp_step :=
  lazymatch goal with
  | |- wp (bind _ _) _ _ _ => apply wp_bind
  | |- wp (ret _) _ _ _ => apply wp_ret
  | |- wp (raise _) _ _ _ => apply wp_raise
  | |- wp (try_except _ _) _ _ _ => apply wp_try_except
  | |- wp self _ _ _ => apply wp_self
  | |- wp process _ _ _ => apply wp_process
  | |- wp (set_self _) _ _ _ => apply wp_set_self
  | |- wp (update_process _) _ _ _ => apply wp_update_process
  | |- wp get _ _ _ => apply wp_get
  | |- wp (modify _) _ _ _ => apply wp_modify
  | |- wp (if ?b then _ else _) _ _ _ => destruct b eqn:?
  | |- wp (match ?x with _ => _ end) _ _ _ => destruct x eqn:?
  | |- wp (attr _ _) _ _ _ => unfold attr at 1
  | |- wp (own_attr _ _) _ _ _ => unfold own_attr at 1
  | |- wp (ssh_object _) _ _ _ => unfold ssh_object at 1
  | |- wp _cache_key _ _ _ => unfold _cache_key at 1
  | |- wp (sftp_close _) _ _ _ => unfold sftp_close at 1
  | |- wp (ssh_close _) _ _ _ => unfold ssh_close at 1
  | |- wp (flock_EX _ _) _ _ _ => unfold flock_EX at 1
  | |- wp (flock_UN _) _ _ _ => unfold flock_UN at 1
  | |- wp (print_exc _) _ _ _ => unfold print_exc at 1
  | |- wp (open_w _ _) _ _ _ => unfold open_w at 1
  | |- wp (f_write _ _ _) _ _ _ => unfold f_write at 1
  | |- wp (f_close _ _) _ _ _ => unfold f_close at 1
  | |- wp (os_path_exists _) _ _ _ => unfold os_path_exists at 1
  | |- wp (os_makedirs _ _) _ _ _ => unfold os_makedirs at 1
  | |- wp (load_system_host_keys _ _) _ _ _ => unfold load_system_host_keys at 1
  | |- wp new_SSHClient _ _ _ => unfold new_SSHClient at 1
  | |- wp (open_sftp _ _) _ _ _ => unfold open_sftp at 1
  | |- wp (sftp_put _ _ _ _) _ _ _ => unfold sftp_put at 1
  | |- wp (sftp_get _ _ _ _) _ _ _ => unfold sftp_get at 1
  end; cbn [fst snd].

Ltac wp_go := repeat wp_step.

(** The same, stopping in front of a [try] block. *)
Ltac wp_to_try :=
  repeat (lazymatch goal with
          | |- wp (try_except _ _) _ _ _ => fail
          | _ => wp_step
          end).

(** ** Writing the host keys *)

Section Save.

Lemma join_app l1 l2 : join (l1 ++ l2) = join l1 +:+ join l2.
Proof.
  induction l1 as [|s l1 IH]; [done|]. simpl. by rewrite IH, app_assoc.
Qed.

Lemma append_file_empty f w : append_file f EmptyString w = w.
Proof.
  destruct w. unfold append_file, set_files. simpl. f_equal.
  apply map_eq. intros i. rewrite lookup_alter. case_decide; [|done].
  subst. destruct (_ !! _); simpl; [|done]. by rewrite app_empty_r.
Qed.

Lemma append_file_app f s1 s2 w :
  append_file f s2 (append_file f s1 w) = append_file f (s1 +:+ s2) w.
Proof.
  destruct w. unfold append_file, set_files. simpl. f_equal.
  apply map_eq. intros i. rewrite !lookup_alter. repeat case_decide; try done.
  destruct (_ !! _); simpl; [|done]. by rewrite app_assoc.
Qed.

Lemma f_write_ok env f s c w :
  (forall written data, write_denied env written data = false) ->
  f_write env f s (c, w) = (Ok tt, (c, append_file f s w)).
Proof.
  intros H. unfold f_write, process, bind, ret. cbn [fst snd]. by rewrite H.
Qed.

Lemma for_app {A} (l1 l2 : list A) (body : A -> M St unit) st :
  for_ (l1 ++ l2) body st = (for_ l1 body >> for_ l2 body) st.
Proof.
  revert st. induction l1 as [|x l1 IH]; intros st.
  - reflexivity.
  - cbn [app for_]. unfold bind in *. destruct (body x st) as [[[]|e] st1]; [|done].
    apply IH.
Qed.

(** The loop over the keys of one host writes the lines of its entries that
    carry the tag asked for, one after the other. *)
Lemma write_keys_lines env f tagged hostname keys st :
  for_ keys (fun '(keytype, key) =>
    if Bool.eqb (_added_by_ansible_this_time key) tagged
    then f_write env f (host_key_line hostname keytype key)
    else ret tt) st
  = for_ (lines_of tagged (map (fun '(keytype, key) => (hostname, keytype, key)) keys))
      (f_write env f) st.
Proof.
  revert st. induction keys as [|[kt key] keys IH]; intros st; [done|].
  cbn [for_ map]. unfold lines_of. rewrite filter_cons.
  case_decide as Htag; unfold added in Htag; cbn [snd] in Htag.
  - apply Bool.eqb_true_iff in Htag. rewrite Htag, fmap_cons. cbn [for_].
    unfold bind. unfold entry_line at 1. cbn [fst snd].
    destruct (f_write env f (host_key_line hostname kt key) st) as [[[]|e] st1]; [|done].
    apply IH.
  - apply Bool.eqb_false_iff in Htag. rewrite Htag. unfold bind, ret at 1. apply IH.
Qed.

Lemma write_entries_lines env f tagged hk st :
  write_entries env f tagged hk st
  = for_ (lines_of tagged (HostKeys.entries hk)) (f_write env f) st.
Proof.
  unfold write_entries, HostKeys.entries. revert st.
  induction (HostKeys.iteritems hk) as [|[hostname keys] items IH]; intros st; [done|].
  cbn [for_ map concat]. unfold lines_of. rewrite filter_app, fmap_app, for_app.
  unfold bind. rewrite write_keys_lines. unfold lines_of.
  destruct (for_ _ (f_write env f) st) as [[[]|e] st1]; [|done].
  apply IH.
Qed.

Lemma write_lines_ok env f lines c w :
  (forall written data, write_denied env written data = false) ->
  for_ lines (f_write env f) (c, w) = (Ok tt, (c, append_file f (join lines) w)).
Proof.
  intros Hw. revert w. induction lines as [|l lines IH]; intros w.
  - simpl. by rewrite append_file_empty.
  - cbn [for_ join foldr]. unfold bind. rewrite f_write_ok by done. rewrite IH.
    by rewrite append_file_app.
Qed.

Lemma write_entries_ok env f tagged hk c w :
  (forall written data, write_denied env written data = false) ->
  write_entries env f tagged hk (c, w)
  = (Ok tt, (c, append_file f (join (lines_of tagged (HostKeys.entries hk))) w)).
Proof. intros Hw. rewrite write_entries_lines. by apply write_lines_ok. Qed.

Lemma any_added_keys_spec keys acc :
  any_added_keys keys acc
  = existsb (fun kk => _added_by_ansible_this_time (snd kk)) keys || acc.
Proof.
  induction keys as [|[kt key] keys IH]; [done|]. simpl.
  destruct (_added_by_ansible_this_time key); [done|]. by rewrite IH.
Qed.

Lemma any_added_fold (items : list (string * list (string * PKey))) acc :
  fold_left (fun added_any '(_, keys) => any_added_keys keys added_any) items acc
  = acc || existsb added
             (concat (map (fun '(hostname, keys) =>
                             map (fun '(keytype, key) => (hostname, keytype, key)) keys)
                        items)).
Proof.
  revert acc. induction items as [|[h keys] items IH]; intros acc.
  - simpl. by rewrite orb_false_r.
  - cbn [fold_left]. rewrite IH, any_added_keys_spec.
    cbn [map concat]. rewrite existsb_app.
    assert (existsb added (map (fun '(keytype, key) => (h, keytype, key)) keys)
            = existsb (fun kk => _added_by_ansible_this_time (snd kk)) keys) as ->.
    { clear. induction keys as [|[kt key] keys IH]; [done|]. simpl. by rewrite IH. }
    destruct (existsb _ keys), acc; done.
Qed.

(** The first loop finds a tagged key exactly when there is one. *)
Lemma any_added_spec hk :
  any_added hk = true <-> newly_accepted hk <> [].
Proof.
  unfold any_added, newly_accepted. rewrite any_added_fold. simpl.
  fold (HostKeys.entries hk).
  rewrite existsb_exists. split.
  - intros [e [Hin He]] Hnil.
    assert (e ∈ filter (fun e => added e = true) (HostKeys.entries hk)) as Hf.
    { apply list_elem_of_filter. split; [done|]. by apply list_elem_of_In. }
    rewrite Hnil in Hf. by apply elem_of_nil in Hf.
  - intros Hne. destruct (filter _ _) as [|e l] eqn:Hf; [done|].
    assert (e ∈ filter (fun e => added e = true) (HostKeys.entries hk)) as He.
    { rewrite Hf. apply list_elem_of_here. }
    apply list_elem_of_filter in He as [He Hin]. exists e. split; [|done].
    by apply list_elem_of_In.
Qed.

Lemma any_added_untagged hk : untagged hk -> any_added hk = false.
Proof.
  intros Hu. destruct (any_added hk) eqn:E; [|done].
  apply any_added_spec in E. exfalso. apply E. unfold newly_accepted.
  destruct (filter _ _) as [|e l] eqn:Hf; [done|].
  assert (e ∈ filter (fun e => added e = true) (HostKeys.entries hk)) as He.
  { rewrite Hf. apply list_elem_of_here. }
  apply list_elem_of_filter in He as [He Hin].
  unfold untagged in Hu. rewrite Forall_forall in Hu. apply Hu in Hin. congruence.
Qed.

Lemma entry_line_newline e : exists body, entry_line e = body +:+ "
".
Proof.
  destruct e as [[h kt] k]. unfold entry_line, host_key_line. cbn [fst snd].
  exists (h +:+ " " +:+ kt +:+ " " +:+ get_base64 k).
  by rewrite !app_assoc.
Qed.

(** [_save_ssh_host_keys] when a key is tagged and nothing fails: the file is
    rewritten with the lines of the untagged entries, then those of the
    tagged ones. *)
Lemma save_tagged_run env filename c w a o :
  ssh c = Some a ->
  ssh_objects w !! a = Some o ->
  newly_accepted (_host_keys o) <> [] ->
  makedirs_denied env = false ->
  open_denied env filename = false ->
  (forall written data, write_denied env written data = false) ->
  close_denied env = false ->
  exists w',
    _save_ssh_host_keys env filename (c, w) = (Ok tt, (c, w'))
    /\ files w'
       = <[filename := join (entry_line <$> pre_existing (_host_keys o))
                       +:+ join (entry_line <$> newly_accepted (_host_keys o))]> (files w)
    /\ ssh_objects w' = ssh_objects w
    /\ flocks w' = flocks w
    /\ stderr w' = stderr w.
Proof.
  intros Hssh Hobj Hnew Hmk Hopen Hwrite Hclose. apply any_added_spec in Hnew.
  unfold _save_ssh_host_keys, attr, ssh_object, self, process, os_path_exists,
    os_makedirs, open_w, f_close.
  unfold bind at 1. unfold bind at 1. cbn [fst snd]. rewrite Hssh.
  unfold ret at 1. unfold bind at 1. unfold bind at 1. cbn [fst snd]. rewrite Hobj.
  unfold ret at 1. rewrite Hnew. cbn [negb]. rewrite Hmk, Hopen, Hclose.
  unfold bind, process, ret, update_process, modify. cbn [fst snd].
  destruct (bool_decide _ || bool_decide _); cbn [negb fst snd];
    rewrite !write_entries_ok by done; rewrite append_file_app;
    (eexists; split; [reflexivity|]);
    unfold append_file, set_files, set_dirs; cbn [files ssh_objects flocks stderr];
    (split; [|done]);
    apply map_eq; intros p; rewrite lookup_alter; case_decide as Hp.
  all: try (subst p; by rewrite !lookup_insert_eq).
  all: by rewrite !lookup_insert_ne.
Qed.

(** C1, as the code has it. When the collection of host keys holds a key
    tagged as accepted during the session, and nothing fails on the way,
    [_save_ssh_host_keys] leaves in the file the entries that are not
    tagged, in the order in which the collection yields them and each as
    ["host keytype base64\n"], followed by one line for each tagged entry;
    the other files are untouched. *)
Theorem save_appends_newly_accepted_keys
    (env : Env) (filename : string) (c : Connection) (w : Process)
    (a : nat) (o : SSHClient) :
  ssh c = Some a ->
  ssh_objects w !! a = Some o ->
  newly_accepted (_host_keys o) <> [] ->
  open_denied env filename = false ->
  (forall written data, write_denied env written data = false) ->
  close_denied env = false ->
  makedirs_denied env = false ->
  let old_lines := entry_line <$> pre_existing (_host_keys o) in
  let new_lines := entry_line <$> newly_accepted (_host_keys o) in
  exists w',
    _save_ssh_host_keys env filename (c, w) = (Ok tt, (c, w'))
    /\ files w' !! filename = Some (join (old_lines ++ new_lines))
    /\ length new_lines = length (newly_accepted (_host_keys o))
    /\ Forall (fun l => exists body, l = body +:+ "
") (old_lines ++ new_lines)
    /\ (forall p, p <> filename -> files w' !! p = files w !! p).
Proof.
  intros Hssh Hobj Hnew Hopen Hwrite Hclose Hmk old_lines new_lines.
  destruct (save_tagged_run env filename c w a o Hssh Hobj Hnew Hmk Hopen Hwrite Hclose)
    as (w' & Hrun & Hfiles & _).
  exists w'. split; [exact Hrun|]. split; [|split; [|split]].
  - by rewrite Hfiles, lookup_insert_eq, join_app.
  - apply length_fmap.
  - apply Forall_forall. intros l Hl. apply elem_of_app in Hl as [Hl|Hl];
      apply list_elem_of_fmap in Hl as [e [-> _]]; apply entry_line_newline.
  - intros p Hp. by rewrite Hfiles, lookup_insert_ne.
Qed.

End Save.

(** ** Tags are set by the policy only *)

Section Untagged.

Lemma keys_fold (hk : HostKeys) (acc : list string) (h : string) :
  h ∈ fold_left (fun ret e => if decide (fst e ∈ ret) then ret else ret ++ [fst e]) hk acc
  <-> h ∈ acc \/ exists k, (h, k) ∈ hk.
Proof.
  revert acc. induction hk as [|[h' k'] hk IH]; intros acc; cbn [fold_left fst].
  - split; [by left|]. intros [?|[k Hk]]; [done|]. by apply elem_of_nil in Hk.
  - rewrite IH. case_decide as Hin.
    + split.
      * intros [?|[k Hk]]; [by left|]. right. exists k. by apply list_elem_of_further.
      * intros [?|[k Hk]]; [by left|]. apply elem_of_cons in Hk as [Hk|Hk].
        -- injection Hk as -> ->. by left.
        -- right. by exists k.
    + rewrite elem_of_app, list_elem_of_singleton. split.
      * intros [[?| ->]|[k Hk]]; [by left | |].
        -- right. exists k'. apply list_elem_of_here.
        -- right. exists k. by apply list_elem_of_further.
      * intros [?|[k Hk]]; [by left; left|]. apply elem_of_cons in Hk as [Hk|Hk].
        -- injection Hk as -> ->. left. by right.
        -- right. by exists k.
Qed.

Lemma elem_of_keys hk h : h ∈ HostKeys.keys hk <-> exists k, (h, k) ∈ hk.
Proof.
  unfold HostKeys.keys. rewrite keys_fold. split; [|by right].
  intros [H|H]; [by apply elem_of_nil in H | done].
Qed.

Lemma elem_of_lookup hk h k : k ∈ HostKeys.lookup h hk <-> (h, k) ∈ hk.
Proof.
  unfold HostKeys.lookup. rewrite list_elem_of_fmap. split.
  - intros [[h' k'] [-> Hin]]. apply list_elem_of_filter in Hin as [Hh Hin].
    cbn [fst snd] in *. by subst h'.
  - intros Hin. exists (h, k). split; [done|]. by apply list_elem_of_filter.
Qed.

Lemma getitem_cons t k l :
  HostKeys.getitem t (k :: l)
  = if decide (get_name k = t) then Some k else HostKeys.getitem t l.
Proof. unfold HostKeys.getitem. rewrite filter_cons. by case_decide. Qed.

Lemma getitem_Some t l k :
  HostKeys.getitem t l = Some k -> k ∈ l /\ get_name k = t.
Proof.
  induction l as [|k' l IH]; [done|]. rewrite getitem_cons. case_decide as Hn.
  - intros [= ->]. split; [apply list_elem_of_here | done].
  - intros H. destruct (IH H). split; [by apply list_elem_of_further | done].
Qed.

Lemma getitem_is_Some t l k :
  k ∈ l -> get_name k = t -> is_Some (HostKeys.getitem t l).
Proof.
  induction l as [|k' l IH]; intros Hin Hn; [by apply elem_of_nil in Hin|].
  rewrite getitem_cons. case_decide; [by eexists|].
  apply elem_of_cons in Hin as [->|Hin]; [done | by apply IH].
Qed.

Lemma getitem_app t l1 l2 :
  HostKeys.getitem t (l1 ++ l2)
  = match HostKeys.getitem t l1 with
    | Some k => Some k
    | None => HostKeys.getitem t l2
    end.
Proof.
  induction l1 as [|k l1 IH]; [done|]. cbn [app]. rewrite !getitem_cons.
  by case_decide.
Qed.

Lemma elem_of_sub_items l t k :
  (t, k) ∈ HostKeys.sub_items l <-> HostKeys.getitem t l = Some k.
Proof.
  unfold HostKeys.sub_items. rewrite list_elem_of_omap. split.
  - intros [kt [_ Hget]]. destruct (HostKeys.getitem kt l) as [k0|] eqn:E; [|done].
    cbn in Hget. by injection Hget as -> ->.
  - intros Hget. exists t. rewrite Hget. split; [|done].
    apply getitem_Some in Hget as [Hin <-]. by apply list_elem_of_fmap_2.
Qed.

(** The nested iteration yields an entry for a host and a key type exactly
    when the collection shows a key for them, and it is that key. *)
Lemma elem_of_entries hk h t k :
  (h, t, k) ∈ HostKeys.entries hk <-> shown hk h t = Some k.
Proof.
  unfold HostKeys.entries, HostKeys.iteritems, shown.
  rewrite list_elem_of_In, in_concat. split.
  - intros [group [Hgroup Hin]]. apply in_map_iff in Hgroup as [[h' items] [<- Hitems]].
    apply list_elem_of_In, list_elem_of_fmap in Hitems as [h0 [[= -> ->] _]].
    apply in_map_iff in Hin as [[t' k'] [[= -> -> ->] Hin]].
    by apply list_elem_of_In, elem_of_sub_items in Hin.
  - intros Hget. exists (map (fun '(keytype, key) => (h, keytype, key))
                           (HostKeys.sub_items (HostKeys.lookup h hk))). split.
    + apply in_map_iff. exists (h, HostKeys.sub_items (HostKeys.lookup h hk)).
      split; [done|]. apply list_elem_of_In, list_elem_of_fmap. exists h. split; [done|].
      apply elem_of_keys. apply getitem_Some in Hget as [Hin _].
      exists k. by apply elem_of_lookup.
    + apply in_map_iff. exists (t, k). split; [done|].
      by apply list_elem_of_In, elem_of_sub_items.
Qed.

Lemma untagged_shown hk :
  untagged hk
  <-> forall h t k, shown hk h t = Some k -> _added_by_ansible_this_time k = false.
Proof.
  unfold untagged. rewrite Forall_forall. split.
  - intros Hu h t k Hs. apply elem_of_entries in Hs. by apply Hu in Hs.
  - intros Hs [[h t] k] Hin. apply elem_of_entries in Hin. by apply Hs in Hin.
Qed.

Lemma shown_name hk h t k : shown hk h t = Some k -> get_name k = t.
Proof. intros H. by apply getitem_Some in H as [_ ?]. Qed.

Lemma shown_nil h t : shown [] h t = None.
Proof. done. Qed.

Lemma shown_cons e hk h t :
  shown (e :: hk) h t = if HostKeys.matches h t e then Some (snd e) else shown hk h t.
Proof.
  unfold shown, HostKeys.lookup, HostKeys.matches, HostKeys.
  destruct (decide (fst e = h)) as [Hh|Hh].
  - rewrite filter_cons_True by done.
    rewrite (bool_decide_eq_true_2 _ Hh), fmap_cons, getitem_cons. cbn [andb].
    case_decide as Hn.
    + by rewrite (bool_decide_eq_true_2 _ Hn).
    + by rewrite (bool_decide_eq_false_2 _ Hn).
  - rewrite filter_cons_False by done. by rewrite (bool_decide_eq_false_2 _ Hh).
Qed.

Lemma shown_app hk1 hk2 h t :
  shown (hk1 ++ hk2) h t
  = match shown hk1 h t with
    | Some k => Some k
    | None => shown hk2 h t
    end.
Proof.
  induction hk1 as [|e hk1 IH]; [done|]. cbn [app]. rewrite !shown_cons.
  by destruct (HostKeys.matches h t e).
Qed.

Lemma matches_spec h t e :
  HostKeys.matches h t e = true <-> fst e = h /\ get_name (snd e) = t.
Proof.
  unfold HostKeys.matches. by rewrite andb_true_iff, !bool_decide_eq_true.
Qed.

Lemma shown_None_matches hk h t :
  shown hk h t = None <-> existsb (HostKeys.matches h t) hk = false.
Proof.
  induction hk as [|e hk IH]; [done|]. rewrite shown_cons. cbn [existsb].
  destruct (HostKeys.matches h t e); [done|]. by rewrite IH.
Qed.

(** Replacing the key of every entry of a host and a key type. *)
Lemma shown_replace hk h t h' t' key :
  get_name key = t' ->
  shown ((fun e => if HostKeys.matches h' t' e then (fst e, key) else e) <$> hk) h t
  = if decide (h = h' /\ t = t')
    then (if existsb (HostKeys.matches h' t') hk then Some key else None)
    else shown hk h t.
Proof.
  intros Hname. induction hk as [|e hk IH].
  - cbn [fmap list_fmap existsb]. rewrite shown_nil. by case_decide.
  - rewrite fmap_cons, !shown_cons, IH. cbn [existsb].
    destruct (decide (h = h' /\ t = t')) as [[-> ->]|Hd].
    + destruct (HostKeys.matches h' t' e) eqn:E'; cbv iota; cbn [orb snd];
        [|by rewrite E'].
      apply matches_spec in E' as [Hh' Ht'].
      assert (HostKeys.matches h' t' (fst e, key) = true) as ->
        by (by apply matches_spec).
      done.
    + assert (forall e', HostKeys.matches h' t' e' = true ->
                         HostKeys.matches h t e' = false) as Hother.
      { intros e' [Hh' Ht']%matches_spec.
        destruct (HostKeys.matches h t e') eqn:E; [|done].
        apply matches_spec in E as [? ?]. destruct Hd. split; congruence. }
      destruct (HostKeys.matches h' t' e) eqn:E'; cbv iota; [|done].
      rewrite (Hother e E'), (Hother (fst e, key)); [done|].
      apply matches_spec in E' as [Hh' Ht']. by apply matches_spec.
Qed.

(** After one round of [__setitem__] the collection shows the key for that
    host and type, and what it showed for every other. *)
Lemma shown_set_key hk h t h' t' key :
  get_name key = t' ->
  shown (HostKeys.set_key h' t' key hk) h t
  = if decide (h = h' /\ t = t') then Some key else shown hk h t.
Proof.
  intros Hname. unfold HostKeys.set_key.
  destruct (existsb (HostKeys.matches h' t') hk) eqn:E.
  - rewrite shown_replace by done. by rewrite E.
  - rewrite shown_app, shown_cons, shown_nil. case_decide as Hd.
    + destruct Hd as [-> ->]. apply shown_None_matches in E. rewrite E.
      assert (HostKeys.matches h' (get_name key) (h', key) = true) as Hm
        by (by apply matches_spec).
      by rewrite Hname in Hm; rewrite Hm.
    + destruct (shown hk h t); [done|].
      destruct (HostKeys.matches h t (h', key)) eqn:Em; [|done].
      apply matches_spec in Em as [? ?]. cbn [fst snd] in *. destruct Hd.
      split; congruence.
Qed.

(** [update] is one round of [__setitem__] for each entry that the nested
    iteration of the other collection yields. *)
Lemma update_entries self other :
  HostKeys.update self other
  = fold_left (fun acc '(h, t, k) => HostKeys.set_key h t k acc)
      (HostKeys.entries other) self.
Proof.
  unfold HostKeys.update, HostKeys.entries. revert self.
  induction (HostKeys.iteritems other) as [|[h items] l IH]; intros self; [done|].
  cbn [fold_left map concat]. rewrite fold_left_app, IH. f_equal.
  unfold HostKeys.setitem. clear. revert self.
  induction items as [|[t k] items IH]; intros self; [done|].
  cbn [fold_left map]. apply IH.
Qed.

(** After [update] the collection shows the keys of the other collection
    wherever that one shows a key, and its own elsewhere. *)
Lemma shown_update self other h t :
  shown (HostKeys.update self other) h t
  = match shown other h t with
    | Some k => Some k
    | None => shown self h t
    end.
Proof.
  rewrite update_entries.
  assert (forall l acc,
            (forall h' t' k', (h', t', k') ∈ l -> shown other h' t' = Some k') ->
            shown (fold_left (fun acc '(h, t, k) => HostKeys.set_key h t k acc) l acc) h t
            = if existsb (fun e => bool_decide (fst (fst e) = h /\ snd (fst e) = t)) l
              then shown other h t else shown acc h t) as Hfold.
  { induction l as [|[[h' t'] k'] l IH]; intros acc Hl; [done|].
    cbn [fold_left existsb fst snd]. rewrite IH
      by (intros ? ? ? ?; apply Hl; by apply list_elem_of_further).
    assert (shown other h' t' = Some k') as Hs by (apply Hl, list_elem_of_here).
    rewrite shown_set_key by (by apply shown_name in Hs).
    destruct (existsb _ l); [by rewrite orb_true_r|]. rewrite orb_false_r.
    case_bool_decide as Hd.
    - destruct Hd as [-> ->]. by rewrite decide_True.
    - rewrite decide_False; [done|]. intros [-> ->]. by apply Hd. }
  rewrite Hfold by (intros ? ? ?; apply elem_of_entries).
  destruct (existsb _ (HostKeys.entries other)) eqn:E.
  - destruct (shown other h t) as [k|] eqn:Hs; [done|]. exfalso.
    apply existsb_exists in E as [[[h' t'] k'] [Hin Hd]].
    apply bool_decide_eq_true in Hd as [Hh Ht]. cbn [fst snd] in *. subst h' t'.
    apply list_elem_of_In, elem_of_entries in Hin. congruence.
  - destruct (shown other h t) as [k|] eqn:Hs; [|done].
    apply elem_of_entries in Hs. exfalso.
    assert (existsb (fun e => bool_decide (fst (fst e) = h /\ snd (fst e) = t))
              (HostKeys.entries other) = true) as E'.
    { apply existsb_exists. exists (h, t, k). split; [by apply list_elem_of_In|].
      by apply bool_decide_eq_true. }
    congruence.
Qed.

(** After [load] the collection shows what it showed and, for a host and a
    key type for which it showed nothing, the key of the first line that the
    file has for them. *)
Lemma shown_load es hk h t :
  shown (HostKeys.load es hk) h t
  = match shown hk h t with
    | Some k => Some k
    | None => shown (HostKeys.parsed <$> es) h t
    end.
Proof.
  unfold HostKeys.load. revert hk.
  induction es as [|e es IH]; intros hk.
  - cbn [fold_left fmap list_fmap]. rewrite shown_nil. by destruct (shown hk h t).
  - cbn [fold_left]. rewrite fmap_cons, shown_cons.
    destruct (HostKeys.parsed e) as [h0 k0] eqn:He. cbn [snd].
    destruct (HostKeys.check h0 k0 hk) eqn:Hcheck.
    + rewrite IH. destruct (shown hk h t) as [k|] eqn:Hs; [done|].
      destruct (HostKeys.matches h t (h0, k0)) eqn:Hm; [|done].
      apply matches_spec in Hm as [Hh Ht]. cbn [fst snd] in *. subst h t.
      unfold HostKeys.check in Hcheck. fold (shown hk h0 (get_name k0)) in Hcheck.
      by rewrite Hs in Hcheck.
    + rewrite IH, shown_app, shown_cons, shown_nil. cbn [snd].
      by destruct (shown hk h t), (HostKeys.matches h t (h0, k0)).
Qed.

Lemma entries_singleton h k : HostKeys.entries [(h, k)] = [(h, get_name k, k)].
Proof.
  unfold HostKeys.entries, HostKeys.iteritems, HostKeys.keys, HostKeys.lookup, HostKeys.
  cbn [fold_left fst]. rewrite decide_False by apply not_elem_of_nil.
  cbn [app fmap list_fmap map concat]. rewrite filter_cons_True by done.
  rewrite filter_nil. cbn [fmap list_fmap].
  unfold HostKeys.sub_items. cbn [fmap list_fmap omap list_omap].
  rewrite getitem_cons, decide_True by done. reflexivity.
Qed.

Lemma untagged_nil : untagged [].
Proof. apply Forall_nil_2. Qed.

Lemma load_untagged es hk : untagged hk -> untagged (HostKeys.load es hk).
Proof.
  unfold HostKeys.load. revert hk.
  induction es as [|[[h kt] b64] es IH]; intros hk Hu; [done|].
  cbn [fold_left HostKeys.parsed]. apply IH.
  destruct (HostKeys.check _ _ hk); [done|].
  apply untagged_shown. intros h' t' k'. rewrite shown_app, shown_cons, shown_nil.
  destruct (shown hk h' t') as [k0|] eqn:Hs.
  - intros [= <-]. by apply (proj1 (untagged_shown hk) Hu h' t').
  - destruct (HostKeys.matches _ _ _); [|done]. by intros [= <-].
Qed.

Lemma update_untagged hk other :
  untagged hk -> untagged other -> untagged (HostKeys.update hk other).
Proof.
  intros Hu Ho. apply untagged_shown. intros h t k. rewrite shown_update.
  destruct (shown other h t) as [k0|] eqn:Hs.
  - intros [= <-]. by apply (proj1 (untagged_shown other) Ho h t).
  - by apply (proj1 (untagged_shown hk) Hu h t).
Qed.

(** Without a tagged key, [_save_ssh_host_keys] changes nothing at all. *)
Lemma save_untagged_noop env filename c w :
  (forall a o, ssh c = Some a -> ssh_objects w !! a = Some o -> untagged (_host_keys o)) ->
  snd (_save_ssh_host_keys env filename (c, w)) = (c, w).
Proof.
  intros Hu. unfold _save_ssh_host_keys, attr, ssh_object, self, process.
  unfold bind at 1. unfold bind at 1. cbn [fst snd].
  destruct (ssh c) as [a|] eqn:Hssh; [|done].
  unfold ret at 1. unfold bind at 1. unfold bind at 1. cbn [fst snd].
  destruct (ssh_objects w !! a) as [o|] eqn:Hobj; [|done].
  unfold ret at 1. rewrite any_added_untagged by eauto. done.
Qed.

End Untagged.

(** ** Closing without a new key *)

Section TrustFileFrame.

Variables (env : Env) (c : Connection) (v : option string).

Lemma trust_inv_frame c' w w' :
  files w' = files w -> ssh_objects w' = ssh_objects w ->
  trust_inv env c v (c', w) -> trust_inv env c v (c', w').
Proof. unfold trust_inv. cbn [fst snd]. by intros -> ->. Qed.

Lemma trust_inv_open c' w p :
  p <> expanduser env "~/.ssh/known_hosts" ->
  trust_inv env c v (c', w) ->
  trust_inv env c v (c', set_files (insert p EmptyString) w).
Proof.
  unfold trust_inv. cbn [fst snd set_files files ssh_objects].
  intros Hp (? & ? & ?). by rewrite lookup_insert_ne.
Qed.

Lemma trust_inv_alter c' w a (g : SSHClient -> SSHClient) :
  (forall o, untagged (_host_keys o) /\ untagged (_system_host_keys o) ->
             untagged (_host_keys (g o)) /\ untagged (_system_host_keys (g o))) ->
  trust_inv env c v (c', w) ->
  trust_inv env c v (c', set_ssh_objects (alter g a) w).
Proof.
  unfold trust_inv. cbn [fst snd set_ssh_objects files ssh_objects].
  intros Hg (? & ? & Hu). split; [done|]. split; [done|].
  intros a' o' Hssh Hlook. destruct (decide (a = a')) as [<-|Hne].
  - rewrite list_lookup_alter_eq in Hlook.
    destruct (ssh_objects w !! a) as [o|] eqn:Ho; [|done].
    injection Hlook as <-. eauto.
  - rewrite list_lookup_alter_ne in Hlook by done. eauto.
Qed.

Lemma trust_inv_closed (o : SSHClient) :
  untagged (_host_keys o) /\ untagged (_system_host_keys o) ->
  untagged (_host_keys (with_ssh_closed o))
  /\ untagged (_system_host_keys (with_ssh_closed o)).
Proof. done. Qed.

Lemma trust_inv_loaded es (o : SSHClient) :
  untagged (_host_keys o) /\ untagged (_system_host_keys o) ->
  untagged (_host_keys (with_system_host_keys (HostKeys.load es) o))
  /\ untagged (_system_host_keys (with_system_host_keys (HostKeys.load es) o)).
Proof. intros [? ?]. split; [done|]. by apply load_untagged. Qed.

Lemma trust_inv_updated other (o : SSHClient) :
  untagged other ->
  untagged (_host_keys o) /\ untagged (_system_host_keys o) ->
  untagged (_host_keys (with_host_keys (fun hk => HostKeys.update hk other) o))
  /\ untagged (_system_host_keys (with_host_keys (fun hk => HostKeys.update hk other) o)).
Proof. intros ? [? ?]. split; [|done]. by apply update_untagged. Qed.

(** Peels the outermost update off the state of a goal [trust_inv _ _ _ _]. *)
Ltac inv_peel :=
  lazymatch goal with
  | |- trust_inv _ _ _ (_, set_flocks _ ?w) =>
      apply (trust_inv_frame _ w); [reflexivity | reflexivity | ]
  | |- trust_inv _ _ _ (_, set_stderr _ ?w) =>
      apply (trust_inv_frame _ w); [reflexivity | reflexivity | ]
  | |- trust_inv _ _ _ (_, set_sftp_objects _ ?w) =>
      apply (trust_inv_frame _ w); [reflexivity | reflexivity | ]
  | |- trust_inv _ _ _ (_, set_sftp_cache _ ?w) =>
      apply (trust_inv_frame _ w); [reflexivity | reflexivity | ]
  | |- trust_inv _ _ _ (_, set_ssh_cache _ ?w) =>
      apply (trust_inv_frame _ w); [reflexivity | reflexivity | ]
  | |- trust_inv _ _ _ (_, set_files (insert _ _) _) =>
      apply trust_inv_open; [ | ]
  | |- trust_inv _ _ _ (_, set_ssh_objects (alter with_ssh_closed _) _) =>
      apply trust_inv_alter; [apply trust_inv_closed | ]
  | |- trust_inv _ _ _ (_, set_ssh_objects (alter (with_system_host_keys _) _) _) =>
      apply trust_inv_alter; [apply trust_inv_loaded | ]
  end.

Lemma save_trust_inv filename st :
  trust_inv env c v st ->
  wp (_save_ssh_host_keys env filename)
     (fun _ => trust_inv env c v) (fun _ => trust_inv env c v) st.
Proof.
  intros HI. destruct st as [c0 w]. assert (c0 = c) as -> by apply HI.
  pose proof (save_untagged_noop env filename c w) as Hnoop.
  unfold wp. destruct (_save_ssh_host_keys env filename (c, w)) as [[[]|e] st'];
    cbn [snd] in Hnoop; rewrite Hnoop; try done;
    intros a o Ha Ho; destruct HI as (_ & _ & Hu); by destruct (Hu a o Ha Ho).
Qed.

Lemma close_trust_inv st :
  (forall kf, keyfile c = Some kf -> kf = expanduser env "~/.ssh/known_hosts") ->
  trust_inv env c v st ->
  wp (close env) (fun _ => trust_inv env c v) (fun _ => trust_inv env c v) st.
Proof.
  intros Hkf HI. destruct st as [c0 w]. assert (c0 = c) as -> by apply HI.
  assert (forall kf, keyfile c = Some kf ->
            lockfile_of kf <> expanduser env "~/.ssh/known_hosts") as Hlock.
  { intros kf Hk. rewrite (Hkf kf Hk). apply lockfile_differs, known_hosts_contains. }
  unfold lockfile_of in Hlock. clear Hkf.
  unfold close. wp_go.
  all: try (repeat inv_peel; by auto).
  all: match goal with
       | Hssh : ssh c = Some ?a, Hobj : ssh_objects ?W !! ?a = Some ?o |- _ =>
           assert (trust_inv env c v (c, W)) as HI2 by (repeat inv_peel; by auto);
           assert (untagged (_system_host_keys o)) as Hsys
             by (destruct HI2 as (_ & _ & Hu); by destruct (Hu a o Hssh Hobj))
       end.
  all: eapply wp_mono;
    [ apply save_trust_inv, trust_inv_alter; [intros o'; by apply trust_inv_updated | exact HI2]
    | intros [] [c1 w1] HI3 | intros e [c1 w1] HI3 ];
    (assert (c1 = c) as -> by apply HI3); wp_go; repeat inv_peel; by auto.
Qed.

End TrustFileFrame.

(** C4. When no host key of the session carries the tag, [close] leaves the
    known-hosts file as it was, whether it returns or raises: the lock file it
    creates is another file, and [_save_ssh_host_keys] returns before opening
    anything. *)
Theorem close_without_new_key_keeps_trust_file (env : Env) (c : Connection)
    (w : Process) (r : result unit) (c' : Connection) (w' : Process) :
  (forall a o, ssh c = Some a -> ssh_objects w !! a = Some o ->
     untagged (_host_keys o) /\ untagged (_system_host_keys o)) ->
  (forall kf, keyfile c = Some kf -> kf = expanduser env "~/.ssh/known_hosts") ->
  close env (c, w) = (r, (c', w')) ->
  files w' !! expanduser env "~/.ssh/known_hosts"
  = files w !! expanduser env "~/.ssh/known_hosts".
Proof.
  intros Hu Hkf Hclose.
  assert (trust_inv env c (files w !! expanduser env "~/.ssh/known_hosts") (c, w)) as HI
    by done.
  pose proof (close_trust_inv env c _ (c, w) Hkf HI) as Hfin.
  unfold wp in Hfin. rewrite Hclose in Hfin.
  destruct r; by destruct Hfin as (_ & ? & _).
Qed.

(** ** What the persistence step touches *)

Section Frames.



Lemma fs_frame_dirs st0 c w f :
  fs_frame st0 (c, w) -> fs_frame st0 (c, set_dirs f w).
Proof. done. Qed.

Lemma write_entries_fs_frame env f tagged hk st0 st :
  fs_frame st0 st ->
  wp (write_entries env f tagged hk) (fun _ => fs_frame st0) (fun _ => fs_frame st0) st.
Proof.
  intros Hst. unfold write_entries. apply wp_for; [|done].
  intros [hostname keys] st1 Hst1. apply wp_for; [|done].
  intros [keytype key] [c2 w2] Hst2. wp_go; done.
Qed.

Lemma save_fs_frame env filename st :
  wp (_save_ssh_host_keys env filename) (fun _ => fs_frame st) (fun _ => fs_frame st) st.
Proof.
  destruct st as [c w]. unfold _save_ssh_host_keys. wp_go; try done.
  all: eapply wp_mono; [apply write_entries_fs_frame; done | | done].
  all: intros ? [c1 w1] H1; cbn beta; wp_go.
  all: eapply wp_mono; [apply write_entries_fs_frame; done | | done].
  all: intros ? [c2 w2] H2; cbn beta; by wp_go.
Qed.

Lemma obj_frame_refl st : obj_frame st st.
Proof. by repeat split. Qed.

Lemma fs_obj_frame st0 st1 st :
  obj_frame st0 st1 -> fs_frame st1 st -> obj_frame st0 st.
Proof.
  unfold obj_frame, fs_frame.
  intros (?&?&?&?&?&?&?&?) (?&?&?&Hobj&?&?&?&?). rewrite Hobj.
  repeat split; congruence.
Qed.

(** Whatever the [try] block of [close] does and however it ends, it leaves
    [self], the caches, the locks and the standard error alone; it returns
    only if the known hosts could be read, and an exception raised by that
    reading is the one that comes out. *)
Lemma close_try_body_frame env kf c w a :
  ssh c = Some a ->
  wp (close_try_body env kf)
     (fun _ st' => obj_frame (c, w) st'
                   /\ forall e, system_host_keys_read env <> Raise e)
     (fun e' st' => obj_frame (c, w) st'
                    /\ forall e, system_host_keys_read env = Raise e -> e' = e)
     (c, w).
Proof.
  intros Hssh. unfold close_try_body. wp_go; try congruence.
  - eapply wp_mono; [apply save_fs_frame | |]; cbn beta.
    + intros ? st' Hfs. split; [|done]. eapply fs_obj_frame; [|exact Hfs].
      unfold obj_frame. cbn. rewrite !length_alter. by repeat split.
    + intros e' st' Hfs. split; [|done]. eapply fs_obj_frame; [|exact Hfs].
      unfold obj_frame. cbn. rewrite !length_alter. by repeat split.
  - split; [|done]. unfold obj_frame. cbn. rewrite !length_alter. by repeat split.
  - split; [apply obj_frame_refl | congruence].
Qed.

Lemma close_try_body_obj_frame env kf st :
  wp (close_try_body env kf) (fun _ => obj_frame st) (fun _ => obj_frame st) st.
Proof.
  destruct st as [c w]. destruct (ssh c) as [a|] eqn:Hssh.
  - eapply wp_mono; [exact (close_try_body_frame env kf c w a Hssh) | |];
      by intros ? ? [? _].
  - unfold close_try_body. wp_go; try congruence. apply obj_frame_refl.
Qed.

(** The reading of the known hosts comes first: what it raises is what the
    block raises. *)
Lemma close_try_body_read_raises env kf c w a e :
  ssh c = Some a ->
  system_host_keys_read env = Raise e ->
  fst (close_try_body env kf (c, w)) = Raise e.
Proof.
  intros Hssh Hread. pose proof (close_try_body_frame env kf c w a Hssh) as H.
  unfold wp in H. destruct (close_try_body env kf (c, w)) as [[[]|e'] st'].
  - destruct H as [_ H]. by destruct (H e).
  - destruct H as [_ H]. cbn. f_equal. by apply H.
Qed.

(** With a tagged key in the merged collection and a known-hosts file that
    cannot be opened for writing, the block raises the [IOError] of [open]. *)
Lemma close_try_body_open_denied env kf c w a o es :
  ssh c = Some a ->
  ssh_objects w !! a = Some o ->
  system_host_keys_read env = Ok es ->
  any_added (HostKeys.update (_host_keys o)
               (HostKeys.load es (_system_host_keys o))) = true ->
  makedirs_denied env = false ->
  open_denied env kf = true ->
  fst (close_try_body env kf (c, w)) = Raise (IOError kf).
Proof.
  intros Hssh Hobj Hread Hany Hmk Hopen.
  unfold close_try_body, _save_ssh_host_keys, attr, ssh_object, load_system_host_keys,
    os_path_exists, os_makedirs, open_w, self, process, update_process, modify.
  rewrite Hread, Hmk, Hopen.
  unfold bind, ret, raise. cbn [fst snd]. rewrite Hssh. cbn [fst snd set_ssh_objects ssh_objects].
  rewrite list_lookup_alter_eq, Hobj.
  cbn [fmap option_fmap option_map fst snd set_ssh_objects ssh_objects].
  rewrite Hssh. cbn [fst snd set_ssh_objects ssh_objects].
  rewrite list_lookup_alter_eq, list_lookup_alter_eq, Hobj.
  cbn [fmap option_fmap option_map with_host_keys with_system_host_keys _host_keys
       _system_host_keys].
  rewrite Hany. cbn [negb]. by destruct (negb _).
Qed.

End Frames.

(** ** Closing when the persistence step fails *)

(** Once the lock file is created and locked, whatever the [try] block of
    [close] raises is printed and goes no further: [close] returns, the lock
    is released, the session is closed and the cache entries are gone. [w0] is
    the process as the [try] block finds it. *)
Lemma close_guarded (env : Env) (c : Connection) (w : Process)
    (kf : string) (a : nat) :
  keyfile c = Some kf ->
  ssh c = Some a ->
  is_Some (ssh_objects w !! a) ->
  open_denied env (lockfile_of kf) = false ->
  flock_denied env = false ->
  exists w' w0,
    close env (c, w) = (Ok tt, (c, w'))
    /\ ssh_objects w0 = ssh_objects w
    /\ stderr w' = stderr w ++ printed (fst (close_try_body env kf (c, w0)))
    /\ (lockfile_of kf ∉ flocks w')
    /\ (exists o, ssh_objects w' !! a = Some o /\ ssh_closed o = true)
    /\ SSH_CONNECTION_CACHE w' !! cache_key_of (host c) (user c) = None
    /\ SFTP_CONNECTION_CACHE w' !! cache_key_of (host c) (user c) = None
    /\ (forall e, system_host_keys_read env = Raise e -> stderr w' = stderr w ++ [e])
    /\ (forall o es,
          ssh_objects w !! a = Some o ->
          system_host_keys_read env = Ok es ->
          any_added (HostKeys.update (_host_keys o)
                       (HostKeys.load es (_system_host_keys o))) = true ->
          makedirs_denied env = false ->
          open_denied env kf = true ->
          stderr w' = stderr w ++ [IOError kf]).
Proof.
  intros Hkf Hssh Hobj Hopen Hflock. unfold lockfile_of in *.
  set (post := fun (_ : unit) (st' : St) => fst st' = c /\ exists w0,
    ssh_objects w0 = ssh_objects w
    /\ stderr (snd st') = stderr w ++ printed (fst (close_try_body env kf (c, w0)))
    /\ (Py.replace kf "known_hosts" ".known_hosts.lock" ∉ flocks (snd st'))
    /\ (exists o, ssh_objects (snd st') !! a = Some o /\ ssh_closed o = true)
    /\ SSH_CONNECTION_CACHE (snd st') !! cache_key_of (host c) (user c) = None
    /\ SFTP_CONNECTION_CACHE (snd st') !! cache_key_of (host c) (user c) = None).
  assert (wp (close env) post (fun _ _ => False) (c, w)) as Hwp.
  { unfold close.
    wp_to_try; try congruence.
    all: simplify_eq.
    all: match goal with
         | |- wp (try_except _ _) _ _ (_, ?W0) =>
             apply wp_try_except; eapply wp_mono;
               [ apply wp_conj;
                 [ exact (close_try_body_obj_frame env kf (c, W0))
                 | exact (wp_result (close_try_body env kf) (c, W0)) ]
               | intros ? [c1 w1] [Hframe Hres]
               | intros e [c1 w1] [Hframe Hres] ];
             destruct Hframe as (Hc & Hc1 & Hc2 & Hlen & Hsf & Hfl & Htr & Herr);
             cbn [fst snd] in *; subst c1; wp_go; try congruence; simplify_eq;
             (split; [done|]); exists W0
         end.
    all: cbn [fst snd SSH_CONNECTION_CACHE SFTP_CONNECTION_CACHE ssh_objects sftp_objects
              flocks stderr set_flocks set_files set_sftp_objects set_sftp_cache
              set_ssh_cache set_stderr set_ssh_objects] in *.
    all: rewrite Hres; cbn [fst printed].
    all: split; [done|]; split; [by rewrite Herr, ?app_nil_r|].
    all: split; [apply not_elem_of_difference; right; by apply elem_of_singleton|].
    all: split; [|by rewrite Hc1, Hc2, !lookup_delete_eq].
    all: rewrite list_lookup_alter_eq.
    all: apply lookup_lt_is_Some in Hobj; rewrite <- Hlen in Hobj.
    all: apply lookup_lt_is_Some in Hobj as [o ->]; by eexists. }
  unfold wp in Hwp. destruct (close env (c, w)) as [[[]|e] [c' w']]; [|done].
  destruct Hwp as [Hc (w0 & Hobjs & Herr & Hlock & Hclosed & Hc1 & Hc2)].
  cbn [fst snd] in *. subst c'. exists w', w0.
  repeat (split; [done|]). split.
  - intros e Hread. rewrite Herr. f_equal.
    by rewrite (close_try_body_read_raises env kf c w0 a e).
  - intros o es Ho Hread Hany Hmk Hden. rewrite Herr. f_equal.
    rewrite (close_try_body_open_denied env kf c w0 a o es); try done.
    by rewrite Hobjs.
Qed.

(** ** The cache of sessions *)

Section Cache.

Lemma connect_cached env c w s :
  SSH_CONNECTION_CACHE w !! cache_key_of (host c) (user c) = Some s ->
  connect env (c, w) = (Ok tt, (set_ssh (Some s) c, w)).
Proof.
  intros Hhit. unfold connect, _cache_key, self, process, bind, ret. cbn [fst snd].
  by rewrite Hhit.
Qed.

Lemma save_host_keys_fs_frame env client filename st :
  wp (save_host_keys env client filename) (fun _ => fs_frame st) (fun _ => fs_frame st) st.
Proof.
  destruct st as [c w]. unfold save_host_keys. wp_go; try done.
  eapply wp_mono; [apply (wp_for _ _ (fs_frame (c, w))); [|done] | | done].
  - intros [hostname keys] st1 Hst1. apply wp_for; [|done].
    intros [keytype key] [c2 w2] Hst2. wp_go; done.
  - intros ? [c1 w1] H1. cbn beta. by wp_go.
Qed.

(** What a successful [_connect_uncached] has done, and what a failed one has
    not: the object it returns is new, the caches are as they were. *)
Lemma connect_uncached_spec env c w :
  wp (_connect_uncached env)
     (fun s st' =>
        s = length (ssh_objects w)
        /\ host (fst st') = host c /\ user (fst st') = user c
        /\ length (ssh_objects (snd st')) = S (length (ssh_objects w))
        /\ SSH_CONNECTION_CACHE (snd st') = SSH_CONNECTION_CACHE w
        /\ SFTP_CONNECTION_CACHE (snd st') = SFTP_CONNECTION_CACHE w)
     (fun _ st' =>
        host (fst st') = host c /\ user (fst st') = user c
        /\ SSH_CONNECTION_CACHE (snd st') = SSH_CONNECTION_CACHE w
        /\ SFTP_CONNECTION_CACHE (snd st') = SFTP_CONNECTION_CACHE w)
     (c, w).
Proof.
  unfold _connect_uncached, MyAutoAddPolicy.missing_host_key. wp_go.
  all: cbn [ssh_objects set_ssh_objects SSH_CONNECTION_CACHE SFTP_CONNECTION_CACHE
            host user set_keyfile]; rewrite ?length_alter, ?length_app; cbn [length];
       try (repeat split; done || lia).
  all: exfalso;
    match goal with
    | H : ssh_objects _ !! _ = Some ?o, Hf : _host_keys_filename ?o = Some _ |- _ =>
        cbn [ssh_objects set_ssh_objects] in H;
        rewrite ?list_lookup_alter_eq in H;
        rewrite lookup_app_r, Nat.sub_diag in H by lia;
        cbn in H; injection H as <-; discriminate Hf
    end.
Qed.

(** [connect]: a hit returns the cached object and touches nothing; a miss
    that succeeds returns a new object and registers it; a miss that fails
    registers nothing. *)
Lemma connect_spec env c w :
  wp (connect env)
     (fun _ st' =>
        match SSH_CONNECTION_CACHE w !! cache_key_of (host c) (user c) with
        | Some s => st' = (set_ssh (Some s) c, w)
        | None =>
            ssh (fst st') = Some (length (ssh_objects w))
            /\ length (ssh_objects (snd st')) = S (length (ssh_objects w))
            /\ SSH_CONNECTION_CACHE (snd st')
               = <[cache_key_of (host c) (user c) := length (ssh_objects w)]>
                   (SSH_CONNECTION_CACHE w)
            /\ SFTP_CONNECTION_CACHE (snd st') = SFTP_CONNECTION_CACHE w
        end)
     (fun _ st' =>
        SSH_CONNECTION_CACHE (snd st') = SSH_CONNECTION_CACHE w
        /\ SFTP_CONNECTION_CACHE (snd st') = SFTP_CONNECTION_CACHE w)
     (c, w).
Proof.
  unfold connect. wp_go.
  - done.
  - eapply wp_mono; [apply connect_uncached_spec | |]; cbn beta.
    + intros s [c1 w1] (-> & Hh & Hu & Hlen & Hc1 & Hc2). cbn [fst snd] in *.
      wp_go. cbn. by rewrite Hc1, Hc2.
    + by intros e st' (_ & _ & ? & ?).
Qed.

(** After a [connect] that succeeded, a [connect] under the same cache key
    returns the same object and leaves the process as it is. *)
Lemma connect_twice env1 env2 c1 c2 w c1' w1 :
  cache_key_of (host c2) (user c2) = cache_key_of (host c1) (user c1) ->
  connect env1 (c1, w) = (Ok tt, (c1', w1)) ->
  exists s, ssh c1' = Some s
            /\ SSH_CONNECTION_CACHE w1 !! cache_key_of (host c1) (user c1) = Some s
            /\ connect env2 (c2, w1) = (Ok tt, (set_ssh (Some s) c2, w1)).
Proof.
  intros Hkey Hconn. pose proof (connect_spec env1 c1 w) as Hwp.
  unfold wp in Hwp. rewrite Hconn in Hwp.
  assert (exists s, ssh c1' = Some s
            /\ SSH_CONNECTION_CACHE w1 !! cache_key_of (host c1) (user c1) = Some s)
    as (s & Hs & Hhit).
  { destruct (SSH_CONNECTION_CACHE w !! _) as [s|] eqn:Hc.
    - injection Hwp as -> ->. by exists s.
    - destruct Hwp as (Hs & _ & Hcache & _). cbn [fst snd] in *.
      exists (length (ssh_objects w)). split; [done|].
      rewrite Hcache. apply lookup_insert_eq. }
  exists s. repeat (split; [done|]). apply connect_cached. by rewrite Hkey.
Qed.

(** However [close] ends, the entries of the pair are gone from both caches,
    the other entries are as they were, and no object was created. *)
Lemma close_caches env c w :
  let Q := fun st' : St =>
    SSH_CONNECTION_CACHE (snd st')
    = delete (cache_key_of (host c) (user c)) (SSH_CONNECTION_CACHE w)
    /\ SFTP_CONNECTION_CACHE (snd st')
       = delete (cache_key_of (host c) (user c)) (SFTP_CONNECTION_CACHE w)
    /\ length (ssh_objects (snd st')) = length (ssh_objects w) in
  wp (close env) (fun _ => Q) (fun _ => Q) (c, w).
Proof.
  intros Q. unfold close. wp_to_try; try done.
  all: match goal with
       | |- wp (try_except _ (fun _ => print_exc _)) _ _ (_, ?W0) =>
           change (try_except ?m _)
             with (try_except m (fun e => print_exc e));
           apply wp_try_except; eapply wp_mono;
             [ match goal with
               | |- wp (bind _ (fun _ => bind _ (fun _ => bind _ (fun _ => bind _
                      (fun _ => _save_ssh_host_keys _ ?kf))))) _ _ ?st =>
                   exact (close_try_body_obj_frame env kf st)
               end
             | intros ? [c1 w1] Hframe | intros e [c1 w1] Hframe ];
           destruct Hframe as (Hc & Hc1 & Hc2 & Hlen & _);
           cbn [fst snd SSH_CONNECTION_CACHE SFTP_CONNECTION_CACHE ssh_objects
                set_flocks set_files set_sftp_objects set_sftp_cache set_ssh_cache] in *;
           wp_go; unfold Q;
           cbn [fst snd SSH_CONNECTION_CACHE SFTP_CONNECTION_CACHE ssh_objects
                set_flocks set_stderr set_ssh_objects];
           rewrite ?length_alter; done
       end.
Qed.

End Cache.

(** A failure to create the lock file, or to lock it, happens before the
    [try] block: it reaches the caller, and the session is left open. *)
Lemma close_lock_failure (env : Env) (c : Connection) (w : Process) (kf : string) :
  keyfile c = Some kf ->
  open_denied env (lockfile_of kf) = true
  \/ flock_denied env = true ->
  wp (close env) (fun _ _ => False)
     (fun e st' => e = IOError (lockfile_of kf)
                   /\ ssh_objects (snd st') = ssh_objects w
                   /\ stderr (snd st') = stderr w)
     (c, w).
Proof.
  intros Hkf Hden. unfold lockfile_of in *. unfold close.
  wp_to_try; simplify_eq; try done.
  all: destruct Hden; congruence.
Qed.

(** C5, as the code has it. The [try] block of [close] covers the reading of
    the known hosts, their merge and [_save_ssh_host_keys] (which creates the
    directory, opens the known-hosts file and writes it): an exception raised
    there is printed and goes no further, and [close] goes on to release the
    lock and to close the session. The lock file is created and locked before
    the block: an exception raised there reaches the caller, nothing is
    printed and the session stays open. *)
Theorem close_swallows_guarded_failures (env : Env) (c : Connection) (w : Process)
    (kf : string) (a : nat) :
  keyfile c = Some kf ->
  ssh c = Some a ->
  is_Some (ssh_objects w !! a) ->
  (open_denied env (lockfile_of kf) = false ->
   flock_denied env = false ->
   exists w' w0,
     close env (c, w) = (Ok tt, (c, w'))
     /\ ssh_objects w0 = ssh_objects w
     /\ stderr w' = stderr w ++ printed (fst (close_try_body env kf (c, w0)))
     /\ (lockfile_of kf ∉ flocks w')
     /\ (exists o, ssh_objects w' !! a = Some o /\ ssh_closed o = true)
     /\ (forall e, system_host_keys_read env = Raise e -> stderr w' = stderr w ++ [e])
     /\ (forall o es,
           ssh_objects w !! a = Some o ->
           system_host_keys_read env = Ok es ->
           any_added (HostKeys.update (_host_keys o)
                        (HostKeys.load es (_system_host_keys o))) = true ->
           makedirs_denied env = false ->
           open_denied env kf = true ->
           stderr w' = stderr w ++ [IOError kf]))
  /\ (open_denied env (lockfile_of kf) = true \/ flock_denied env = true ->
      exists c' w',
        close env (c, w) = (Raise (IOError (lockfile_of kf)), (c', w'))
        /\ ssh_objects w' = ssh_objects w
        /\ stderr w' = stderr w).
Proof.
  intros Hkf Hssh Hobj. split.
  - intros Hopen Hflock.
    destruct (close_guarded env c w kf a Hkf Hssh Hobj Hopen Hflock)
      as (w' & w0 & H1 & H2 & H3 & H4 & H5 & _ & _ & H8 & H9).
    exists w', w0. by repeat (split; [done|]).
  - intros Hden. pose proof (close_lock_failure env c w kf Hkf Hden) as Hwp.
    unfold wp in Hwp. destruct (close env (c, w)) as [[[]|e] [c' w']]; [done|].
    destruct Hwp as (-> & ? & ?). by exists c', w'.
Qed.

(** C6, as the code has it. For one pair of host and user: after a [connect]
    that succeeded, another [connect] returns the very same object and does
    nothing else; [close] removes the entries of the pair from both caches
    however it ends, and a [connect] that succeeds after it returns an object
    that did not exist before and registers it; when the entries are already
    absent, [close] leaves the caches as they are, and it returns without an
    error for a Connection that has its [keyfile] and its session and whose
    lock file can be created and locked. *)
Theorem session_cache_acquire_release (env1 env2 : Env) (c1 c2 : Connection)
    (w : Process) :
  host c2 = host c1 ->
  user c2 = user c1 ->
  let key := cache_key_of (host c1) (user c1) in
  (forall c1' w1,
     connect env1 (c1, w) = (Ok tt, (c1', w1)) ->
     exists s, ssh c1' = Some s
               /\ SSH_CONNECTION_CACHE w1 !! key = Some s
               /\ connect env2 (c2, w1) = (Ok tt, (set_ssh (Some s) c2, w1)))
  /\ (forall r c1' w1,
        close env1 (c1, w) = (r, (c1', w1)) ->
        SSH_CONNECTION_CACHE w1 = delete key (SSH_CONNECTION_CACHE w)
        /\ SFTP_CONNECTION_CACHE w1 = delete key (SFTP_CONNECTION_CACHE w)
        /\ forall c2' w2,
             connect env2 (c2, w1) = (Ok tt, (c2', w2)) ->
             ssh c2' = Some (length (ssh_objects w))
             /\ ssh_objects w !! length (ssh_objects w) = None
             /\ length (ssh_objects w2) = S (length (ssh_objects w))
             /\ SSH_CONNECTION_CACHE w2 !! key = Some (length (ssh_objects w)))
  /\ (SSH_CONNECTION_CACHE w !! key = None ->
      SFTP_CONNECTION_CACHE w !! key = None ->
      (forall r c1' w1,
         close env1 (c1, w) = (r, (c1', w1)) ->
         SSH_CONNECTION_CACHE w1 = SSH_CONNECTION_CACHE w
         /\ SFTP_CONNECTION_CACHE w1 = SFTP_CONNECTION_CACHE w)
      /\ (forall kf a,
            keyfile c1 = Some kf -> ssh c1 = Some a -> is_Some (ssh_objects w !! a) ->
            open_denied env1 (lockfile_of kf) = false -> flock_denied env1 = false ->
            exists w1, close env1 (c1, w) = (Ok tt, (c1, w1)))).
Proof.
  intros Hhost Huser key. split; [|split].
  - intros c1' w1 Hconn. apply (connect_twice env1 env2 c1 c2 w c1' w1); [|done].
    by rewrite Hhost, Huser.
  - intros r c1' w1 Hclose. pose proof (close_caches env1 c1 w) as Hwp.
    cbn zeta in Hwp. unfold wp in Hwp. rewrite Hclose in Hwp. fold key in Hwp.
    assert (SSH_CONNECTION_CACHE w1 = delete key (SSH_CONNECTION_CACHE w)
            /\ SFTP_CONNECTION_CACHE w1 = delete key (SFTP_CONNECTION_CACHE w)
            /\ length (ssh_objects w1) = length (ssh_objects w)) as (Hc1 & Hc2 & Hlen)
      by (by destruct r).
    repeat (split; [done|]). intros c2' w2 Hconn.
    pose proof (connect_spec env2 c2 w1) as Hwp2.
    unfold wp in Hwp2. rewrite Hconn, Hhost, Huser in Hwp2. fold key in Hwp2.
    rewrite Hc1, lookup_delete_eq in Hwp2. cbn [fst snd] in Hwp2.
    destruct Hwp2 as (Hs & Hlen2 & Hcache & _). rewrite Hlen in Hs, Hlen2, Hcache.
    repeat split; [done | | done |].
    + apply lookup_ge_None. lia.
    + rewrite Hcache. apply lookup_insert_eq.
  - intros Habs1 Habs2. split.
    + intros r c1' w1 Hclose. pose proof (close_caches env1 c1 w) as Hwp.
      cbn zeta in Hwp. unfold wp in Hwp. rewrite Hclose in Hwp. fold key in Hwp.
      rewrite !delete_id in Hwp by done. by destruct r; destruct Hwp as (? & ? & _).
    + intros kf a Hkf Hssh Hobj Hopen Hflock.
      destruct (close_guarded env1 c1 w kf a Hkf Hssh Hobj Hopen Hflock)
        as (w1 & _ & Hclose & _).
      by exists w1.
Qed.

(** ** File transfer *)

(** [put_file] with a source that exists on a connected session: when
    [open_sftp] succeeds, a channel is opened, whatever the cache holds, and
    the cache is left as it is. *)
Lemma put_file_opens_channel env in_path out_path c w s :
  is_Some (files w !! in_path) ->
  ssh c = Some s ->
  open_sftp_raises env = None ->
  wp (put_file env in_path out_path)
     (fun _ st' =>
        sftp_objects (snd st')
        = sftp_objects w ++ [{| sftp_session := s; sftp_closed := false |}]
        /\ sftp (fst st') = Some (length (sftp_objects w))
        /\ SFTP_CONNECTION_CACHE (snd st') = SFTP_CONNECTION_CACHE w)
     (fun _ st' =>
        sftp_objects (snd st')
        = sftp_objects w ++ [{| sftp_session := s; sftp_closed := false |}]
        /\ SFTP_CONNECTION_CACHE (snd st') = SFTP_CONNECTION_CACHE w)
     (c, w).
Proof.
  intros Hfile Hssh Hopen. unfold put_file. wp_go; simplify_eq; try done.
  all: try (cbn in *; congruence).
  all: match goal with
       | H : _ || bool_decide (is_Some (_ !! _)) = false |- _ =>
           rewrite (bool_decide_eq_true_2 _ Hfile), orb_true_r in H; discriminate H
       | H : negb (_ || bool_decide (is_Some (_ !! _))) = true |- _ =>
           rewrite (bool_decide_eq_true_2 _ Hfile), orb_true_r in H; discriminate H
       end.
Qed.

(** [fetch_file] under a cache key that has a channel: none is opened. *)
Lemma fetch_file_reuses_channel env in_path out_path c w ch :
  SFTP_CONNECTION_CACHE w !! cache_key_of (host c) (user c) = Some ch ->
  wp (fetch_file env in_path out_path)
     (fun _ st' => sftp_objects (snd st') = sftp_objects w
                   /\ sftp (fst st') = Some ch)
     (fun _ st' => sftp_objects (snd st') = sftp_objects w)
     (c, w).
Proof.
  intros Hhit. unfold fetch_file, _connect_sftp. unfold cache_key_of in Hhit.
  wp_go; cbn [fst snd set_sftp sftp sftp_objects set_transfers] in *;
    simplify_eq; try done; congruence.
Qed.

(** C7, where the code departs from it. On the sample session, two calls of
    [put_file] open two file-transfer channels and leave the cache of
    channels empty, while two calls of [fetch_file] open one channel, cache
    it and use it twice. *)
Theorem put_file_opens_a_channel_each_time :
  let st2 := snd (put_file Sample.env "/tmp/module" "/tmp/m2"
                    (snd (put_file Sample.env "/tmp/module" "/tmp/m1" Sample.connected))) in
  let st2' := snd (fetch_file Sample.env "/etc/motd" "/tmp/f2"
                     (snd (fetch_file Sample.env "/etc/motd" "/tmp/f1" Sample.connected))) in
  fst (put_file Sample.env "/tmp/module" "/tmp/m1" Sample.connected) = Ok tt
  /\ length (sftp_objects (snd st2)) = 2%nat
  /\ SFTP_CONNECTION_CACHE (snd st2) = ∅
  /\ transfers (snd st2)
     = [Put 0 "/tmp/module" "/tmp/m1"; Put 1 "/tmp/module" "/tmp/m2"]
  /\ length (sftp_objects (snd st2')) = 1%nat
  /\ SFTP_CONNECTION_CACHE (snd st2') !! "gamma__op__" = Some O
  /\ transfers (snd st2') = [Get 0 "/etc/motd" "/tmp/f1"; Get 0 "/etc/motd" "/tmp/f2"].
Proof. cbn zeta. repeat split; vm_compute; reflexivity. Qed.

(** C8. [put_file] with a local source that does not exist raises
    [AnsibleFileNotFound] and leaves everything as it was: no channel was
    opened and nothing was transferred. *)
Theorem put_file_missing_source (env : Env) (in_path out_path : string)
    (c : Connection) (w : Process) :
  in_path ∉ dirs w ->
  files w !! in_path = None ->
  put_file env in_path out_path (c, w)
  = (Raise (AnsibleFileNotFound ("file or module does not exist: " +:+ in_path)), (c, w)).
Proof.
  intros Hdir Hfile. unfold put_file, os_path_exists, process, bind, ret. cbn [fst snd].
  rewrite (bool_decide_eq_false_2 _ Hdir), Hfile.
  rewrite bool_decide_eq_false_2 by (by intros [? ?]). done.
Qed.

Lemma put_file_missing_source_witness :
  put_file Sample.env "/tmp/absent" "/tmp/m" (Sample.conn, Sample.start)
  = (Raise (AnsibleFileNotFound ("file or module does not exist: " +:+ "/tmp/absent")),
     (Sample.conn, Sample.start)).
Proof.
  apply (put_file_missing_source Sample.env "/tmp/absent" "/tmp/m" Sample.conn Sample.start).
  - intros H. vm_compute in H. discriminate H.
  - vm_compute. reflexivity.
Defined.

(** C10. The cache key does not tell host ["a__b"] with user ["c"] from host
    ["a"] with user ["b__c"]: both give ["a__b__c__"], and a [connect] for
    the second pair after one for the first returns the session of the first. *)
Theorem cache_key_collision :
  ("a__b", "c") <> ("a", "b__c")
  /\ cache_key_of "a__b" "c" = "a__b__c__"
  /\ cache_key_of "a" "b__c" = "a__b__c__"
  /\ (forall env1 env2 r p pw pk w c1' w1,
        connect env1 (__init__ r "a__b" p "c" pw pk, w) = (Ok tt, (c1', w1)) ->
        exists s, ssh c1' = Some s
                  /\ connect env2 (__init__ r "a" p "b__c" pw pk, w1)
                     = (Ok tt, (set_ssh (Some s) (__init__ r "a" p "b__c" pw pk), w1)))
  /\ (let st1 := snd (connect Sample.env
                        (__init__ Sample.the_runner "a__b" 22 "c" None None, Sample.start)) in
      let st2 := snd (connect Sample.env
                        (__init__ Sample.the_runner "a" 22 "b__c" None None, snd st1)) in
      ssh (fst st1) = Some O /\ ssh (fst st2) = Some O
      /\ length (ssh_objects (snd st2)) = 1%nat).
Proof.
  split; [done|]. split; [reflexivity|]. split; [reflexivity|]. split.
  - intros env1 env2 r p pw pk w c1' w1 Hconn.
    destruct (connect_twice env1 env2 (__init__ r "a__b" p "c" pw pk)
                (__init__ r "a" p "b__c" pw pk) w c1' w1 eq_refl Hconn)
      as (s & Hs & _ & H2).
    by exists s.
  - cbn zeta. repeat split; vm_compute; reflexivity.
Qed.

(** ** The prompt scanner *)

Section Scanner.

Lemma await_prompt_unfold prompt out reads :
  await_prompt prompt out reads
  = if Py.endswith out prompt then (PROMPT_SATISFIED out, reads)
    else match reads with
         | [] => (CLOSED_EARLY out, [])
         | TimesOut :: rest => (TIMED_OUT out, rest)
         | Chunk EmptyString :: rest => (CLOSED_EARLY out, rest)
         | Chunk chunk :: rest => await_prompt prompt (out +:+ chunk) rest
         end.
Proof. by destruct reads. Qed.

Lemma ends_with_spec s p : Py.endswith s p = true <-> ends_with s p.
Proof. apply endswith_spec. Qed.

Lemma ends_with_false s p : Py.endswith s p = false <-> ~ ends_with s p.
Proof. apply endswith_false. Qed.

(** The scanner is satisfied exactly when, after some number of reads that
    all brought bytes, the accumulated output ends with the prompt for the
    first time; it has then consumed these reads and no other. *)
Lemma await_prompt_satisfied prompt out reads o rest :
  await_prompt prompt out reads = (PROMPT_SATISFIED o, rest)
  <-> exists chunks,
        reads = (Chunk <$> chunks) ++ rest
        /\ o = out +:+ join chunks
        /\ ends_with o prompt
        /\ forall n, length chunks = S n -> never_prompted_upto n prompt out chunks.
Proof.
  split.
  - revert out. induction reads as [|r reads IH]; intros out;
      rewrite await_prompt_unfold; destruct (Py.endswith out prompt) eqn:Hend.
    + intros [= <- <-]. exists []. cbn. rewrite app_empty_r.
      split; [done|]. split; [done|]. split; [by apply ends_with_spec | done].
    + done.
    + intros [= <- <-]. exists []. cbn. rewrite app_empty_r.
      split; [done|]. split; [done|]. split; [by apply ends_with_spec | done].
    + destruct r as [[|a ch]|]; [done| |done]. intros H.
      destruct (IH _ H) as (chunks & -> & -> & Ho & Hnever).
      exists (String a ch :: chunks). cbn [fmap list_fmap join foldr].
      split; [done|]. split; [by rewrite app_assoc|]. split; [done|].
      intros n Hn. split.
      * injection Hn as Hn. destruct chunks as [|ch2 chunks]; [by repeat constructor|].
        destruct n as [|n]; [done|]. destruct (Hnever n) as [Hne _]; [by injection Hn|].
        by constructor.
      * injection Hn as Hn. intros k Hk. destruct k as [|k].
        -- cbn. rewrite app_empty_r. by apply ends_with_false.
        -- cbn [take join foldr]. rewrite <- app_assoc.
           destruct n as [|n]; [lia|]. destruct (Hnever n) as [_ Hk']; [by rewrite <- Hn|].
           apply Hk'. lia.
  - intros (chunks & -> & -> & Ho & Hnever). revert out Ho Hnever.
    induction chunks as [|ch chunks IH]; intros out Ho Hnever.
    + cbn in *. rewrite app_empty_r in *. apply ends_with_spec in Ho.
      rewrite await_prompt_unfold, Ho. done.
    + destruct (Hnever (length chunks) eq_refl) as [Hne Hk].
      cbn [fmap list_fmap app]. rewrite await_prompt_unfold.
      pose proof (Hk O ltac:(lia)) as H0. cbn in H0. rewrite app_empty_r in H0.
      apply ends_with_false in H0. rewrite H0.
      apply Forall_cons in Hne as [Hch Hne].
      destruct ch as [|a ch]; [done|].
      cbn [join foldr] in *. rewrite <- app_assoc in *. apply IH; [done|].
      intros n Hn. split.
      * by destruct chunks.
      * intros k Hk'. specialize (Hk (S k) ltac:(lia)). cbn [take join foldr] in Hk.
        by rewrite <- app_assoc in Hk.
Qed.

(** When the stream closes (a read of no bytes, or nothing left to read)
    after reads at none of which the output ended with the prompt, the
    scanner ends in CLOSED_EARLY with all that was read. *)
Lemma await_prompt_closed prompt out chunks closing :
  never_prompted_upto (length chunks) prompt out chunks ->
  closing = [] \/ (exists rest, closing = Chunk EmptyString :: rest) ->
  await_prompt prompt out ((Chunk <$> chunks) ++ closing)
  = (CLOSED_EARLY (out +:+ join chunks), tail closing).
Proof.
  revert out. induction chunks as [|ch chunks IH]; intros out [Hne Hk] Hclosing.
  - pose proof (Hk O ltac:(done)) as H0. cbn in H0. rewrite app_empty_r in H0.
    apply ends_with_false in H0. cbn. rewrite app_empty_r, await_prompt_unfold, H0.
    by destruct Hclosing as [->|[rest ->]].
  - pose proof (Hk O ltac:(lia)) as H0. cbn in H0. rewrite app_empty_r in H0.
    apply ends_with_false in H0.
    cbn [fmap list_fmap app]. rewrite await_prompt_unfold, H0.
    apply Forall_cons in Hne as [Hch Hne]. destruct ch as [|a ch]; [done|].
    cbn [join foldr]. rewrite <- app_assoc. apply IH; [|done]. split; [done|].
    intros k Hk'. specialize (Hk (S k) ltac:(cbn; lia)). cbn [take join foldr] in Hk.
    by rewrite <- app_assoc in Hk.
Qed.

End Scanner.

(** ** Running a command with sudo *)

Section ExecFacts.

Variable quote : string -> string.
Variable make_sudo_cmd : string -> option string -> string -> string * string.

Lemma read_to_end_raises reads e rest :
  read_to_end reads = (Raise e, rest) -> e = socket_timeout.
Proof.
  revert rest. induction reads as [|[[|a d]|] reads IH]; intros rest; cbn; try congruence.
  destruct (read_to_end reads) as [[s|e'] rest']; [done|].
  intros [= -> ->]. by eapply IH.
Qed.

Lemma wp_int_getenv env name z (Q : Z -> Channel -> Prop) E ch :
  env_size env name z -> Q z ch -> wp (int_getenv env name) Q E ch.
Proof.
  unfold wp, int_getenv. intros [[-> ->]|(s & -> & ->)]; done.
Qed.

Lemma int_getenv_ok env name z (ch : Channel) :
  env_size env name z -> int_getenv env name ch = (Ok z, ch).
Proof. unfold int_getenv. by intros [[-> ->]|(s & -> & ->)]. Qed.

Lemma wp_int_getenv_invalid env name s (Q : Z -> Channel -> Prop) E ch :
  getenv env name = Some s -> Py.int s = None ->
  E (ValueError s) ch -> wp (int_getenv env name) Q E ch.
Proof. unfold wp, int_getenv. by intros -> ->. Qed.

(** [exec_command] on an open channel, with sudo, a password and a terminal
    size that [int] accepts: the pseudo-terminal and the command are set up,
    then everything depends on how the prompt loop ends. *)
Lemma exec_sudo_spec c env cmd sudo_user executable pass chan width height :
  sudo (runner c) = true ->
  sudo_pass (runner c) = Some pass ->
  pass <> EmptyString ->
  env_size env "COLUMNS" width ->
  env_size env "LINES" height ->
  let shcmd := fst (make_sudo_cmd sudo_user executable cmd) in
  let prompt := snd (make_sudo_cmd sudo_user executable cmd) in
  let started :=
    set_command (Some shcmd)
      (set_pty (Some (default "vt100" (getenv env "TERM"), width, height)) chan) in
  wp (exec_on_channel quote make_sudo_cmd c env cmd sudo_user true executable)
     (fun _ ch' =>
        exists o rest,
          await_prompt prompt EmptyString (incoming chan) = (PROMPT_SATISFIED o, rest)
          /\ sent ch' = sent chan ++ [pass +:+ "
"]
          /\ pty ch' = pty started /\ command ch' = command started)
     (fun e ch' =>
        match await_prompt prompt EmptyString (incoming chan) with
        | (PROMPT_SATISFIED _, _) =>
            e = socket_timeout
            /\ sent ch' = sent chan ++ [pass +:+ "
"]
            /\ pty ch' = pty started /\ command ch' = command started
        | (CLOSED_EARLY o, rest) =>
            ch' = set_incoming rest started
            /\ e = AnsibleError
                     (if Py.contains "unknown user" o
                      then "user " +:+ sudo_user +:+ " does not exist"
                      else "ssh connection closed waiting for password prompt")
        | (TIMED_OUT o, rest) =>
            ch' = set_incoming rest started
            /\ e = AnsibleError ("ssh timed out waiting for sudo.
" +:+ o)
        end)
     chan.
Proof.
  intros Hsudo Hpass Hne Hw Hh shcmd prompt started. subst shcmd prompt started.
  unfold exec_on_channel. rewrite Hsudo, Hpass. cbn [negb orb].
  destruct pass as [|p0 pass]; [done|].
  wp_go. eapply wp_int_getenv; [exact Hw|]. wp_go.
  eapply wp_int_getenv; [exact Hh|]. wp_go.
  all: cbn [incoming sent pty command set_incoming set_sent set_command set_pty
            fst snd] in *.
  all: try match goal with
           | H : read_to_end _ = (Raise _, _) |- _ =>
               apply read_to_end_raises in H as ->
           end.
  all: match goal with
       | H : await_prompt _ _ _ = _ |- _ => rewrite H
       end; try done.
  - by eexists _, _.
  - match goal with H : Py.contains _ _ = _ |- _ => by rewrite H end.
  - match goal with H : Py.contains _ _ = _ |- _ => by rewrite H end.
Qed.

(** With sudo, whatever the password setting and however the call ends, the
    pseudo-terminal was requested with the sizes that [int] read. *)
Lemma exec_pty_spec c env cmd sudo_user executable chan width height :
  sudo (runner c) = true ->
  env_size env "COLUMNS" width ->
  env_size env "LINES" height ->
  let requested := Some (default "vt100" (getenv env "TERM"), width, height) in
  wp (exec_on_channel quote make_sudo_cmd c env cmd sudo_user true executable)
     (fun _ ch' => pty ch' = requested) (fun _ ch' => pty ch' = requested) chan.
Proof.
  intros Hsudo Hw Hh requested. subst requested.
  unfold exec_on_channel. rewrite Hsudo. cbn [negb orb].
  wp_go. eapply wp_int_getenv; [exact Hw|]. wp_go.
  eapply wp_int_getenv; [exact Hh|]. wp_go; done.
Qed.

(** C2. In a run with sudo and a password, the password and a newline are
    written to the channel exactly when, after some reads that all brought
    bytes, the output accumulated so far ends with the prompt (and did not
    after fewer reads); nothing else is ever written. A prompt that only
    occurs inside the accumulated output, or of which only a part has come,
    is no such end: if the stream then closes, nothing is written. *)
Theorem prompt_scanner_sends_secret_exactly_at_prompt
    (c : Connection) (env : Env) (chan : Channel)
    (cmd tmp_path sudo_user : string) (executable : option string)
    (pass : string) (width height : Z) :
  sudo (runner c) = true ->
  sudo_pass (runner c) = Some pass ->
  pass <> EmptyString ->
  env_size env "COLUMNS" width ->
  env_size env "LINES" height ->
  let prompt := snd (make_sudo_cmd sudo_user executable cmd) in
  exists r chan',
    exec_command quote make_sudo_cmd c env (Ok chan) cmd tmp_path sudo_user true executable
    = (r, Some chan')
    /\ (sent chan' = sent chan ++ [pass +:+ "
"]
        <-> exists chunks rest,
              incoming chan = (Chunk <$> chunks) ++ rest
              /\ ends_with (join chunks) prompt
              /\ forall n, length chunks = S n ->
                   never_prompted_upto n prompt EmptyString chunks)
    /\ (sent chan' = sent chan \/ sent chan' = sent chan ++ [pass +:+ "
"])
    /\ (forall chunks closing,
          incoming chan = (Chunk <$> chunks) ++ closing ->
          never_prompted_upto (length chunks) prompt EmptyString chunks ->
          closing = [] \/ (exists rest, closing = Chunk EmptyString :: rest) ->
          sent chan' = sent chan).
Proof.
  intros Hsudo Hpass Hne Hw Hh prompt.
  pose proof (exec_sudo_spec c env cmd sudo_user executable pass chan width height
                Hsudo Hpass Hne Hw Hh) as Hwp.
  cbn zeta in Hwp. fold prompt in Hwp. unfold wp in Hwp. unfold exec_command.
  destruct (exec_on_channel _ _ _ _ _ _ _ _ chan) as [r chan'].
  exists r, chan'. split; [done|].
  assert (forall x : string, sent chan <> sent chan ++ [x]) as Hlen.
  { intros x Heq. apply (f_equal length) in Heq. rewrite length_app in Heq.
    cbn in Heq. lia. }
  assert ((exists o rest, await_prompt prompt EmptyString (incoming chan)
                          = (PROMPT_SATISFIED o, rest)
                          /\ sent chan' = sent chan ++ [pass +:+ "
"])
          \/ ((forall o rest, await_prompt prompt EmptyString (incoming chan)
                              <> (PROMPT_SATISFIED o, rest))
              /\ sent chan' = sent chan)) as Hcases.
  { destruct r as [v|e].
    - destruct Hwp as (o & rest & Hsat & Hsent & _). left. by exists o, rest.
    - destruct (await_prompt prompt EmptyString (incoming chan)) as [[o|o|o] rest].
      + destruct Hwp as (_ & Hsent & _). left. by exists o, rest.
      + destruct Hwp as [-> _]. by right.
      + destruct Hwp as [-> _]. by right. }
  destruct Hcases as [(o & rest & Hsat & Hsent)|[Hnot Hsent]].
  - split; [|split].
    + split; [|done]. intros _.
      apply await_prompt_satisfied in Hsat as (chunks & Hin & -> & Hends & Hnever).
      by exists chunks, rest.
    + by right.
    + intros chunks closing Hin Hnever Hclosing. exfalso.
      rewrite Hin, (await_prompt_closed _ _ _ _ Hnever Hclosing) in Hsat. discriminate.
  - split; [|split].
    + split.
      * intros Heq. rewrite Hsent in Heq. by destruct (Hlen _ Heq).
      * intros (chunks & rest & Hin & Hends & Hnever). exfalso.
        apply (Hnot (join chunks) rest). apply await_prompt_satisfied.
        by exists chunks.
    + by left.
    + done.
Qed.

(** C3. In a run with sudo and a password, when a read brings no bytes (or
    nothing is left to read) before the accumulated output has ended with the
    prompt, the call raises an [AnsibleError] and writes nothing: the error
    says that the user does not exist if ["unknown user"] occurs in what was
    read, and that the connection closed while waiting for the password
    prompt otherwise. *)
Theorem closed_stream_before_prompt_fails
    (c : Connection) (env : Env) (chan : Channel)
    (cmd tmp_path sudo_user : string) (executable : option string)
    (pass : string) (width height : Z) (chunks : list string)
    (closing : list recv_result) :
  sudo (runner c) = true ->
  sudo_pass (runner c) = Some pass ->
  pass <> EmptyString ->
  env_size env "COLUMNS" width ->
  env_size env "LINES" height ->
  incoming chan = (Chunk <$> chunks) ++ closing ->
  never_prompted_upto (length chunks)
    (snd (make_sudo_cmd sudo_user executable cmd)) EmptyString chunks ->
  closing = [] \/ (exists rest, closing = Chunk EmptyString :: rest) ->
  exists msg chan',
    exec_command quote make_sudo_cmd c env (Ok chan) cmd tmp_path sudo_user true executable
    = (Raise (AnsibleError msg), Some chan')
    /\ sent chan' = sent chan
    /\ (occurs_in "unknown user" (join chunks) ->
        msg = "user " +:+ sudo_user +:+ " does not exist")
    /\ (~ occurs_in "unknown user" (join chunks) ->
        msg = "ssh connection closed waiting for password prompt").
Proof.
  intros Hsudo Hpass Hne Hw Hh Hin Hnever Hclosing.
  pose proof (exec_sudo_spec c env cmd sudo_user executable pass chan width height
                Hsudo Hpass Hne Hw Hh) as Hwp.
  cbn zeta in Hwp. unfold wp in Hwp. unfold exec_command.
  rewrite Hin, (await_prompt_closed _ _ _ _ Hnever Hclosing) in Hwp.
  destruct (exec_on_channel _ _ _ _ _ _ _ _ chan) as [[v|e] chan'].
  - destruct Hwp as (o & rest & Hsat & _). discriminate.
  - destruct Hwp as [-> ->]. eexists _, _. split; [reflexivity|]. split; [done|].
    change (EmptyString +:+ join chunks) with (join chunks). split.
    + intros Hocc. apply contains_spec in Hocc. by rewrite Hocc.
    + intros Hocc. destruct (Py.contains "unknown user" (join chunks)) eqn:Hc; [|done].
      by apply contains_spec in Hc.
Qed.

(** C9, as the code has it. With sudo, the pseudo-terminal is requested with
    the terminal type of the environment (["vt100"] when unset) and with the
    sizes that [int] reads from COLUMNS and LINES, [0] standing for a
    variable that is unset. A variable that is set to something [int] does
    not accept makes [exec_command] raise the [ValueError] of [int], before
    any pseudo-terminal is requested or any command started. *)
Theorem pty_size_from_environment
    (c : Connection) (env : Env) (chan : Channel)
    (cmd tmp_path sudo_user : string) (executable : option string) :
  sudo (runner c) = true ->
  let run := exec_command quote make_sudo_cmd c env (Ok chan) cmd tmp_path sudo_user
               true executable in
  (forall width height,
     env_size env "COLUMNS" width -> env_size env "LINES" height ->
     exists r chan',
       run = (r, Some chan')
       /\ pty chan' = Some (default "vt100" (getenv env "TERM"), width, height))
  /\ (getenv env "COLUMNS" = None -> getenv env "LINES" = None ->
      exists r chan',
        run = (r, Some chan')
        /\ pty chan' = Some (default "vt100" (getenv env "TERM"), 0, 0))
  /\ (forall s,
        getenv env "COLUMNS" = Some s -> Py.int s = None ->
        run = (Raise (ValueError s), Some chan))
  /\ (forall width s,
        env_size env "COLUMNS" width ->
        getenv env "LINES" = Some s -> Py.int s = None ->
        run = (Raise (ValueError s), Some chan)).
Proof.
  intros Hsudo run.
  assert (forall width height,
            env_size env "COLUMNS" width -> env_size env "LINES" height ->
            exists r chan',
              run = (r, Some chan')
              /\ pty chan' = Some (default "vt100" (getenv env "TERM"), width, height))
    as Hsized.
  { intros width height Hw Hh.
    pose proof (exec_pty_spec c env cmd sudo_user executable chan width height
                  Hsudo Hw Hh) as Hwp.
    cbn zeta in Hwp. unfold wp in Hwp. subst run. unfold exec_command.
    destruct (exec_on_channel _ _ _ _ _ _ _ _ chan) as [r chan'].
    exists r, chan'. split; [done|]. by destruct r. }
  split; [exact Hsized|]. split; [|split].
  - intros Hc Hl. apply Hsized; by left.
  - intros s Hc Hint. subst run. unfold exec_command, exec_on_channel.
    rewrite Hsudo. cbn [negb orb]. unfold bind at 1. unfold bind at 1.
    unfold int_getenv at 1. by rewrite Hc, Hint.
  - intros width s Hw Hl Hint. subst run. unfold exec_command, exec_on_channel.
    rewrite Hsudo. cbn [negb orb]. unfold bind at 1. unfold bind at 1.
    rewrite (int_getenv_ok env "COLUMNS" width chan Hw). unfold bind at 1.
    unfold int_getenv at 1. by rewrite Hl, Hint.
Qed.

End ExecFacts.

(** ** The theorems on the sample run *)

Lemma save_appends_newly_accepted_keys_witness :
  exists w',
    _save_ssh_host_keys Sample.env Sample.known_hosts Sample.merged
    = (Ok tt, (fst Sample.merged, w'))
    /\ files w' !! Sample.known_hosts = Some "alpha ssh-rsa AAAA
beta ssh-dss BBBB
gamma ssh-rsa CCCC
".
Proof.
  destruct (save_appends_newly_accepted_keys Sample.env Sample.known_hosts
              (fst Sample.merged) (snd Sample.merged) O Sample.merged_client)
    as (w' & Hrun & Hfile & _).
  - reflexivity.
  - reflexivity.
  - vm_compute. discriminate.
  - reflexivity.
  - intros written data. reflexivity.
  - reflexivity.
  - reflexivity.
  - exists w'. split; [exact Hrun | exact Hfile].
Defined.

(** Against C1 as the specification has it: the known-hosts file holds a
    line of host alpha, one of host beta and another one of host alpha; the
    session accepts the key of host gamma, and [close] rewrites the file with
    the two lines of alpha next to each other, before the line of beta. *)
Lemma interleaved_lines_are_regrouped :
  let env := Sample.env_with (fun _ => false) (Ok Sample.interleaved) in
  let session := snd (connect env (Sample.conn, Sample.interleaved_start)) in
  files Sample.interleaved_start !! Sample.known_hosts = Some "alpha ssh-rsa AAAA
beta ssh-dss BBBB
alpha ssh-dss DDDD
"
  /\ fst (close env session) = Ok tt
  /\ files (snd (snd (close env session))) !! Sample.known_hosts = Some "alpha ssh-rsa AAAA
alpha ssh-dss DDDD
beta ssh-dss BBBB
gamma ssh-rsa CCCC
".
Proof. cbn zeta. split; [|split]; vm_compute; reflexivity. Qed.

Lemma close_without_new_key_keeps_trust_file_witness :
  files (snd (snd (close Sample.env Sample.quiet))) !! Sample.known_hosts
  = files Sample.start !! Sample.known_hosts.
Proof.
  apply (close_without_new_key_keeps_trust_file Sample.env
           (fst Sample.quiet) (snd Sample.quiet)
           (fst (close Sample.env Sample.quiet))
           (fst (snd (close Sample.env Sample.quiet)))
           (snd (snd (close Sample.env Sample.quiet)))).
  - intros a o Ha Ho. vm_compute in Ha. injection Ha as <-.
    vm_compute in Ho. injection Ho as <-. split; apply Forall_nil_2.
  - intros kf Hkf. vm_compute in Hkf. injection Hkf as <-. reflexivity.
  - vm_compute. reflexivity.
Defined.

Lemma close_swallows_guarded_failures_witness :
  exists w',
    close (Sample.env_with Sample.deny_known_hosts (Ok [])) Sample.merged
    = (Ok tt, (fst Sample.merged, w'))
    /\ stderr w' = [IOError Sample.known_hosts].
Proof.
  destruct (close_swallows_guarded_failures
              (Sample.env_with Sample.deny_known_hosts (Ok []))
              (fst Sample.merged) (snd Sample.merged) Sample.known_hosts O)
    as [Hguarded _].
  - reflexivity.
  - reflexivity.
  - exists Sample.merged_client. reflexivity.
  - destruct Hguarded as (w' & w0 & Hclose & _ & _ & _ & _ & _ & Hio).
    + reflexivity.
    + reflexivity.
    + exists w'. split; [exact Hclose|].
      apply (Hio Sample.merged_client []); reflexivity.
Defined.

(** Against C5 as the specification has it: when the lock file cannot be
    created, [close] raises the [IOError] of [open] and the session is left
    open. *)
Lemma close_lock_failure_reaches_caller :
  fst (close (Sample.env_with Sample.deny_lockfile (Ok [])) Sample.merged)
  = Raise (IOError Sample.lockfile)
  /\ ssh_closed <$> ssh_objects
        (snd (snd (close (Sample.env_with Sample.deny_lockfile (Ok [])) Sample.merged)))
        !! O
     = Some false.
Proof. split; vm_compute; reflexivity. Qed.

(** Against C6 as the specification has it: with the entries of the pair
    absent from both caches, [close] raises an [AttributeError], for a
    Connection that never connected as for one whose session came from the
    cache and was closed by the Connection that had built it. *)
Lemma close_with_entries_absent_raises :
  let key := cache_key_of (host Sample.conn) (user Sample.conn) in
  let built := snd (connect Sample.env (Sample.conn, Sample.start)) in
  let served := snd (connect Sample.env (Sample.conn, snd built)) in
  let released := snd (close Sample.env (fst built, snd served)) in
  SSH_CONNECTION_CACHE Sample.start !! key = None
  /\ SFTP_CONNECTION_CACHE Sample.start !! key = None
  /\ fst (close Sample.env (Sample.conn, Sample.start))
     = Raise (AttributeError "'Connection' object has no attribute 'keyfile'")
  /\ ssh (fst served) = ssh (fst built)
  /\ SSH_CONNECTION_CACHE (snd released) !! key = None
  /\ SFTP_CONNECTION_CACHE (snd released) !! key = None
  /\ fst (close Sample.env (fst served, snd released))
     = Raise (AttributeError "'Connection' object has no attribute 'keyfile'").
Proof. cbn zeta. repeat split; vm_compute; reflexivity. Qed.

Lemma session_cache_acquire_release_witness :
  exists s,
    ssh (fst Sample.connected) = Some s
    /\ connect Sample.env (Sample.conn, snd Sample.connected)
       = (Ok tt, (set_ssh (Some s) Sample.conn, snd Sample.connected)).
Proof.
  destruct (session_cache_acquire_release Sample.env Sample.env Sample.conn Sample.conn
              Sample.start eq_refl eq_refl) as [Htwice _].
  destruct (Htwice (fst Sample.connected) (snd Sample.connected))
    as (s & Hs & _ & Hagain).
  - vm_compute. reflexivity.
  - exists s. split; [exact Hs | exact Hagain].
Defined.

Lemma prompt_scanner_sends_secret_exactly_at_prompt_witness :
  exists r chan',
    exec_command Sample.quote Sample.make_sudo_cmd Sample.conn Sample.env
      (Ok Sample.prompted) "id" "/tmp" "root" true (Some "/bin/sh")
    = (r, Some chan')
    /\ sent chan' = ["s3cret
"].
Proof.
  destruct (prompt_scanner_sends_secret_exactly_at_prompt
              Sample.quote Sample.make_sudo_cmd Sample.conn Sample.env Sample.prompted
              "id" "/tmp" "root" (Some "/bin/sh") "s3cret" 0 0)
    as (r & chan' & Hrun & Hiff & _).
  - reflexivity.
  - reflexivity.
  - discriminate.
  - left. split; reflexivity.
  - left. split; reflexivity.
  - exists r, chan'. split; [exact Hrun|]. apply Hiff.
    exists ["[sudo] pass"; "word: "], [Chunk "uid=0(root)"].
    split; [reflexivity|]. split; [by exists EmptyString|].
    intros n Hn. injection Hn as <-. split.
    + repeat constructor; discriminate.
    + intros k Hk. apply ends_with_false.
      destruct k as [|[|k]]; [reflexivity | reflexivity | lia].
Defined.

Lemma closed_stream_before_prompt_fails_witness :
  exists chan',
    exec_command Sample.quote Sample.make_sudo_cmd Sample.conn Sample.env
      (Ok Sample.unknown_user) "id" "/tmp" "bob" true (Some "/bin/sh")
    = (Raise (AnsibleError "user bob does not exist"), Some chan')
    /\ sent chan' = [].
Proof.
  destruct (closed_stream_before_prompt_fails
              Sample.quote Sample.make_sudo_cmd Sample.conn Sample.env Sample.unknown_user
              "id" "/tmp" "bob" (Some "/bin/sh") "s3cret" 0 0
              ["sudo: unknown user: bob"] [])
    as (msg & chan' & Hrun & Hsent & Hunknown & _).
  - reflexivity.
  - reflexivity.
  - discriminate.
  - left. split; reflexivity.
  - left. split; reflexivity.
  - reflexivity.
  - split; [repeat constructor; discriminate|].
    intros k Hk. apply ends_with_false.
    destruct k as [|[|k]]; [reflexivity | reflexivity | cbn in Hk; lia].
  - by left.
  - exists chan'. split; [|exact Hsent].
    rewrite Hrun, Hunknown; [reflexivity|]. by exists "sudo: ", ": bob".
Defined.

Lemma pty_size_from_environment_witness :
  exists r chan',
    exec_command Sample.quote Sample.make_sudo_cmd Sample.conn Sample.env
      (Ok Sample.prompted) "id" "/tmp" "root" true (Some "/bin/sh")
    = (r, Some chan')
    /\ pty chan' = Some ("vt100", 0, 0).
Proof.
  destruct (pty_size_from_environment Sample.quote Sample.make_sudo_cmd Sample.conn
              Sample.env Sample.prompted "id" "/tmp" "root" (Some "/bin/sh") eq_refl)
    as (_ & Hunset & _).
  apply Hunset; reflexivity.
Defined.

(** Against C9 as the specification has it: with COLUMNS set to a word,
    [exec_command] raises the [ValueError] of [int]; no pseudo-terminal was
    requested and no command was started. *)
Lemma non_numeric_columns_raises :
  exec_command Sample.quote Sample.make_sudo_cmd Sample.conn
    (Sample.env_vars Sample.wide_columns)
    (Ok Sample.prompted) "id" "/tmp" "root" true (Some "/bin/sh")
  = (Raise (ValueError "wide"), Some Sample.prompted).
Proof. vm_compute. reflexivity. Qed.

(** The whole course of the sample session: [connect] accepts the key of the
    server, [close] reads the known hosts again, merges them and rewrites the
    file with the new key at the bottom. *)
Example sample_session_appends_key :
  fst (close Sample.env Sample.connected) = Ok tt
  /\ files (snd (snd (close Sample.env Sample.connected))) !! Sample.known_hosts
     = Some "alpha ssh-rsa AAAA
beta ssh-dss BBBB
gamma ssh-rsa CCCC
"
  /\ SSH_CONNECTION_CACHE (snd (snd (close Sample.env Sample.connected))) = ∅.
Proof. repeat split; vm_compute; reflexivity. Qed.

(** * Further properties of the plugin *)

(** ** The cache key *)

Section CacheKey.

Lemma app_inj_r (s s' t : string) : s +:+ t = s' +:+ t -> s = s'.
Proof.
  revert s'. induction s as [|a s IH]; intros [|b s'] H.
  - done.
  - apply (f_equal String.length) in H. rewrite !app_length in H. simpl in H. lia.
  - apply (f_equal String.length) in H. rewrite !app_length in H. simpl in H. lia.
  - rewrite !app_cons in H. injection H as -> H. f_equal. by apply IH.
Qed.

Lemma underscore_free_prefix (h1 h2 r1 r2 : string) :
  has_underscore h1 = false -> has_underscore h2 = false ->
  h1 +:+ "__" +:+ r1 = h2 +:+ "__" +:+ r2 -> h1 = h2 /\ r1 = r2.
Proof.
  revert h2. induction h1 as [|a h1 IH]; intros [|b h2] H1 H2 H.
  - split; [done|]. by apply (String.app_inj "__").
  - exfalso. rewrite app_cons in H. injection H as <- _. discriminate H2.
  - exfalso. rewrite app_cons in H. injection H as -> _. discriminate H1.
  - rewrite !app_cons in H. injection H as -> H. cbn [has_underscore] in H1, H2.
    destruct (Ascii.eqb b "_"); [done|].
    destruct (IH h2 H1 H2 H) as [-> ->]. done.
Qed.

(** X1. For host names without an underscore, the cache key tells the pairs
    apart: two pairs with the same key are the same pair. *)
Theorem cache_key_injective_without_underscore (h1 u1 h2 u2 : string) :
  has_underscore h1 = false ->
  has_underscore h2 = false ->
  cache_key_of h1 u1 = cache_key_of h2 u2 ->
  h1 = h2 /\ u1 = u2.
Proof.
  intros H1 H2 Hkey. unfold cache_key_of in Hkey.
  destruct (underscore_free_prefix h1 h2 _ _ H1 H2 Hkey) as [-> Hu].
  split; [done|]. by apply app_inj_r in Hu.
Qed.

Lemma cache_key_injective_without_underscore_witness :
  "web1.example.org" = "web1.example.org" /\ "deploy" = "deploy".
Proof.
  apply (cache_key_injective_without_underscore
           "web1.example.org" "deploy" "web1.example.org" "deploy");
    reflexivity.
Defined.

End CacheKey.

(** ** Connecting *)

Section Connecting.

Lemma alter_last {A} (f : A -> A) (l : list A) (x : A) :
  alter f (length l) (l ++ [x]) = l ++ [f x].
Proof. rewrite alter_app_r_alt by lia. rewrite Nat.sub_diag. done. Qed.

Lemma lookup_last {A} (l : list A) (x : A) : (l ++ [x]) !! length l = Some x.
Proof. rewrite lookup_app_r by lia. by rewrite Nat.sub_diag. Qed.

(** [_connect_uncached] when paramiko is there, the known hosts can be read
    (if they are read at all) and the handshake succeeds. *)
Lemma connect_uncached_run env c w es unknown :
  HAVE_PARAMIKO env = true ->
  (HOST_KEY_CHECKING env = true -> system_host_keys_read env = Ok es) ->
  handshake_of env c = Connected unknown ->
  _connect_uncached env (c, w)
  = (Ok (length (ssh_objects w)),
     (set_keyfile (Some (expanduser env "~/.ssh/known_hosts")) c,
      set_ssh_objects (fun l => l ++ [new_session env c es unknown]) w)).
Proof.
  intros Hparamiko Hread Hshake. unfold handshake_of in Hshake.
  unfold _connect_uncached, new_SSHClient, load_system_host_keys,
    MyAutoAddPolicy.missing_host_key, ssh_object, self, process, set_self,
    update_process, modify, try_except, bind, ret, raise.
  rewrite Hparamiko. cbn [negb fst snd].
  unfold new_session. destruct w as [? ? objs ? ? ? ? ? ?].
  destruct (HOST_KEY_CHECKING env) eqn:Hk; [rewrite (Hread eq_refl)|];
    cbn [fst snd host user password private_key_file runner port set_keyfile];
    rewrite Hshake; destruct unknown as [key|];
    cbn [fst snd ssh_objects set_ssh_objects]; rewrite ?alter_last, ?lookup_last;
    cbn [fst snd _host_keys_filename with_host_keys with_system_host_keys
         _host_keys _system_host_keys ssh_closed HostKeys.add];
    unfold set_ssh_objects;
    cbn [SSH_CONNECTION_CACHE SFTP_CONNECTION_CACHE ssh_objects sftp_objects files
         dirs flocks transfers stderr];
    rewrite ?alter_last;
    cbn [with_host_keys with_system_host_keys _host_keys _system_host_keys
         _host_keys_filename ssh_closed HostKeys.add];
    reflexivity.
Qed.

(** X2. A [connect] that finds no session for the pair, with paramiko
    installed, known hosts that can be read (when host-key checking is on; they
    are not read otherwise) and a handshake that succeeds, creates one
    SSHClient, records the path of the known-hosts file in [self.keyfile],
    stores the session under the pair's key and touches nothing else. When
    the server key was unknown, the collection of the new session yields that
    key alone, tagged, under its key type and under the name that paramiko
    gives the server: the host for port 22, [[host]:port] for any other port.
    Its system host keys show, for a host and a key type, the key of the
    first line that the known hosts have for them. *)
Theorem connect_miss_builds_session (env : Env) (c : Connection) (w : Process)
    (es : list (string * string * string)) (unknown : option PKey) :
  SSH_CONNECTION_CACHE w !! cache_key_of (host c) (user c) = None ->
  HAVE_PARAMIKO env = true ->
  (HOST_KEY_CHECKING env = true -> system_host_keys_read env = Ok es) ->
  handshake_of env c = Connected unknown ->
  connect env (c, w)
  = (Ok tt,
     (set_ssh (Some (length (ssh_objects w)))
        (set_keyfile (Some (expanduser env "~/.ssh/known_hosts")) c),
      set_ssh_cache (insert (cache_key_of (host c) (user c)) (length (ssh_objects w)))
        (set_ssh_objects (fun l => l ++ [new_session env c es unknown]) w)))
  /\ (forall key, unknown = Some key ->
        HostKeys.entries (_host_keys (new_session env c es unknown))
        = [(server_hostkey_name c, get_name key, MyAutoAddPolicy.tag key)])
  /\ (unknown = None -> HostKeys.entries (_host_keys (new_session env c es unknown)) = [])
  /\ (port c = 22 -> server_hostkey_name c = host c)
  /\ (port c <> 22 ->
      server_hostkey_name c = "[" +:+ host c +:+ "]:" +:+ pretty (port c))
  /\ (HOST_KEY_CHECKING env = true ->
      forall h t, shown (_system_host_keys (new_session env c es unknown)) h t
                  = shown (HostKeys.parsed <$> es) h t)
  /\ (HOST_KEY_CHECKING env = false ->
      _system_host_keys (new_session env c es unknown) = []).
Proof.
  intros Hmiss Hparamiko Hread Hshake. split; [|split; [|split; [|split; [|split; [|split]]]]].
  - unfold connect, _cache_key, self, process. unfold bind at 1. unfold bind at 1.
    unfold ret at 1. cbn [fst snd]. unfold bind at 1. cbn [fst snd]. rewrite Hmiss.
    unfold bind at 1. rewrite (connect_uncached_run env c w es unknown) by done.
    reflexivity.
  - intros key ->. cbn [new_session _host_keys].
    exact (entries_singleton (server_hostkey_name c) (MyAutoAddPolicy.tag key)).
  - by intros ->.
  - intros Hp. unfold server_hostkey_name. by rewrite decide_True.
  - intros Hp. unfold server_hostkey_name. by rewrite decide_False.
  - intros Hk h t. cbn [new_session _system_host_keys]. rewrite Hk.
    by rewrite shown_load, shown_nil.
  - intros Hk. cbn [new_session _system_host_keys]. by rewrite Hk.
Qed.

Lemma connect_uncached_handshake_fails env c w es msg :
  HAVE_PARAMIKO env = true ->
  (HOST_KEY_CHECKING env = true -> system_host_keys_read env = Ok es) ->
  handshake_of env c = ConnectRaises msg ->
  _connect_uncached env (c, w)
  = (Raise (connect_failure c msg),
     (set_keyfile (Some (expanduser env "~/.ssh/known_hosts")) c,
      set_ssh_objects (fun l => l ++ [new_session env c es None]) w)).
Proof.
  intros Hparamiko Hread Hshake. unfold handshake_of in Hshake.
  unfold _connect_uncached, new_SSHClient, load_system_host_keys,
    self, process, set_self, update_process, modify, try_except, bind, ret, raise.
  rewrite Hparamiko. cbn [negb fst snd].
  unfold new_session. destruct w as [? ? objs ? ? ? ? ? ?].
  destruct (HOST_KEY_CHECKING env) eqn:Hk; [rewrite (Hread eq_refl)|];
    cbn [fst snd host user password private_key_file runner port set_keyfile];
    rewrite Hshake; cbn [fst snd exn_str];
    unfold set_ssh_objects;
    cbn [SSH_CONNECTION_CACHE SFTP_CONNECTION_CACHE ssh_objects sftp_objects files
         dirs flocks transfers stderr];
    rewrite ?alter_last; reflexivity.
Qed.

(** X3. When the handshake of a [connect] that found no session raises an
    exception, [connect] raises in its place: an [AnsibleError] that asks to
    upgrade paramiko if the text of the exception holds ["PID check failed"];
    if not, an [AnsibleConnectionFailed] that names user, host and port and
    tells how to connect as a different user if the text holds
    ["Private key file is encrypted"]; an [AnsibleConnectionFailed] with the
    text as it is otherwise. Nothing is stored in the caches and [self.ssh] is
    not assigned. *)
Theorem connect_classifies_handshake_failure (env : Env) (c : Connection) (w : Process)
    (es : list (string * string * string)) (msg : string) :
  SSH_CONNECTION_CACHE w !! cache_key_of (host c) (user c) = None ->
  HAVE_PARAMIKO env = true ->
  (HOST_KEY_CHECKING env = true -> system_host_keys_read env = Ok es) ->
  handshake_of env c = ConnectRaises msg ->
  exists e c' w',
    connect env (c, w) = (Raise e, (c', w'))
    /\ ssh c' = ssh c
    /\ SSH_CONNECTION_CACHE w' = SSH_CONNECTION_CACHE w
    /\ SFTP_CONNECTION_CACHE w' = SFTP_CONNECTION_CACHE w
    /\ (occurs_in "PID check failed" msg ->
        e = AnsibleError
              "paramiko version issue, please upgrade paramiko on the machine running ansible")
    /\ (~ occurs_in "PID check failed" msg ->
        occurs_in "Private key file is encrypted" msg ->
        e = AnsibleConnectionFailed
              ("ssh " +:+ user c +:+ "@" +:+ host c +:+ ":" +:+ pretty (port c)
               +:+ " : " +:+ msg +:+ "
To connect as a different user, use -u <username>."))
    /\ (~ occurs_in "PID check failed" msg ->
        ~ occurs_in "Private key file is encrypted" msg ->
        e = AnsibleConnectionFailed msg).
Proof.
  intros Hmiss Hparamiko Hread Hshake.
  eexists (connect_failure c msg), _, _. split.
  - unfold connect, _cache_key, self, process. unfold bind at 1. unfold bind at 1.
    unfold ret at 1. cbn [fst snd]. unfold bind at 1. cbn [fst snd]. rewrite Hmiss.
    unfold bind at 1.
    rewrite (connect_uncached_handshake_fails env c w es msg) by done. reflexivity.
  - repeat (split; [done|]). unfold connect_failure, occurs_in.
    destruct (Py.contains "PID check failed" msg) eqn:Hpid;
      [|destruct (Py.contains "Private key file is encrypted" msg) eqn:Henc].
    + apply contains_spec in Hpid. by repeat split.
    + apply contains_spec in Henc.
      split; [|by split]. intros Hocc. apply contains_spec in Hocc. congruence.
    + split; [|split].
      * intros Hocc. apply contains_spec in Hocc. congruence.
      * intros _ Hocc. apply contains_spec in Hocc. congruence.
      * done.
Qed.

(** X4. What goes wrong before the handshake is not put into other words:
    without paramiko, [connect] raises [AnsibleError("paramiko is not
    installed")] and changes nothing at all; with host-key checking on and
    known hosts that cannot be read, it raises the exception of the reading as
    it is. In both cases nothing is stored in the caches and [self.ssh] is
    not assigned. *)
Theorem connect_fails_before_handshake (env : Env) (c : Connection) (w : Process) :
  SSH_CONNECTION_CACHE w !! cache_key_of (host c) (user c) = None ->
  (HAVE_PARAMIKO env = false ->
   connect env (c, w) = (Raise (AnsibleError "paramiko is not installed"), (c, w)))
  /\ (forall e,
        HAVE_PARAMIKO env = true ->
        HOST_KEY_CHECKING env = true ->
        system_host_keys_read env = Raise e ->
        exists c' w',
          connect env (c, w) = (Raise e, (c', w'))
          /\ ssh c' = ssh c
          /\ SSH_CONNECTION_CACHE w' = SSH_CONNECTION_CACHE w
          /\ SFTP_CONNECTION_CACHE w' = SFTP_CONNECTION_CACHE w).
Proof.
  intros Hmiss. split.
  - intros Hparamiko.
    unfold connect, _cache_key, _connect_uncached, self, process, bind, ret, raise.
    cbn [fst snd]. by rewrite Hmiss, Hparamiko.
  - intros e Hparamiko Hcheck Hread.
    unfold connect, _cache_key, _connect_uncached, new_SSHClient,
      load_system_host_keys, self, process, set_self, update_process, modify,
      bind, ret, raise.
    cbn [fst snd]. rewrite Hmiss, Hparamiko, Hcheck, Hread. cbn [negb fst snd].
    by eexists _, _.
Qed.

End Connecting.

(** ** Running a command, all the ways it ends *)

Section Running.

Variable quote : string -> string.
Variable make_sudo_cmd : string -> option string -> string -> string * string.

Lemma read_to_end_closed outs closing :
  all_bytes outs -> closes closing ->
  read_to_end ((Chunk <$> outs) ++ closing) = (Ok (join outs), tail closing).
Proof.
  intros Hall Hclosing. induction Hall as [|ch outs Hch Hall IH].
  - by destruct Hclosing as [->|[rest ->]].
  - destruct ch as [|a ch]; [done|]. cbn [fmap list_fmap app read_to_end].
    change (read_to_end ((Chunk <$> outs) ++ closing))
      with (read_to_end ((Chunk <$> outs) ++ closing)).
    by rewrite IH.
Qed.

Lemma read_to_end_times_out outs rest :
  all_bytes outs ->
  read_to_end ((Chunk <$> outs) ++ TimesOut :: rest) = (Raise socket_timeout, rest).
Proof.
  intros Hall. induction Hall as [|ch outs Hch Hall IH]; [done|].
  destruct ch as [|a ch]; [done|]. cbn [fmap list_fmap app read_to_end]. by rewrite IH.
Qed.

Lemma await_prompt_times_out prompt out chunks rest :
  never_prompted_upto (length chunks) prompt out chunks ->
  await_prompt prompt out ((Chunk <$> chunks) ++ TimesOut :: rest)
  = (TIMED_OUT (out +:+ join chunks), rest).
Proof.
  revert out. induction chunks as [|ch chunks IH]; intros out [Hne Hk].
  - pose proof (Hk O ltac:(done)) as H0. cbn in H0. rewrite app_empty_r in H0.
    apply ends_with_false in H0.
    change ((Chunk <$> []) ++ TimesOut :: rest) with (TimesOut :: rest).
    change (join []) with EmptyString.
    by rewrite app_empty_r, await_prompt_unfold, H0.
  - pose proof (Hk O ltac:(lia)) as H0. cbn in H0. rewrite app_empty_r in H0.
    apply ends_with_false in H0.
    cbn [fmap list_fmap app]. rewrite await_prompt_unfold, H0.
    apply Forall_cons in Hne as [Hch Hne]. destruct ch as [|a ch]; [done|].
    cbn [join foldr]. rewrite <- app_assoc. apply IH. split; [done|].
    intros k Hk'. specialize (Hk (S k) ltac:(cbn; lia)). cbn [take join foldr] in Hk.
    by rewrite <- app_assoc in Hk.
Qed.

(** [exec_command] on an open channel without sudo. *)
Lemma exec_direct_run c env cmd sudo_user sudoable executable chan :
  sudo (runner c) = false \/ sudoable = false ->
  exec_on_channel quote make_sudo_cmd c env cmd sudo_user sudoable executable chan
  = (drained chan (fst (read_to_end (incoming chan))),
     set_incoming (snd (read_to_end (incoming chan)))
       (set_command (Some (direct_command quote executable cmd)) chan)).
Proof.
  intros Hdirect. unfold exec_on_channel.
  assert (negb (sudo (runner c)) || negb sudoable = true) as ->
    by (destruct Hdirect as [-> | ->]; [done | apply orb_true_r]).
  unfold bind, modify, get, ret, raise, direct_command, set_command, set_incoming.
  simpl. by destruct (read_to_end (incoming chan)) as [[s|e] rest].
Qed.

(** [exec_command] on an open channel with sudo and no password. *)
Lemma exec_sudo_no_password_run c env cmd sudo_user executable chan width height :
  sudo (runner c) = true ->
  Py.truthy (sudo_pass (runner c)) = false ->
  env_size env "COLUMNS" width ->
  env_size env "LINES" height ->
  exec_on_channel quote make_sudo_cmd c env cmd sudo_user true executable chan
  = (drained chan (fst (read_to_end (incoming chan))),
     set_incoming (snd (read_to_end (incoming chan)))
       (sudo_started make_sudo_cmd env sudo_user executable cmd width height chan)).
Proof.
  intros Hsudo Hpass Hw Hh. unfold exec_on_channel, sudo_started. rewrite Hsudo.
  cbn [negb orb]. unfold bind at 1. unfold bind at 1.
  rewrite (int_getenv_ok env "COLUMNS" width chan Hw). unfold bind at 1.
  rewrite (int_getenv_ok env "LINES" height chan Hh).
  destruct (make_sudo_cmd sudo_user executable cmd) as [shcmd prompt].
  unfold bind, modify, get, ret, raise, set_command, set_pty, set_incoming.
  destruct (sudo_pass (runner c)) as [[|p0 pass]|]; [| done |]; simpl;
    by destruct (read_to_end (incoming chan)) as [[s|e] rest].
Qed.

(** [exec_command] on an open channel with sudo and a password. *)
Lemma exec_sudo_run c env cmd sudo_user executable pass chan width height :
  sudo (runner c) = true ->
  sudo_pass (runner c) = Some pass ->
  pass <> EmptyString ->
  env_size env "COLUMNS" width ->
  env_size env "LINES" height ->
  let started := sudo_started make_sudo_cmd env sudo_user executable cmd width height chan in
  exec_on_channel quote make_sudo_cmd c env cmd sudo_user true executable chan
  = match await_prompt (snd (make_sudo_cmd sudo_user executable cmd)) EmptyString
            (incoming chan) with
    | (PROMPT_SATISFIED _, rest) =>
        (drained chan (fst (read_to_end rest)),
         set_incoming (snd (read_to_end rest))
           (set_sent (sent chan ++ [pass +:+ "
"]) (set_incoming rest started)))
    | (CLOSED_EARLY o, rest) =>
        (Raise (AnsibleError
                  (if Py.contains "unknown user" o
                   then "user " +:+ sudo_user +:+ " does not exist"
                   else "ssh connection closed waiting for password prompt")),
         set_incoming rest started)
    | (TIMED_OUT o, rest) =>
        (Raise (AnsibleError ("ssh timed out waiting for sudo.
" +:+ o)),
         set_incoming rest started)
    end.
Proof.
  intros Hsudo Hpass Hne Hw Hh started. subst started.
  unfold exec_on_channel, sudo_started. rewrite Hsudo, Hpass.
  cbn [negb orb]. unfold bind at 1. unfold bind at 1.
  rewrite (int_getenv_ok env "COLUMNS" width chan Hw). unfold bind at 1.
  rewrite (int_getenv_ok env "LINES" height chan Hh).
  destruct (make_sudo_cmd sudo_user executable cmd) as [shcmd prompt].
  destruct pass as [|p0 pass]; [done|].
  unfold bind, modify, get, ret, raise, set_command, set_pty, set_incoming, set_sent.
  simpl.
  destruct (await_prompt prompt EmptyString (incoming chan)) as [[o|o|o] rest].
  - simpl. by destruct (read_to_end rest) as [[s|e] rest'].
  - by destruct (Py.contains "unknown user" o).
  - done.
Qed.

(** X5. Without sudo (the runner does not use it, or the command is not
    sudoable), [exec_command] asks for no pseudo-terminal, reads no
    environment variable and writes nothing to the channel: it starts
    [executable -c quoted-command] (the command as it is when there is no
    executable) and returns the exit status, an empty string, all the bytes
    read up to the end of the stream, and the error stream. *)
Theorem exec_direct_mode (c : Connection) (env : Env) (chan : Channel)
    (cmd tmp_path sudo_user : string) (sudoable : bool) (executable : option string)
    (outs : list string) (closing : list recv_result) :
  sudo (runner c) = false \/ sudoable = false ->
  incoming chan = (Chunk <$> outs) ++ closing ->
  all_bytes outs ->
  closes closing ->
  exists chan',
    exec_command quote make_sudo_cmd c env (Ok chan) cmd tmp_path sudo_user sudoable
      executable
    = (Ok (exit_status chan, EmptyString, join outs, stderr_bytes chan), Some chan')
    /\ pty chan' = pty chan
    /\ sent chan' = sent chan
    /\ command chan' = Some (direct_command quote executable cmd)
    /\ incoming chan' = tail closing.
Proof.
  intros Hdirect Hin Hall Hclosing. unfold exec_command.
  rewrite (exec_direct_run c env cmd sudo_user sudoable executable chan Hdirect).
  rewrite Hin, (read_to_end_closed outs closing Hall Hclosing).
  eexists. split; [reflexivity|]. done.
Qed.

(** X6. With sudo and no password (none, or an empty one), [exec_command]
    asks for the pseudo-terminal and starts the sudo command, then waits for
    no prompt and writes nothing: all the bytes of the stream, a prompt
    included if one comes, are returned as the output. *)
Theorem exec_sudo_without_password (c : Connection) (env : Env) (chan : Channel)
    (cmd tmp_path sudo_user : string) (executable : option string)
    (width height : Z) (outs : list string) (closing : list recv_result) :
  sudo (runner c) = true ->
  Py.truthy (sudo_pass (runner c)) = false ->
  env_size env "COLUMNS" width ->
  env_size env "LINES" height ->
  incoming chan = (Chunk <$> outs) ++ closing ->
  all_bytes outs ->
  closes closing ->
  exists chan',
    exec_command quote make_sudo_cmd c env (Ok chan) cmd tmp_path sudo_user true
      executable
    = (Ok (exit_status chan, EmptyString, join outs, stderr_bytes chan), Some chan')
    /\ pty chan' = Some (default "vt100" (getenv env "TERM"), width, height)
    /\ command chan' = Some (fst (make_sudo_cmd sudo_user executable cmd))
    /\ sent chan' = sent chan
    /\ incoming chan' = tail closing.
Proof.
  intros Hsudo Hpass Hw Hh Hin Hall Hclosing. unfold exec_command.
  rewrite (exec_sudo_no_password_run c env cmd sudo_user executable chan width height)
    by done.
  rewrite Hin, (read_to_end_closed outs closing Hall Hclosing).
  eexists. split; [reflexivity|]. done.
Qed.

(** X7. With sudo and a password, when a read times out before the
    accumulated output has ended with the prompt, [exec_command] raises an
    [AnsibleError] whose message is ["ssh timed out waiting for sudo."], a
    newline and the output read so far; nothing is written to the channel. *)
Theorem prompt_wait_times_out (c : Connection) (env : Env) (chan : Channel)
    (cmd tmp_path sudo_user : string) (executable : option string)
    (pass : string) (width height : Z) (chunks : list string)
    (rest : list recv_result) :
  sudo (runner c) = true ->
  sudo_pass (runner c) = Some pass ->
  pass <> EmptyString ->
  env_size env "COLUMNS" width ->
  env_size env "LINES" height ->
  incoming chan = (Chunk <$> chunks) ++ TimesOut :: rest ->
  never_prompted_upto (length chunks)
    (snd (make_sudo_cmd sudo_user executable cmd)) EmptyString chunks ->
  exists chan',
    exec_command quote make_sudo_cmd c env (Ok chan) cmd tmp_path sudo_user true
      executable
    = (Raise (AnsibleError ("ssh timed out waiting for sudo.
" +:+ join chunks)), Some chan')
    /\ sent chan' = sent chan
    /\ incoming chan' = rest.
Proof.
  intros Hsudo Hpass Hne Hw Hh Hin Hnever. unfold exec_command.
  rewrite (exec_sudo_run c env cmd sudo_user executable pass chan width height)
    by done.
  rewrite Hin, (await_prompt_times_out _ _ _ _ Hnever).
  eexists. split; [reflexivity|]. done.
Qed.

(** X8. With sudo and a password, when the accumulated output ends with the
    prompt and the stream then runs to its end, [exec_command] writes the
    password and a newline once and returns the exit status, an empty string,
    the bytes read after the prompt, and the error stream: what was read
    while waiting for the prompt is not part of the output returned. *)
Theorem exec_sudo_returns_output_after_prompt (c : Connection) (env : Env)
    (chan : Channel) (cmd tmp_path sudo_user : string) (executable : option string)
    (pass : string) (width height : Z) (chunks outs : list string)
    (closing : list recv_result) :
  sudo (runner c) = true ->
  sudo_pass (runner c) = Some pass ->
  pass <> EmptyString ->
  env_size env "COLUMNS" width ->
  env_size env "LINES" height ->
  incoming chan = (Chunk <$> chunks) ++ (Chunk <$> outs) ++ closing ->
  first_prompted (snd (make_sudo_cmd sudo_user executable cmd)) chunks ->
  all_bytes outs ->
  closes closing ->
  exists chan',
    exec_command quote make_sudo_cmd c env (Ok chan) cmd tmp_path sudo_user true
      executable
    = (Ok (exit_status chan, EmptyString, join outs, stderr_bytes chan), Some chan')
    /\ sent chan' = sent chan ++ [pass +:+ "
"]
    /\ incoming chan' = tail closing.
Proof.
  intros Hsudo Hpass Hne Hw Hh Hin [Hends Hnever] Hall Hclosing. unfold exec_command.
  rewrite (exec_sudo_run c env cmd sudo_user executable pass chan width height)
    by done.
  assert (await_prompt (snd (make_sudo_cmd sudo_user executable cmd)) EmptyString
            (incoming chan)
          = (PROMPT_SATISFIED (join chunks), (Chunk <$> outs) ++ closing)) as ->.
  { apply await_prompt_satisfied. exists chunks. by rewrite Hin. }
  rewrite (read_to_end_closed outs closing Hall Hclosing).
  eexists. split; [reflexivity|]. done.
Qed.

(** X9. A read that times out after the password was written is not turned
    into an [AnsibleError]: [exec_command] raises [socket.timeout] itself,
    the password having been sent. *)
Theorem drain_timeout_is_not_wrapped (c : Connection) (env : Env)
    (chan : Channel) (cmd tmp_path sudo_user : string) (executable : option string)
    (pass : string) (width height : Z) (chunks outs : list string)
    (rest : list recv_result) :
  sudo (runner c) = true ->
  sudo_pass (runner c) = Some pass ->
  pass <> EmptyString ->
  env_size env "COLUMNS" width ->
  env_size env "LINES" height ->
  incoming chan = (Chunk <$> chunks) ++ (Chunk <$> outs) ++ TimesOut :: rest ->
  first_prompted (snd (make_sudo_cmd sudo_user executable cmd)) chunks ->
  all_bytes outs ->
  exists chan',
    exec_command quote make_sudo_cmd c env (Ok chan) cmd tmp_path sudo_user true
      executable
    = (Raise socket_timeout, Some chan')
    /\ sent chan' = sent chan ++ [pass +:+ "
"].
Proof.
  intros Hsudo Hpass Hne Hw Hh Hin [Hends Hnever] Hall. unfold exec_command.
  rewrite (exec_sudo_run c env cmd sudo_user executable pass chan width height)
    by done.
  assert (await_prompt (snd (make_sudo_cmd sudo_user executable cmd)) EmptyString
            (incoming chan)
          = (PROMPT_SATISFIED (join chunks), (Chunk <$> outs) ++ TimesOut :: rest)) as ->.
  { apply await_prompt_satisfied. exists chunks. by rewrite Hin. }
  rewrite (read_to_end_times_out outs rest Hall).
  eexists. split; [reflexivity|]. done.
Qed.

End Running.

(** ** Saving the host keys when something fails *)

Section SaveFailures.






End SaveFailures.

(** ** Closing, all the ways it ends *)

Section Closing.

(** X11. However [close] ends, it holds no lock that was not held before it;
    and once it has taken the lock on the lock file, it has released it when
    it ends, whether it returns or raises. *)
Theorem close_never_keeps_lock (env : Env) (c : Connection) (w : Process)
    (r : result unit) (c' : Connection) (w' : Process) :
  close env (c, w) = (r, (c', w')) ->
  (forall p, p ∈ flocks w' -> p ∈ flocks w)
  /\ (forall kf, keyfile c = Some kf ->
        open_denied env (lockfile_of kf) = false ->
        flock_denied env = false ->
        lockfile_of kf ∉ flocks w').
Proof.
  intros Hclose.
  set (Q := fun st' : St =>
    (forall p, p ∈ flocks (snd st') -> p ∈ flocks w)
    /\ (forall kf, keyfile c = Some kf ->
          open_denied env (lockfile_of kf) = false ->
          flock_denied env = false ->
          lockfile_of kf ∉ flocks (snd st'))).
  assert (wp (close env) (fun _ => Q) (fun _ => Q) (c, w)) as Hwp.
  { unfold close. wp_to_try.
    all: try (unfold Q, lockfile_of; cbn [fst snd flocks set_files set_sftp_objects
                set_sftp_cache set_ssh_cache];
              split; [done | intros kf Hkf Ho Hf; simplify_eq; congruence]).
    all: match goal with
         | |- wp (try_except _ _) _ _ (_, ?W0) =>
             apply wp_try_except; eapply wp_mono;
               [ match goal with
                 | |- wp (bind _ (fun _ => bind _ (fun _ => bind _ (fun _ => bind _
                        (fun _ => _save_ssh_host_keys _ ?kf))))) _ _ ?st =>
                     exact (close_try_body_obj_frame env kf st)
                 end
               | intros ? [c1 w1] Hframe | intros e [c1 w1] Hframe ];
             destruct Hframe as (Hc & _ & _ & _ & _ & Hfl & _);
             cbn [fst snd flocks set_flocks set_files set_sftp_objects set_sftp_cache
                  set_ssh_cache] in *;
             wp_go; unfold Q, lockfile_of;
             cbn [fst snd flocks set_flocks set_stderr set_ssh_objects];
             rewrite Hfl;
             (split;
              [ intros p Hp; apply elem_of_difference in Hp as [Hp Hne];
                apply elem_of_union in Hp as [Hp|Hp]; [by destruct Hne | done]
              | intros kf Hkf _ _; simplify_eq;
                apply not_elem_of_difference; right; by apply elem_of_singleton ])
         end. }
  unfold wp in Hwp. rewrite Hclose in Hwp. by destruct r.
Qed.

(** X12. A Connection that got its session from the cache has no [keyfile]:
    [connect] sets none on a hit, only [_connect_uncached] does. Its [close]
    removes the entries of the pair from both caches and then raises an
    [AttributeError] at [self.keyfile]: the lock is not taken, nothing is
    written or printed, and the session that it shares is left open. *)
Theorem close_after_cached_connect (env1 env2 : Env) (c : Connection) (w : Process)
    (s : nat) :
  keyfile c = None ->
  sftp c = None ->
  SSH_CONNECTION_CACHE w !! cache_key_of (host c) (user c) = Some s ->
  exists c1 w' name,
    connect env1 (c, w) = (Ok tt, (c1, w))
    /\ ssh c1 = Some s
    /\ close env2 (c1, w) = (Raise (AttributeError name), (c1, w'))
    /\ SSH_CONNECTION_CACHE w' = delete (cache_key_of (host c) (user c)) (SSH_CONNECTION_CACHE w)
    /\ SFTP_CONNECTION_CACHE w' = delete (cache_key_of (host c) (user c)) (SFTP_CONNECTION_CACHE w)
    /\ ssh_objects w' = ssh_objects w
    /\ sftp_objects w' = sftp_objects w
    /\ files w' = files w
    /\ flocks w' = flocks w
    /\ stderr w' = stderr w.
Proof.
  intros Hkf Hsftp Hhit. eexists _, _, _. split; [by apply connect_cached|].
  split; [done|]. unfold close, _cache_key, attr, own_attr, self, update_process, modify, bind, ret,
    raise.
  cbn [fst snd set_ssh sftp keyfile host user]. rewrite Hsftp. cbn [fst snd].
  change (keyfile (set_ssh (Some s) c)) with (keyfile c). rewrite Hkf.
  split; [reflexivity|]. by repeat split.
Qed.

End Closing.

(** ** File transfer, when it fails and when it starts from nothing *)

Section Transfers.

Lemma exists_true (path : string) (w : Process) :
  path ∈ dirs w \/ is_Some (files w !! path) ->
  bool_decide (path ∈ dirs w) || bool_decide (is_Some (files w !! path)) = true.
Proof.
  intros [H|H].
  - by rewrite (bool_decide_eq_true_2 _ H).
  - by rewrite (bool_decide_eq_true_2 _ H), orb_true_r.
Qed.

(** X13. [put_file] with a source that exists, on a connected session. When
    [open_sftp] raises, the caller gets an [AnsibleError] that carries the
    text of the exception, and nothing has changed. When the channel opens
    and [put] raises an [IOError], the caller gets an [AnsibleError] that
    names the destination; the channel that was opened for the transfer is
    kept in [self.sftp] and is not closed, and no transfer has taken place. *)
Theorem put_file_wraps_failures (env : Env) (in_path out_path : string)
    (c : Connection) (w : Process) (s : nat) :
  in_path ∈ dirs w \/ is_Some (files w !! in_path) ->
  ssh c = Some s ->
  (forall msg,
     open_sftp_raises env = Some msg ->
     put_file env in_path out_path (c, w)
     = (Raise (AnsibleError ("failed to open a SFTP connection (" +:+ msg +:+ ")")), (c, w)))
  /\ (open_sftp_raises env = None ->
      sftp_put_ioerror env = true ->
      put_file env in_path out_path (c, w)
      = (Raise (AnsibleError ("failed to transfer file to " +:+ out_path)),
         (set_sftp (Some (length (sftp_objects w))) c,
          set_sftp_objects
            (fun l => l ++ [{| sftp_session := s; sftp_closed := false |}]) w))).
Proof.
  intros Hfound Hssh. apply exists_true in Hfound. split.
  - intros msg Hopen.
    unfold put_file, os_path_exists, attr, open_sftp, self, process, try_except, bind, ret,
      raise.
    cbn [fst snd]. rewrite Hfound. cbn [negb fst snd]. rewrite Hssh, Hopen. reflexivity.
  - intros Hopen Hput.
    unfold put_file, os_path_exists, attr, open_sftp, sftp_put, self, process, set_self,
      update_process, modify, try_except, bind, ret, raise.
    cbn [fst snd]. rewrite Hfound. cbn [negb fst snd]. rewrite Hssh, Hopen.
    cbn [fst snd set_sftp sftp]. rewrite Hput. reflexivity.
Qed.

(** X14. [fetch_file] when the cache has no channel for the pair and [connect]
    succeeds: the session that [connect] gives gets one new channel, which is
    registered under the key of the pair and used for the transfer; and any
    Connection of the same host and user that calls [fetch_file] afterwards
    transfers on that very channel, without a [connect] and without opening
    another. *)
Theorem fetch_file_opens_one_channel (env : Env) (in_path out_path : string)
    (c c1 : Connection) (w w1 : Process) :
  SFTP_CONNECTION_CACHE w !! cache_key_of (host c) (user c) = None ->
  connect env (c, w) = (Ok tt, (c1, w1)) ->
  open_sftp_raises env = None ->
  sftp_get_ioerror env = false ->
  let ch := length (sftp_objects w1) in
  exists s w',
    ssh c1 = Some s
    /\ fetch_file env in_path out_path (c, w) = (Ok tt, (set_sftp (Some ch) c1, w'))
    /\ sftp_objects w' = sftp_objects w1 ++ [{| sftp_session := s; sftp_closed := false |}]
    /\ SFTP_CONNECTION_CACHE w'
       = <[cache_key_of (host c) (user c) := ch]> (SFTP_CONNECTION_CACHE w1)
    /\ transfers w' = transfers w1 ++ [Get ch in_path out_path]
    /\ ssh_objects w' = ssh_objects w1
    /\ forall env2 in2 out2 c2,
         host c2 = host c -> user c2 = user c ->
         sftp_get_ioerror env2 = false ->
         fetch_file env2 in2 out2 (c2, w')
         = (Ok tt, (set_sftp (Some ch) c2,
                    set_transfers (fun t => t ++ [Get ch in2 out2]) w')).
Proof.
  intros Hmiss Hconn Hopen Hget ch.
  assert (exists s, ssh c1 = Some s) as [s Hs].
  { pose proof (connect_spec env c w) as Hwp. unfold wp in Hwp. rewrite Hconn in Hwp.
    cbn [fst snd] in Hwp.
    destruct (SSH_CONNECTION_CACHE w !! cache_key_of (host c) (user c)).
    - injection Hwp as -> _. by eexists.
    - destruct Hwp as [? _]. by eexists. }
  exists s. eexists. split; [done|]. unfold cache_key_of in *. split.
  - unfold fetch_file, _connect_sftp.
    unfold try_except at 1. unfold bind at 1. unfold bind at 1.
    unfold self at 1. unfold bind at 1. unfold process, ret at 1. cbn [fst snd].
    unfold bind at 1. cbn [fst snd]. rewrite Hmiss. unfold bind at 1. rewrite Hconn.
    unfold attr, open_sftp, sftp_get, self, process, set_self, update_process, modify,
      try_except, bind, ret, raise.
    cbn [fst snd]. rewrite Hs, Hopen. cbn [fst snd set_sftp sftp]. rewrite Hget.
    reflexivity.
  - cbn [sftp_objects SFTP_CONNECTION_CACHE transfers ssh_objects set_transfers
         set_sftp_cache set_sftp_objects].
    repeat (split; [reflexivity|]).
    intros env2 in2 out2 c2 Hh Hu Hget2.
    unfold fetch_file, _connect_sftp, attr, sftp_get, self, process, set_self,
      update_process, modify, try_except, bind, ret, raise.
    cbn [fst snd SFTP_CONNECTION_CACHE set_transfers set_sftp_cache set_sftp_objects].
    rewrite Hh, Hu, lookup_insert_eq. cbn [fst snd set_sftp sftp]. rewrite Hget2.
    reflexivity.
Qed.

End Transfers.

(** ** Closing a session that accepted a key *)

Section Persisting.

(** The [try] block of [close] when the known hosts can be read: they are
    merged into the collection of the session, which is then saved. *)
Lemma close_try_body_merges env kf c w a o es :
  ssh c = Some a ->
  ssh_objects w !! a = Some o ->
  system_host_keys_read env = Ok es ->
  exists w2,
    close_try_body env kf (c, w) = _save_ssh_host_keys env kf (c, w2)
    /\ ssh_objects w2 !! a = Some (merged_session es o (ssh_closed o))
    /\ files w2 = files w
    /\ stderr w2 = stderr w.
Proof.
  intros Hssh Hobj Hread.
  exists (set_ssh_objects
            (alter (with_host_keys (fun hk => HostKeys.update hk (reread es o))) a)
            (set_ssh_objects (alter (with_system_host_keys (HostKeys.load es)) a) w)).
  split; [|split; [|done]].
  - unfold close_try_body, attr, load_system_host_keys, ssh_object.
    rewrite Hread.
    unfold self, process, update_process, modify, bind, ret. cbn [fst snd].
    rewrite Hssh. cbn [fst snd ssh_objects set_ssh_objects].
    rewrite list_lookup_alter_eq, Hobj.
    cbn [fmap option_fmap option_map fst snd with_system_host_keys _system_host_keys].
    reflexivity.
  - cbn [ssh_objects set_ssh_objects]. by rewrite !list_lookup_alter_eq, Hobj.
Qed.

Lemma save_nothing_tagged env filename c w a o :
  ssh c = Some a ->
  ssh_objects w !! a = Some o ->
  newly_accepted (_host_keys o) = [] ->
  _save_ssh_host_keys env filename (c, w) = (Ok tt, (c, w)).
Proof.
  intros Hssh Hobj Hnone.
  assert (any_added (_host_keys o) = false) as Hany.
  { destruct (any_added (_host_keys o)) eqn:E; [|done]. by apply any_added_spec in E. }
  unfold _save_ssh_host_keys, attr, ssh_object, self, process.
  unfold bind at 1. unfold bind at 1. cbn [fst snd]. rewrite Hssh.
  unfold ret at 1. unfold bind at 1. unfold bind at 1. cbn [fst snd]. rewrite Hobj.
  unfold ret at 1. by rewrite Hany.
Qed.

(** [close] when the lock can be taken and the [try] block returns. *)
Lemma close_runs env c w kf a o o2 (after : gmap string string -> gmap string string) :
  keyfile c = Some kf ->
  ssh c = Some a ->
  ssh_objects w !! a = Some o ->
  open_denied env (lockfile_of kf) = false ->
  flock_denied env = false ->
  (forall w0, ssh_objects w0 !! a = Some o ->
     exists w1, close_try_body env kf (c, w0) = (Ok tt, (c, w1))
                /\ files w1 = after (files w0)
                /\ ssh_objects w1 !! a = Some o2
                /\ stderr w1 = stderr w0) ->
  exists w',
    close env (c, w) = (Ok tt, (c, w'))
    /\ files w' = after (<[lockfile_of kf := EmptyString]> (files w))
    /\ stderr w' = stderr w
    /\ ssh_objects w' !! a = Some (with_ssh_closed o2).
Proof.
  intros Hkf Hssh Hobj Hlopen Hflock Hbody. unfold lockfile_of in *.
  set (post := fun (_ : unit) (st' : St) =>
    fst st' = c
    /\ files (snd st')
       = after (<[Py.replace kf "known_hosts" ".known_hosts.lock" := EmptyString]> (files w))
    /\ stderr (snd st') = stderr w
    /\ ssh_objects (snd st') !! a = Some (with_ssh_closed o2)).
  assert (wp (close env) post (fun _ _ => False) (c, w)) as Hwp.
  { unfold close. wp_to_try; try congruence.
    all: simplify_eq.
    all: match goal with
         | |- wp (try_except _ _) _ _ (_, ?W0) =>
             assert (ssh_objects W0 !! a = Some o) as Hobj0 by exact Hobj;
             assert (files W0
                     = <[Py.replace kf "known_hosts" ".known_hosts.lock" := EmptyString]>
                         (files w)) as Hfiles0 by reflexivity;
             assert (stderr W0 = stderr w) as Herr0 by reflexivity;
             destruct (Hbody W0 Hobj0) as (w1 & Hrun & Hfiles & Hobj1 & Herr1);
             apply wp_try_except; eapply wp_mono;
               [ exact (wp_result (close_try_body env kf) (c, W0))
               | intros ? [c1' w1'] Hres | intros e [c1' w1'] Hres ];
             rewrite Hrun in Hres; simplify_eq;
             wp_go; try congruence; simplify_eq; unfold post;
             cbn [fst snd files stderr ssh_objects set_flocks set_ssh_objects];
             rewrite Hfiles, Hfiles0, Herr1, Herr0, list_lookup_alter_eq, Hobj1;
             done
         end. }
  unfold wp in Hwp. destruct (close env (c, w)) as [[[]|e] [c' w']]; [|done].
  destruct Hwp as (Hc & H1 & H2 & H3). cbn [fst snd] in *. subst c'.
  by exists w'.
Qed.

(** X15. [close] on a connected session, when the lock can be taken and the
    known hosts can be read. The known hosts are read again into the system
    host keys of the session, which keep what they showed and show, for a
    host and a key type that they did not have, the first line of the file
    for them; they are then merged into the collection of the session: where
    they have a key for a host and a key type, that key replaces the one of
    the session. So a key accepted
    during the session stays tagged exactly when the known hosts as read
    again have no key for its host and type. If a tagged key is left and the
    file can be written, [close] returns, nothing is printed and the
    known-hosts file holds the merged collection, the tagged entries after
    all the others; no file other than the known-hosts file and the lock
    file is touched. If no tagged key is left, [close] returns and only the
    lock file is touched. In both cases the session is closed. *)
Theorem close_persists_accepted_keys (env : Env) (c : Connection) (w : Process)
    (kf : string) (a : nat) (o : SSHClient) (es : list (string * string * string)) :
  keyfile c = Some kf ->
  ssh c = Some a ->
  ssh_objects w !! a = Some o ->
  system_host_keys_read env = Ok es ->
  open_denied env (lockfile_of kf) = false ->
  flock_denied env = false ->
  (forall h t,
     shown (reread es o) h t
     = match shown (_system_host_keys o) h t with
       | Some k => Some k
       | None => shown (HostKeys.parsed <$> es) h t
       end)
  /\ (forall h t,
        shown (merged es o) h t
        = match shown (reread es o) h t with
          | Some k => Some k
          | None => shown (_host_keys o) h t
          end)
  /\ (untagged (_system_host_keys o) ->
      forall e, e ∈ newly_accepted (merged es o)
                <-> e ∈ newly_accepted (_host_keys o)
                    /\ shown (reread es o) (fst (fst e)) (snd (fst e)) = None)
  /\ (newly_accepted (merged es o) <> [] ->
      makedirs_denied env = false ->
      open_denied env kf = false ->
      (forall written data, write_denied env written data = false) ->
      close_denied env = false ->
      exists w',
        close env (c, w) = (Ok tt, (c, w'))
        /\ files w' !! kf
           = Some (join (entry_line <$> pre_existing (merged es o))
                   +:+ join (entry_line <$> newly_accepted (merged es o)))
        /\ (forall p, p <> kf -> p <> lockfile_of kf -> files w' !! p = files w !! p)
        /\ stderr w' = stderr w
        /\ ssh_objects w' !! a = Some (merged_session es o true))
  /\ (newly_accepted (merged es o) = [] ->
      exists w',
        close env (c, w) = (Ok tt, (c, w'))
        /\ files w' = <[lockfile_of kf := EmptyString]> (files w)
        /\ stderr w' = stderr w
        /\ ssh_objects w' !! a = Some (merged_session es o true)).
Proof.
  intros Hkf Hssh Hobj Hread Hlopen Hflock.
  split; [|split; [|split; [|split]]].
  - intros h t. apply shown_load.
  - intros h t. apply shown_update.
  - intros Hsys [[h t] k]. cbn [fst snd]. unfold newly_accepted.
    rewrite !list_elem_of_filter, !elem_of_entries. unfold merged.
    rewrite shown_update. unfold added. cbn [snd].
    assert (untagged (reread es o)) as Hre by (by apply load_untagged).
    destruct (shown (reread es o) h t) as [k0|] eqn:Hs.
    + split.
      * intros [Htag [= <-]].
        pose proof (proj1 (untagged_shown _) Hre h t k0 Hs). congruence.
      * by intros [_ ?].
    + split; [by intros [? ?] | by intros [[? ?] _]].
  - intros Hnew Hmk Hopen Hwrite Hclose.
    destruct (close_runs env c w kf a o (merged_session es o (ssh_closed o))
                (insert kf (join (entry_line <$> pre_existing (merged es o))
                            +:+ join (entry_line <$> newly_accepted (merged es o))))
                Hkf Hssh Hobj Hlopen Hflock) as (w' & Hrun & Hfiles & Herr & Hobj').
    { intros w0 Hobj0.
      destruct (close_try_body_merges env kf c w0 a o es Hssh Hobj0 Hread)
        as (w2 & -> & Hobj2 & Hfiles2 & Herr2).
      destruct (save_tagged_run env kf c w2 a _ Hssh Hobj2 Hnew Hmk Hopen Hwrite Hclose)
        as (w1 & Hsave & Hf1 & Ho1 & _ & He1).
      exists w1. split; [exact Hsave|]. cbn [_host_keys merged_session] in Hf1.
      split; [by rewrite Hf1, Hfiles2|]. split; [by rewrite Ho1|]. by rewrite He1. }
    exists w'. split; [exact Hrun|]. split; [by rewrite Hfiles, lookup_insert_eq|].
    split; [|done]. intros p Hp1 Hp2. by rewrite Hfiles, !lookup_insert_ne.
  - intros Hnone.
    destruct (close_runs env c w kf a o (merged_session es o (ssh_closed o)) id
                Hkf Hssh Hobj Hlopen Hflock) as (w' & Hrun & Hfiles & Herr & Hobj').
    { intros w0 Hobj0.
      destruct (close_try_body_merges env kf c w0 a o es Hssh Hobj0 Hread)
        as (w2 & -> & Hobj2 & Hfiles2 & Herr2).
      exists w2. split; [|done].
      by apply (save_nothing_tagged env kf c w2 a _ Hssh Hobj2). }
    by exists w'.
Qed.

End Persisting.

(** ** After a [connect] that failed *)

Section AfterFailure.

(** X16. A [connect] that fails at the handshake has set [self.keyfile] and
    left [self.ssh] unassigned. A [close] that follows creates and takes the
    lock, prints the [AttributeError] that the [try] block raises at
    [self.ssh], releases the lock, and then raises an [AttributeError] itself
    at [self.ssh.close()]: the SSHClient that [connect] had built is never
    closed. *)
Theorem close_after_failed_connect (env1 env2 : Env) (c : Connection) (w : Process)
    (es : list (string * string * string)) (msg : string) :
  ssh c = None ->
  sftp c = None ->
  SSH_CONNECTION_CACHE w !! cache_key_of (host c) (user c) = None ->
  HAVE_PARAMIKO env1 = true ->
  (HOST_KEY_CHECKING env1 = true -> system_host_keys_read env1 = Ok es) ->
  handshake_of env1 c = ConnectRaises msg ->
  open_denied env2 (lockfile_of (expanduser env1 "~/.ssh/known_hosts")) = false ->
  flock_denied env2 = false ->
  exists e c' w1 w2 printed_name raised_name,
    connect env1 (c, w) = (Raise e, (c', w1))
    /\ close env2 (c', w1) = (Raise (AttributeError raised_name), (c', w2))
    /\ stderr w2 = stderr w ++ [AttributeError printed_name]
    /\ files w2
       = <[lockfile_of (expanduser env1 "~/.ssh/known_hosts") := EmptyString]> (files w)
    /\ (lockfile_of (expanduser env1 "~/.ssh/known_hosts") ∉ flocks w2)
    /\ ssh_objects w2 = ssh_objects w ++ [new_session env1 c es None].
Proof.
  intros Hssh Hsftp Hmiss Hparamiko Hread Hshake Hopen Hflock. unfold lockfile_of in *.
  set (kf := expanduser env1 "~/.ssh/known_hosts") in *.
  set (c' := set_keyfile (Some kf) c).
  assert (keyfile c' = Some kf) as Hkf' by reflexivity.
  assert (sftp c' = None) as Hsftp' by exact Hsftp.
  assert (ssh c' = None) as Hssh' by exact Hssh.
  assert (cache_key_of (host c') (user c') = cache_key_of (host c) (user c)) as Hkey
    by reflexivity.
  eexists (connect_failure c msg), c', _, _, _, _. split.
  { unfold connect, _cache_key, self, process. unfold bind at 1. unfold bind at 1.
    unfold ret at 1. cbn [fst snd]. unfold bind at 1. cbn [fst snd]. rewrite Hmiss.
    unfold bind at 1.
    rewrite (connect_uncached_handshake_fails env1 c w es msg) by done. reflexivity. }
  split.
  { unfold close, _cache_key, attr, own_attr, self, process, open_w, flock_EX, flock_UN, print_exc,
      update_process, modify, try_except, bind, ret, raise.
    cbn [fst snd]. rewrite Hsftp'. cbn [fst snd]. rewrite Hkf'. cbn [fst snd].
    rewrite Hopen. cbn [fst snd]. rewrite Hflock. cbn [fst snd]. rewrite Hssh'.
    cbn [fst snd]. rewrite Hssh'. reflexivity. }
  cbn [stderr files flocks ssh_objects set_stderr set_flocks set_files set_sftp_cache
       set_ssh_cache set_ssh_objects].
  split; [reflexivity|]. split; [reflexivity|]. split; [|reflexivity].
  apply not_elem_of_difference. right. by apply elem_of_singleton.
Qed.

End AfterFailure.

(** ** The directory of the known hosts *)

Section Directory.

Lemma write_entries_keeps_dirs env f tagged hk (c : Connection) (D : gset string) st :
  fst st = c /\ dirs (snd st) = D ->
  wp (write_entries env f tagged hk)
     (fun _ st' => fst st' = c /\ dirs (snd st') = D)
     (fun _ st' => fst st' = c /\ dirs (snd st') = D) st.
Proof.
  intros Hst. unfold write_entries. apply wp_for; [|done].
  intros [hostname keys] st1 Hst1. apply wp_for; [|done].
  intros [keytype key] [c2 w2] Hst2. wp_go; done.
Qed.

(** X17. [_save_ssh_host_keys] with a key to save, when [~/.ssh] does not
    exist: if the directory cannot be created, the [OSError] of [makedirs]
    comes out and nothing at all has changed, the known-hosts file not having
    been opened; if it can, it has been created however the writing of the
    file ends. *)
Theorem save_makes_ssh_directory (env : Env) (filename : string) (c : Connection)
    (w : Process) (a : nat) (o : SSHClient) :
  ssh c = Some a ->
  ssh_objects w !! a = Some o ->
  newly_accepted (_host_keys o) <> [] ->
  expanduser env "~/.ssh" ∉ dirs w ->
  files w !! expanduser env "~/.ssh" = None ->
  (makedirs_denied env = true ->
   _save_ssh_host_keys env filename (c, w)
   = (Raise (OSError (expanduser env "~/.ssh")), (c, w)))
  /\ (makedirs_denied env = false ->
      exists r w',
        _save_ssh_host_keys env filename (c, w) = (r, (c, w'))
        /\ dirs w' = {[ expanduser env "~/.ssh" ]} ∪ dirs w).
Proof.
  intros Hssh Hobj Hnew Hdir Hfile. apply any_added_spec in Hnew.
  assert (bool_decide (expanduser env "~/.ssh" ∈ dirs w)
          || bool_decide (is_Some (files w !! expanduser env "~/.ssh")) = false) as Hfound.
  { rewrite (bool_decide_eq_false_2 _ Hdir), Hfile.
    by rewrite bool_decide_eq_false_2 by (by intros [? ?]). }
  split.
  - intros Hmk.
    unfold _save_ssh_host_keys, attr, ssh_object, self, process, os_path_exists,
      os_makedirs.
    unfold bind at 1. unfold bind at 1. cbn [fst snd]. rewrite Hssh.
    unfold ret at 1. unfold bind at 1. unfold bind at 1. cbn [fst snd]. rewrite Hobj.
    unfold ret at 1. rewrite Hnew. cbn [negb]. rewrite Hmk.
    unfold bind at 1. unfold bind at 1. unfold bind at 1. unfold process, ret at 1.
    cbn [fst snd]. rewrite Hfound. reflexivity.
  - intros Hmk.
    assert (wp (_save_ssh_host_keys env filename)
              (fun _ st' => fst st' = c
                            /\ dirs (snd st') = {[ expanduser env "~/.ssh" ]} ∪ dirs w)
              (fun _ st' => fst st' = c
                            /\ dirs (snd st') = {[ expanduser env "~/.ssh" ]} ∪ dirs w)
              (c, w)) as Hwp.
    { unfold _save_ssh_host_keys. wp_go; simplify_eq; try congruence.
      all: try match goal with
               | H : negb (any_added _) = true |- _ => rewrite Hnew in H; discriminate H
               | H : negb (_ || _) = false |- _ => rewrite Hfound in H; discriminate H
               end.
      all: try (split; reflexivity).
      all: eapply wp_mono; [apply write_entries_keeps_dirs; done | | done].
      all: intros ? [c1 w1] H1; cbn beta; wp_go.
      all: eapply wp_mono; [apply write_entries_keeps_dirs; done | | done].
      all: intros ? [c2 w2] H2; cbn beta; by wp_go. }
    unfold wp in Hwp.
    destruct (_save_ssh_host_keys env filename (c, w)) as [r [c' w']].
    assert (c' = c /\ dirs w' = {[ expanduser env "~/.ssh" ]} ∪ dirs w) as [-> Hdirs]
      by (by destruct r).
    by exists r, w'.
Qed.

End Directory.

(** ** The further properties on sample runs *)

Lemma connect_miss_builds_session_witness :
  connect Sample.env (Scenario.high_port, Sample.start)
  = (Ok tt,
     (set_ssh (Some (length (ssh_objects Sample.start)))
        (set_keyfile (Some (expanduser Sample.env "~/.ssh/known_hosts"))
           Scenario.high_port),
      set_ssh_cache
        (insert (cache_key_of (host Scenario.high_port) (user Scenario.high_port))
           (length (ssh_objects Sample.start)))
        (set_ssh_objects
           (fun l => l ++ [new_session Sample.env Scenario.high_port Scenario.entries
                             (Some Sample.server_key)])
           Sample.start)))
  /\ HostKeys.entries
       (_host_keys (new_session Sample.env Scenario.high_port Scenario.entries
                      (Some Sample.server_key)))
     = [("[gamma]:2222", "ssh-rsa", MyAutoAddPolicy.tag Sample.server_key)].
Proof.
  destruct (connect_miss_builds_session Sample.env Scenario.high_port Sample.start
              Scenario.entries (Some Sample.server_key))
    as (Hrun & Hkey & _).
  - vm_compute. reflexivity.
  - reflexivity.
  - intros _. reflexivity.
  - reflexivity.
  - split; [exact Hrun|]. rewrite (Hkey _ eq_refl). vm_compute. reflexivity.
Defined.

Lemma connect_classifies_handshake_failure_witness :
  exists e c' w',
    connect Scenario.encrypted_key (Sample.conn, Sample.start) = (Raise e, (c', w'))
    /\ ssh c' = None
    /\ SSH_CONNECTION_CACHE w' = ∅
    /\ e = AnsibleConnectionFailed
             ("ssh " +:+ "op" +:+ "@" +:+ "gamma" +:+ ":" +:+ pretty 22%Z +:+ " : "
              +:+ "Private key file is encrypted" +:+ "
To connect as a different user, use -u <username>.").
Proof.
  destruct (connect_classifies_handshake_failure Scenario.encrypted_key Sample.conn
              Sample.start Scenario.entries "Private key file is encrypted")
    as (e & c' & w' & Hrun & Hssh & Hcache & _ & _ & Henc & _).
  - vm_compute. reflexivity.
  - reflexivity.
  - intros _. reflexivity.
  - reflexivity.
  - exists e, c', w'. split; [exact Hrun|]. split; [exact Hssh|]. split; [exact Hcache|].
    apply Henc.
    + intros H. apply contains_spec in H. vm_compute in H. discriminate H.
    + by exists EmptyString, EmptyString.
Defined.

Lemma connect_fails_before_handshake_witness :
  connect Scenario.no_paramiko (Sample.conn, Sample.start)
  = (Raise (AnsibleError "paramiko is not installed"), (Sample.conn, Sample.start)).
Proof.
  destruct (connect_fails_before_handshake Scenario.no_paramiko Sample.conn Sample.start)
    as [Hnone _].
  - vm_compute. reflexivity.
  - apply Hnone. reflexivity.
Defined.

Lemma exec_direct_mode_witness :
  exists chan',
    exec_command Sample.quote Sample.make_sudo_cmd Scenario.plain Sample.env
      (Ok Scenario.output_only) "id" "/tmp" "root" true (Some "/bin/sh")
    = (Ok (0%Z, EmptyString, "uid=0(root)", EmptyString), Some chan')
    /\ pty chan' = None
    /\ sent chan' = []
    /\ command chan' = Some "/bin/sh -c 'id'".
Proof.
  destruct (exec_direct_mode Sample.quote Sample.make_sudo_cmd Scenario.plain Sample.env
              Scenario.output_only "id" "/tmp" "root" true (Some "/bin/sh")
              ["uid=0"; "(root)"] [])
    as (chan' & Hrun & Hpty & Hsent & Hcmd & _).
  - by left.
  - reflexivity.
  - repeat constructor; discriminate.
  - by left.
  - exists chan'. split; [exact Hrun|]. split; [exact Hpty|]. split; [exact Hsent|].
    exact Hcmd.
Defined.

Lemma exec_sudo_without_password_witness :
  exists chan',
    exec_command Sample.quote Sample.make_sudo_cmd Scenario.passwordless Sample.env
      (Ok Sample.prompted) "id" "/tmp" "root" true (Some "/bin/sh")
    = (Ok (0%Z, EmptyString, "[sudo] password: uid=0(root)", EmptyString), Some chan')
    /\ pty chan' = Some ("vt100", 0%Z, 0%Z)
    /\ sent chan' = [].
Proof.
  destruct (exec_sudo_without_password Sample.quote Sample.make_sudo_cmd
              Scenario.passwordless Sample.env Sample.prompted "id" "/tmp" "root"
              (Some "/bin/sh") 0 0 ["[sudo] pass"; "word: "; "uid=0(root)"] [])
    as (chan' & Hrun & Hpty & _ & Hsent & _).
  - reflexivity.
  - reflexivity.
  - left. split; reflexivity.
  - left. split; reflexivity.
  - reflexivity.
  - repeat constructor; discriminate.
  - by left.
  - exists chan'. split; [exact Hrun|]. split; [exact Hpty | exact Hsent].
Defined.

Lemma prompt_wait_times_out_witness :
  exists chan',
    exec_command Sample.quote Sample.make_sudo_cmd Sample.conn Sample.env
      (Ok Scenario.stalled) "id" "/tmp" "root" true (Some "/bin/sh")
    = (Raise (AnsibleError ("ssh timed out waiting for sudo.
" +:+ "[sudo] pass")), Some chan')
    /\ sent chan' = [].
Proof.
  destruct (prompt_wait_times_out Sample.quote Sample.make_sudo_cmd Sample.conn Sample.env
              Scenario.stalled "id" "/tmp" "root" (Some "/bin/sh") "s3cret" 0 0
              ["[sudo] pass"] [])
    as (chan' & Hrun & Hsent & _).
  - reflexivity.
  - reflexivity.
  - discriminate.
  - left. split; reflexivity.
  - left. split; reflexivity.
  - reflexivity.
  - split; [repeat constructor; discriminate|].
    intros k Hk. apply ends_with_false.
    destruct k as [|[|k]]; [reflexivity | reflexivity | cbn in Hk; lia].
  - exists chan'. split; [exact Hrun | exact Hsent].
Defined.

Lemma exec_sudo_returns_output_after_prompt_witness :
  exists chan',
    exec_command Sample.quote Sample.make_sudo_cmd Sample.conn Sample.env
      (Ok Sample.prompted) "id" "/tmp" "root" true (Some "/bin/sh")
    = (Ok (0%Z, EmptyString, "uid=0(root)", EmptyString), Some chan')
    /\ sent chan' = ["s3cret
"].
Proof.
  destruct (exec_sudo_returns_output_after_prompt Sample.quote Sample.make_sudo_cmd
              Sample.conn Sample.env Sample.prompted "id" "/tmp" "root" (Some "/bin/sh")
              "s3cret" 0 0 ["[sudo] pass"; "word: "] ["uid=0(root)"] [])
    as (chan' & Hrun & Hsent & _).
  - reflexivity.
  - reflexivity.
  - discriminate.
  - left. split; reflexivity.
  - left. split; reflexivity.
  - reflexivity.
  - split; [by exists EmptyString|].
    intros n Hn. injection Hn as <-. split; [repeat constructor; discriminate|].
    intros k Hk. apply ends_with_false.
    destruct k as [|[|k]]; [reflexivity | reflexivity | lia].
  - repeat constructor; discriminate.
  - by left.
  - exists chan'. split; [exact Hrun | exact Hsent].
Defined.

Lemma drain_timeout_is_not_wrapped_witness :
  exists chan',
    exec_command Sample.quote Sample.make_sudo_cmd Sample.conn Sample.env
      (Ok Scenario.stalled_after_prompt) "id" "/tmp" "root" true (Some "/bin/sh")
    = (Raise socket_timeout, Some chan')
    /\ sent chan' = ["s3cret
"].
Proof.
  destruct (drain_timeout_is_not_wrapped Sample.quote Sample.make_sudo_cmd
              Sample.conn Sample.env Scenario.stalled_after_prompt "id" "/tmp" "root"
              (Some "/bin/sh") "s3cret" 0 0 ["[sudo] password: "] ["uid=0"] [])
    as (chan' & Hrun & Hsent).
  - reflexivity.
  - reflexivity.
  - discriminate.
  - left. split; reflexivity.
  - left. split; reflexivity.
  - reflexivity.
  - split; [by exists EmptyString|].
    intros n Hn. injection Hn as <-. split; [repeat constructor; discriminate|].
    intros k Hk. apply ends_with_false.
    destruct k as [|k]; [reflexivity | lia].
  - repeat constructor; discriminate.
  - exists chan'. split; [exact Hrun | exact Hsent].
Defined.


Lemma close_never_keeps_lock_witness :
  flocks (snd (snd (close Sample.env (fst Sample.merged, snd Sample.merged)))) = ∅.
Proof.
  apply elem_of_equiv_empty_L. intros p Hp.
  destruct (close_never_keeps_lock Sample.env (fst Sample.merged) (snd Sample.merged)
              (fst (close Sample.env (fst Sample.merged, snd Sample.merged)))
              (fst (snd (close Sample.env (fst Sample.merged, snd Sample.merged))))
              (snd (snd (close Sample.env (fst Sample.merged, snd Sample.merged)))))
    as [Hheld _].
  - by destruct (close Sample.env (fst Sample.merged, snd Sample.merged)) as [r [c' w']].
  - apply Hheld in Hp. by apply not_elem_of_empty in Hp.
Defined.

Lemma close_after_cached_connect_witness :
  exists c1 w' name,
    connect Sample.env (Sample.conn, snd Sample.connected)
    = (Ok tt, (c1, snd Sample.connected))
    /\ ssh c1 = Some O
    /\ close Sample.env (c1, snd Sample.connected) = (Raise (AttributeError name), (c1, w'))
    /\ ssh_objects w' = ssh_objects (snd Sample.connected).
Proof.
  destruct (close_after_cached_connect Sample.env Sample.env Sample.conn
              (snd Sample.connected) O)
    as (c1 & w' & name & Hconn & Hssh & Hclose & _ & _ & Hobjs & _).
  - reflexivity.
  - reflexivity.
  - vm_compute. reflexivity.
  - exists c1, w', name. split; [exact Hconn|]. split; [exact Hssh|].
    split; [exact Hclose | exact Hobjs].
Defined.

Lemma put_file_wraps_failures_witness :
  put_file Scenario.sftp_refused "/tmp/module" "/tmp/m"
    (fst Sample.connected, snd Sample.connected)
  = (Raise (AnsibleError ("failed to open a SFTP connection (" +:+ "EOF during negotiation"
                          +:+ ")")),
     (fst Sample.connected, snd Sample.connected)).
Proof.
  destruct (put_file_wraps_failures Scenario.sftp_refused "/tmp/module" "/tmp/m"
              (fst Sample.connected) (snd Sample.connected) O) as [Hopen _].
  - right. vm_compute. by eexists.
  - vm_compute. reflexivity.
  - apply Hopen. reflexivity.
Defined.

Lemma fetch_file_opens_one_channel_witness :
  exists s w',
    ssh (fst Sample.connected) = Some s
    /\ fetch_file Sample.env "/etc/motd" "/tmp/f1" (Sample.conn, Sample.start)
       = (Ok tt, (set_sftp (Some (length (sftp_objects (snd Sample.connected))))
                    (fst Sample.connected), w'))
    /\ transfers w'
       = transfers (snd Sample.connected)
         ++ [Get (length (sftp_objects (snd Sample.connected))) "/etc/motd" "/tmp/f1"].
Proof.
  destruct (fetch_file_opens_one_channel Sample.env "/etc/motd" "/tmp/f1" Sample.conn
              (fst Sample.connected) Sample.start (snd Sample.connected))
    as (s & w' & Hs & Hrun & _ & _ & Htr & _).
  - vm_compute. reflexivity.
  - vm_compute. reflexivity.
  - reflexivity.
  - reflexivity.
  - exists s, w'. split; [exact Hs|]. split; [exact Hrun | exact Htr].
Defined.

Lemma close_persists_accepted_keys_witness :
  (exists w',
     close Sample.env (fst Sample.merged, snd Sample.merged)
     = (Ok tt, (fst Sample.merged, w'))
     /\ files w' !! Sample.known_hosts = Some "alpha ssh-rsa AAAA
beta ssh-dss BBBB
gamma ssh-rsa CCCC
"
     /\ stderr w' = [])
  /\ (exists w',
        close (Sample.env_with (fun _ => false) (Ok Scenario.recorded_elsewhere))
          (fst Sample.merged, snd Sample.merged)
        = (Ok tt, (fst Sample.merged, w'))
        /\ files w' !! Sample.known_hosts
           = files (snd Sample.merged) !! Sample.known_hosts
        /\ stderr w' = []).
Proof.
  split.
  - destruct (close_persists_accepted_keys Sample.env (fst Sample.merged)
                (snd Sample.merged) Sample.known_hosts O Sample.merged_client
                Scenario.entries)
      as (_ & _ & _ & Hsave & _); try reflexivity.
    destruct Hsave as (w' & Hrun & Hfile & _ & Herr & _).
    + vm_compute. discriminate.
    + reflexivity.
    + reflexivity.
    + intros written data. reflexivity.
    + reflexivity.
    + exists w'. split; [exact Hrun|]. split; [|exact Herr].
      rewrite Hfile. vm_compute. reflexivity.
  - destruct (close_persists_accepted_keys
                (Sample.env_with (fun _ => false) (Ok Scenario.recorded_elsewhere))
                (fst Sample.merged) (snd Sample.merged) Sample.known_hosts O
                Sample.merged_client Scenario.recorded_elsewhere)
      as (_ & _ & _ & _ & Hnone); try reflexivity.
    destruct Hnone as (w' & Hrun & Hfiles & Herr & _); [vm_compute; reflexivity|].
    exists w'. split; [exact Hrun|]. split; [|exact Herr].
    rewrite Hfiles. apply lookup_insert_ne.
    apply lockfile_differs. reflexivity.
Defined.

Lemma close_after_failed_connect_witness :
  exists e c' w1 w2 printed_name raised_name,
    connect Scenario.encrypted_key (Sample.conn, Sample.start) = (Raise e, (c', w1))
    /\ close Sample.env (c', w1) = (Raise (AttributeError raised_name), (c', w2))
    /\ stderr w2 = stderr Sample.start ++ [AttributeError printed_name]
    /\ ssh_objects w2
       = ssh_objects Sample.start
         ++ [new_session Scenario.encrypted_key Sample.conn Scenario.entries None].
Proof.
  destruct (close_after_failed_connect Scenario.encrypted_key Sample.env Sample.conn
              Sample.start Scenario.entries "Private key file is encrypted")
    as (e & c' & w1 & w2 & pn & rn & Hconn & Hclose & Herr & _ & _ & Hobjs).
  - reflexivity.
  - reflexivity.
  - vm_compute. reflexivity.
  - reflexivity.
  - intros _. reflexivity.
  - reflexivity.
  - reflexivity.
  - reflexivity.
  - exists e, c', w1, w2, pn, rn. split; [exact Hconn|]. split; [exact Hclose|].
    split; [exact Herr | exact Hobjs].
Defined.

Lemma save_makes_ssh_directory_witness :
  exists r w',
    _save_ssh_host_keys Sample.env Sample.known_hosts (fst Sample.merged, Scenario.bare)
    = (r, (fst Sample.merged, w'))
    /\ dirs w' = {[ expanduser Sample.env "~/.ssh" ]} ∪ dirs Scenario.bare.
Proof.
  destruct (save_makes_ssh_directory Sample.env Sample.known_hosts (fst Sample.merged)
              Scenario.bare O Sample.merged_client) as [_ Hmade].
  - reflexivity.
  - reflexivity.
  - vm_compute. discriminate.
  - intros H. by apply not_elem_of_empty in H.
  - vm_compute. reflexivity.
  - apply Hmade. reflexivity.
Defined.
